(** * hd-canvas: HDR pixel buffer, tone mapping and PNG metadata injection

A shallow embedding of the TypeScript sources
  - [src/core/ColorBuffer.ts]      (module [ColorBuffer])
  - [src/export/ToneMapper.ts]     (module [ToneMapper])
  - [src/export/PNGExporter.ts]    (module [PNGExporter])
  - [src/export/ExportPipeline.ts] (module [ExportPipeline])
together with the part of the JavaScript host semantics they rely on
(module [JS]): IEEE-754 binary64 numbers, [Math.round], [Math.fround],
the integer conversions and typed-array element access.

JavaScript numbers are Rocq's primitive binary64 floats, whose
operations are specified by [FloatAxioms] against [SpecFloat]. *)

From Stdlib Require Import ZArith Floats Lia Bool.
From stdpp Require Import base list strings.

Set Warnings "-inexact-float".
#[local] Open Scope Z_scope.

(* ===================================================================== *)
(** ** Host semantics *)
(* ===================================================================== *)

Module JS.

(** A JavaScript [number]. *)
Abbreviation number := float.

(** Thrown values: the two error classes the sources construct. *)
Inductive exn :=
| RangeError (msg : string)
| Error (msg : string).

(** Outcome of a call that may throw. *)
Inductive result (A : Type) :=
| Ok (a : A)
| Throw (e : exn).
Arguments Ok {A} a.
Arguments Throw {A} e.

Definition bind {A B} (m : result A) (k : A -> result B) : result B :=
  match m with
  | Ok a => k a
  | Throw e => Throw e
  end.

(** Calls into the environment (a user callback, a library outside the
    repository) are recorded as events: a computation yields the events
    it issued so far and its outcome. *)
Definition M (E A : Type) : Type := list E * result A.

Definition ret {E A} (a : A) : M E A := ([], Ok a).
Definition throw {E A} (e : exn) : M E A := ([], Throw e).
Definition emit {E} (ev : E) : M E unit := ([ev], Ok tt).
Definition lift {E A} (r : result A) : M E A := ([], r).

Definition bindM {E A B} (m : M E A) (k : A -> M E B) : M E B :=
  match m with
  | (t1, Ok a) => let '(t2, r) := k a in (t1 ++ t2, r)
  | (t1, Throw e) => (t1, Throw e)
  end.

Definition map_events {E F A} (f : E -> F) (m : M E A) : M F A :=
  (List.map f (fst m), snd m).

(** [a === b], [a < b], [a > b], [a <= b] on numbers. *)
Definition strict_eq (a b : number) : bool := (a =? b)%float.
Definition lt (a b : number) : bool := (a <? b)%float.
Definition gt (a b : number) : bool := (b <? a)%float.
Definition le (a b : number) : bool := (a <=? b)%float.

(** The number with a given integer value (exact for |n| <= 2^53). *)
Definition of_Z (n : Z) : number :=
  SF2Prim (binary_normalize prec emax n 0 false).

(** The mathematical value of [x] truncated toward zero; 0 when [x] is
    NaN or infinite (the first steps of ToInt32/ToUint32). *)
Definition truncate (x : number) : Z :=
  match Prim2SF x with
  | S754_finite s m e =>
      cond_Zopp s (if 0 <=? e then Zpos m * 2 ^ e else Zpos m / 2 ^ (- e))
  | _ => 0
  end.

(** The integer a number is, when it is one. *)
Definition integer_value (x : number) : option Z :=
  match Prim2SF x with
  | S754_zero _ => Some 0
  | S754_finite s m e =>
      if 0 <=? e then Some (cond_Zopp s (Zpos m * 2 ^ e))
      else if Zpos m mod 2 ^ (- e) =? 0 then Some (cond_Zopp s (Zpos m / 2 ^ (- e)))
      else None
  | _ => None
  end.

Definition ToUint32 (x : number) : Z := truncate x mod 2 ^ 32.
Definition ToUint16 (x : number) : Z := truncate x mod 2 ^ 16.
Definition ToUint8 (x : number) : Z := truncate x mod 2 ^ 8.
Definition ToInt32 (x : number) : Z :=
  let u := ToUint32 x in if u <? 2 ^ 31 then u else u - 2 ^ 32.

(** [Math.round]: the nearest integer, ties toward +infinity; keeps the
    sign of a result that is zero. *)
Definition Math_round (x : number) : number :=
  match Prim2SF x with
  | S754_finite s m e =>
      if 0 <=? e then x
      else
        let n := Z.shiftr (2 * cond_Zopp s (Zpos m) + 2 ^ (- e)) (- e + 1) in
        if n =? 0 then (if s then neg_zero else zero) else of_Z n
  | _ => x
  end.

(** [Math.fround]: round to the nearest binary32 value (ties to even),
    the conversion a [Float32Array] applies on every store. *)
Definition Math_fround (x : number) : number :=
  match Prim2SF x with
  | S754_finite s m e => SF2Prim (binary_round 24 128 s m e)
  | _ => x
  end.

(** *** Typed arrays

A typed array is the list of its elements.  Reading outside the
array yields [undefined], which every arithmetic use in the sources
turns into NaN; writing outside the array is ignored. *)

Inductive float_kind := Float32 | Float64.

Definition element (k : float_kind) (v : number) : number :=
  match k with
  | Float32 => Math_fround v
  | Float64 => v
  end.

Definition get (data : list number) (i : Z) : number :=
  if i <? 0 then nan else default nan (data !! Z.to_nat i).

Definition set (k : float_kind) (data : list number) (i : Z) (v : number)
  : list number :=
  if i <? 0 then data else <[Z.to_nat i := element k v]> data.

(** [a.subarray(begin, end)]: each bound is relative to the end of the
    array when negative and clamped to the array; an empty view when
    the bounds cross. *)
Definition relative_index (len z : Z) : Z :=
  if z <? 0 then Z.max (len + z) 0 else Z.min z len.

Definition float_subarray (a : list number) (begin end_ : Z) : list number :=
  let len := Z.of_nat (length a) in
  let from := relative_index len begin in
  let to := relative_index len end_ in
  take (Z.to_nat (to - from)) (drop (Z.to_nat from) a).

(** [target.set(source, offset)] on a float array of kind [k]: a
    RangeError when the source does not fit at the offset, otherwise
    every source element is converted to the element type of the
    target and stored. *)
Definition float_set (k : float_kind) (target source : list number) (offset : Z)
  : result (list number) :=
  if (offset <? 0) || (Z.of_nat (length target) <? offset + Z.of_nat (length source))
  then Throw (RangeError "offset is out of bounds")
  else Ok (take (Z.to_nat offset) target ++ List.map (element k) source
             ++ drop (Z.to_nat offset + length source) target).

(** [Number.isFinite]. *)
Definition Number_isFinite (x : number) : bool :=
  match Prim2SF x with
  | S754_zero _ | S754_finite _ _ _ => true
  | _ => false
  end.

(** The same number, up to the sign of a zero. *)
Definition same_number (x y : number) : Prop :=
  x = y \/ (strict_eq x 0 = true /\ strict_eq y 0 = true).

End JS.

(* ===================================================================== *)
(** ** binary64 rounding *)
(* ===================================================================== *)

(** Vocabulary for the specification of the binary64 operations in
    [SpecFloat], by which [FloatAxioms] defines the primitive ones. *)
Module Binary64.

(** A shift record that lost no nonzero bit. *)
Definition exact (mrs : shr_record) : Prop := loc_of_shr_record mrs = loc_Exact.

(** What [binary_round_aux] returns for the rounded mantissa [m] at
    exponent [e]. *)
Definition round_result (s : bool) (m e : Z) : spec_float :=
  match m with
  | Z0 => S754_zero s
  | Zpos p => if e <=? emax - prec then S754_finite s p e else S754_infinity s
  | Zneg _ => S754_nan
  end.

(** Not NaN, and of sign [s]. *)
Inductive signed (s : bool) : spec_float -> Prop :=
| signed_zero : signed s (S754_zero s)
| signed_infinity : signed s (S754_infinity s)
| signed_finite m e : signed s (S754_finite s m e).

(** The number 1. *)
Definition SF_one : spec_float := S754_finite false 4503599627370496 (-52).

(** Zero of either sign, a positive number or +Infinity. *)
Definition SFnonneg (x : spec_float) : bool :=
  match x with
  | S754_zero _ | S754_finite false _ _ | S754_infinity false => true
  | _ => false
  end.

(** The value of a finite number in units of [2^-1074], the least
    positive number. *)
Definition ival (m : positive) (e : Z) : Z := Zpos m * 2 ^ (e + 1074).

(** A positive number or +Infinity. *)
Definition SFpos (x : spec_float) : bool :=
  match x with
  | S754_finite false _ _ | S754_infinity false => true
  | _ => false
  end.

End Binary64.

(* ===================================================================== *)
(** ** ColorBuffer *)
(* ===================================================================== *)

Module ColorBuffer.
  Import JS.

Inductive ColorDepth := D32 | D64.
Inductive BlendMode := normal | add | multiply.

Definition RGBA : Type := number * number * number * number.

Definition kind_of (d : ColorDepth) : float_kind :=
  match d with D32 => Float32 | D64 => Float64 end.

(** The object state.  [width] and [height] are integer-valued numbers
    (the constructor rejects anything else), hence [Z]. *)
Record t := mk {
  width : Z;
  height : Z;
  depth : ColorDepth;
  data : list number
}.

Definition with_data (b : t) (d : list number) : t :=
  mk (width b) (height b) (depth b) d.

(** [new Float32Array(length)] / [new Float64Array(length)]: a zero-filled
    array, unless the engine refuses it (a length above its typed-array
    limit, or more memory than it can find), which it does with a
    RangeError.  [refusal k length] is the message of that error when the
    engine refuses an array of kind [k] and that length, [None] when it
    grants the array. *)
Definition allocate (refusal : float_kind -> Z -> option string)
    (k : float_kind) (length : Z) : result (list number) :=
  match refusal k length with
  | Some msg => Throw (RangeError msg)
  | None => Ok (replicate (Z.to_nat length) zero)
  end.

(** [new ColorBuffer(width, height, depth)] on an engine with the given
    refusals: a zero-filled buffer. *)
Definition construct (refusal : float_kind -> Z -> option string) (w h : Z)
    (d : ColorDepth) : result t :=
  if w <=? 0 then Throw (RangeError "width must be a positive integer")
  else if h <=? 0 then Throw (RangeError "height must be a positive integer")
  else
    let length := w * h * 4 in
    bind (allocate refusal (kind_of d) length) (fun data => Ok (mk w h d data)).

(** The constructor where the engine grants the array. *)
Definition new (w h : Z) (d : ColorDepth) : result t :=
  construct (fun _ _ => None) w h d.

(** The class invariant: positive dimensions and an array of
    [width*height*4] elements. *)
Definition wf (b : t) : Prop :=
  0 < width b /\ 0 < height b /\
  Z.of_nat (length (data b)) = width b * height b * 4.

(** Every element is a value of the array's element type (what a
    [Float32Array] holds is a binary32 value). *)
Definition typed (b : t) : Prop :=
  Forall (fun v => element (kind_of (depth b)) v = v) (data b).

Definition offset (b : t) (x y : Z) : result Z :=
  if (x <? 0) || (x >=? width b) || (y <? 0) || (y >=? height b)
  then Throw (RangeError "Pixel out of bounds")
  else Ok ((y * width b + x) * 4).

Definition store (b : t) (d : list number) (i : Z) (v : number) :=
  JS.set (kind_of (depth b)) d i v.

Definition setPixel (b : t) (x y : Z) (r g bl a : number) : result t :=
  bind (offset b x y) (fun i =>
    let d := data b in
    let d := store b d i r in
    let d := store b d (i + 1) g in
    let d := store b d (i + 2) bl in
    let d := store b d (i + 3) a in
    Ok (with_data b d)).

Definition getPixel (b : t) (x y : Z) : result RGBA :=
  bind (offset b x y) (fun i =>
    Ok (get (data b) i, get (data b) (i + 1),
        get (data b) (i + 2), get (data b) (i + 3))).

Definition blendPixel (b : t) (x y : Z) (r g bl a : number)
    (mode : BlendMode) : result t :=
  bind (offset b x y) (fun i =>
    let dstR := get (data b) i in
    let dstG := get (data b) (i + 1) in
    let dstB := get (data b) (i + 2) in
    let dstA := get (data b) (i + 3) in
    let '(blendedR, blendedG, blendedB) :=
      match mode with
      | normal => (r, g, bl)
      | add => (dstR + r, dstG + g, dstB + bl)%float
      | multiply => (dstR * r, dstG * g, dstB * bl)%float
      end in
    let outA := (a + dstA * (1 - a))%float in
    let d := data b in
    if strict_eq outA 0 then
      let d := store b d i 0%float in
      let d := store b d (i + 1) 0%float in
      let d := store b d (i + 2) 0%float in
      let d := store b d (i + 3) 0%float in
      Ok (with_data b d)
    else
      let d := store b d i ((blendedR * a + dstR * dstA * (1 - a)) / outA)%float in
      let d := store b d (i + 1) ((blendedG * a + dstG * dstA * (1 - a)) / outA)%float in
      let d := store b d (i + 2) ((blendedB * a + dstB * dstA * (1 - a)) / outA)%float in
      let d := store b d (i + 3) outA in
      Ok (with_data b d)).

Definition setPixelUnchecked (b : t) (x y : Z) (r g bl a : number) : t :=
  let i := (y * width b + x) * 4 in
  let d := data b in
  let d := store b d i r in
  let d := store b d (i + 1) g in
  let d := store b d (i + 2) bl in
  let d := store b d (i + 3) a in
  with_data b d.

(** The body of the [for] loop of [blendRowUnchecked], run [n] more
    times from pixel [p] with destination index [dstIdx]. *)
Fixpoint blendRow_loop (k : float_kind) (mode : BlendMode)
    (floats : list number) (n : nat) (p dstIdx : Z) (d : list number)
  : list number :=
  match n with
  | O => d
  | S n' =>
      let srcIdx := p * 4 in
      let a := get floats (srcIdx + 3) in
      if strict_eq a 0 then
        blendRow_loop k mode floats n' (p + 1) (dstIdx + 4) d
      else
        let r := get floats srcIdx in
        let g := get floats (srcIdx + 1) in
        let bl := get floats (srcIdx + 2) in
        let dstR := get d dstIdx in
        let dstG := get d (dstIdx + 1) in
        let dstB := get d (dstIdx + 2) in
        let dstA := get d (dstIdx + 3) in
        let '(blendedR, blendedG, blendedB) :=
          match mode with
          | normal => (r, g, bl)
          | add => (dstR + r, dstG + g, dstB + bl)%float
          | multiply => (dstR * r, dstG * g, dstB * bl)%float
          end in
        let outA := (a + dstA * (1 - a))%float in
        let d :=
          if strict_eq outA 0 then
            let d := JS.set k d dstIdx 0%float in
            let d := JS.set k d (dstIdx + 1) 0%float in
            let d := JS.set k d (dstIdx + 2) 0%float in
            JS.set k d (dstIdx + 3) 0%float
          else
            let d := JS.set k d dstIdx ((blendedR * a + dstR * dstA * (1 - a)) / outA)%float in
            let d := JS.set k d (dstIdx + 1) ((blendedG * a + dstG * dstA * (1 - a)) / outA)%float in
            let d := JS.set k d (dstIdx + 2) ((blendedB * a + dstB * dstA * (1 - a)) / outA)%float in
            JS.set k d (dstIdx + 3) outA in
        blendRow_loop k mode floats n' (p + 1) (dstIdx + 4) d
  end.

Definition blendRowUnchecked (b : t) (y startX pixelCount : Z)
    (floats : list number) (mode : BlendMode) : t :=
  with_data b
    (blendRow_loop (kind_of (depth b)) mode floats (Z.to_nat pixelCount)
       0 ((y * width b + startX) * 4) (data b)).

(** *** The scalar reference for the row blend

The "equivalent sequence of checked per-pixel calls": for each pixel
index in [ps], in order, one [blendPixel] call at column
[startX + p] with the colour read from [floats]. *)
Fixpoint blendPixel_sequence (b : t) (y startX : Z) (floats : list number)
(mode : BlendMode) (ps : list Z) : result t :=
match ps with
| [] => Ok b
| p :: ps' =>
  bind (blendPixel b (startX + p) y
          (get floats (p * 4)) (get floats (p * 4 + 1))
          (get floats (p * 4 + 2)) (get floats (p * 4 + 3)) mode)
       (fun b' => blendPixel_sequence b' y startX floats mode ps')
end.

(** Pixel indices [0 .. pixelCount-1]. *)
Definition pixel_indices (pixelCount : Z) : list Z := seqZ 0 pixelCount.

(** Indices of the source pixels whose alpha is not [=== 0]. *)
Definition visible_indices (floats : list number) (pixelCount : Z) : list Z :=
  filter (fun p => strict_eq (get floats (p * 4 + 3)) 0 = false)
         (pixel_indices pixelCount).

(** The colour a blend mode combines from a destination and a source
    channel (the [switch] of [blendPixel]). *)
Definition blend_channel (mode : BlendMode) (dst src : number) : number :=
  match mode with
  | normal => src
  | add => (dst + src)%float
  | multiply => (dst * src)%float
  end.

(** [byteLength]: 4 or 8 bytes per element. *)
Definition byteLength (b : t) : Z :=
  Z.of_nat (length (data b)) * match depth b with D32 => 4 | D64 => 8 end.

(** The loop of [clear]: [n] more iterations from index [i]. *)
Fixpoint clear_loop (k : float_kind) (r g bl a : number) (n : nat) (i : Z)
    (d : list number) : list number :=
  match n with
  | O => d
  | S n' =>
      let d := JS.set k d i r in
      let d := JS.set k d (i + 1) g in
      let d := JS.set k d (i + 2) bl in
      let d := JS.set k d (i + 3) a in
      clear_loop k r g bl a n' (i + 4) d
  end.

(** [clear(r, g, b, a)]: [i] runs over 0, 4, 8, ... below [data.length]. *)
Definition clear (b : t) (r g bl a : number) : t :=
  with_data b
    (clear_loop (kind_of (depth b)) r g bl a
       (Z.to_nat ((Z.of_nat (length (data b)) + 3) / 4)) 0 (data b)).

(** The row loop of [getRegion]: [n] more rows from [row], copying into
    the data [d] of the new buffer. *)
Fixpoint getRegion_loop (b : t) (x y w : Z) (n : nat) (row : Z) (d : list number)
  : result (list number) :=
  match n with
  | O => Ok d
  | S n' =>
      let srcStart := ((y + row) * width b + x) * 4 in
      let dstStart := row * w * 4 in
      bind (float_set (kind_of (depth b)) d
              (float_subarray (data b) srcStart (srcStart + w * 4)) dstStart)
           (fun d' => getRegion_loop b x y w n' (row + 1) d')
  end.

Definition getRegion (b : t) (x y w h : Z) : result t :=
  if (x <? 0) || (y <? 0) || (x + w >? width b) || (y + h >? height b)
  then Throw (RangeError "Region exceeds buffer bounds")
  else if (w <=? 0) || (h <=? 0)
  then Throw (RangeError "Region dimensions must be positive")
  else
    bind (new w h (depth b)) (fun region =>
    bind (getRegion_loop b x y w (Z.to_nat h) 0 (data region)) (fun d =>
    Ok (with_data region d))).

(** The row loop of [putRegion]. *)
Fixpoint putRegion_loop (b region : t) (x y : Z) (n : nat) (row : Z)
    (d : list number) : result (list number) :=
  match n with
  | O => Ok d
  | S n' =>
      let srcStart := row * width region * 4 in
      let dstStart := ((y + row) * width b + x) * 4 in
      bind (float_set (kind_of (depth b)) d
              (float_subarray (data region) srcStart (srcStart + width region * 4))
              dstStart)
           (fun d' => putRegion_loop b region x y n' (row + 1) d')
  end.

Definition putRegion (b : t) (x y : Z) (region : t) : result t :=
  if (x <? 0) || (y <? 0) || (x + width region >? width b)
     || (y + height region >? height b)
  then Throw (RangeError "Region exceeds buffer bounds")
  else
    bind (putRegion_loop b region x y (Z.to_nat (height region)) 0 (data b))
         (fun d => Ok (with_data b d)).

Definition blendPixelUnchecked (b : t) (x y : Z) (r g bl a : number)
    (mode : BlendMode) : t :=
  let i := (y * width b + x) * 4 in
  let dstR := get (data b) i in
  let dstG := get (data b) (i + 1) in
  let dstB := get (data b) (i + 2) in
  let dstA := get (data b) (i + 3) in
  let '(blendedR, blendedG, blendedB) :=
    match mode with
    | normal => (r, g, bl)
    | add => (dstR + r, dstG + g, dstB + bl)%float
    | multiply => (dstR * r, dstG * g, dstB * bl)%float
    end in
  let outA := (a + dstA * (1 - a))%float in
  let d := data b in
  if strict_eq outA 0 then
    let d := store b d i 0%float in
    let d := store b d (i + 1) 0%float in
    let d := store b d (i + 2) 0%float in
    let d := store b d (i + 3) 0%float in
    with_data b d
  else
    let d := store b d i ((blendedR * a + dstR * dstA * (1 - a)) / outA)%float in
    let d := store b d (i + 1) ((blendedG * a + dstG * dstA * (1 - a)) / outA)%float in
    let d := store b d (i + 2) ((blendedB * a + dstB * dstA * (1 - a)) / outA)%float in
    let d := store b d (i + 3) outA in
    with_data b d.

(** [setRowUnchecked]: one [set] of the first [pixelCount * 4] source
    values at the offset of pixel [(startX, y)]. *)
Definition setRowUnchecked (b : t) (y startX pixelCount : Z) (floats : list number)
  : result t :=
  let dstOffset := (y * width b + startX) * 4 in
  bind (float_set (kind_of (depth b)) (data b)
          (float_subarray floats 0 (pixelCount * 4)) dstOffset)
       (fun d => Ok (with_data b d)).

(** The scalar reference for the row write: for each pixel index in
    [ps], in order, one [setPixelUnchecked] call at column [startX + p]
    with the colour read from [floats]. *)
Fixpoint setPixelUnchecked_sequence (b : t) (y startX : Z) (floats : list number)
    (ps : list Z) : t :=
  match ps with
  | [] => b
  | p :: ps' =>
      setPixelUnchecked_sequence
        (setPixelUnchecked b (startX + p) y
           (get floats (p * 4)) (get floats (p * 4 + 1))
           (get floats (p * 4 + 2)) (get floats (p * 4 + 3)))
        y startX floats ps'
  end.

End ColorBuffer.

(* ===================================================================== *)
(** ** ToneMapper *)
(* ===================================================================== *)

Module ToneMapper.
  Import JS.

Definition ToneMapFn := number -> number.

Definition clamp (v : number) : number :=
  (if lt v 0 then 0 else if gt v 1 then 1 else v)%float.

Definition reinhard (v : number) : number :=
  (if lt v 0 then 0 else v / (1 + v))%float.

Definition aces (v : number) : number :=
  (if lt v 0 then 0
   else
     let a := 2.51 in
     let b := 0.03 in
     let c := 2.43 in
     let d := 0.59 in
     let e := 0.14 in
     let mapped := (v * (a * v + b)) / (v * (c * v + d) + e) in
     if lt mapped 0 then 0 else if gt mapped 1 then 1 else mapped)%float.

(** The numerator and the denominator of [mapped] in [aces]. *)
Definition aces_numerator (v : number) : number :=
  (v * (2.51 * v + 0.03))%float.
Definition aces_denominator (v : number) : number :=
  (v * (2.43 * v + 0.59) + 0.14)%float.

(** [0 <= x && x <= 1]. *)
Definition in_unit_range (x : number) : bool := le 0 x && le x 1.

(** The registry [TONE_MAP_ALGORITHMS], looked up by one of its three
    keys, or by a name that is neither a key nor the name of a member
    inherited from [Object.prototype].  For [toString], [constructor],
    [__proto__] and the like the lookup of the source finds the inherited
    member; those names are outside this model. *)
Definition TONE_MAP_ALGORITHMS (key : string) : option ToneMapFn :=
  if String.eqb key "clamp" then Some clamp
  else if String.eqb key "reinhard" then Some reinhard
  else if String.eqb key "aces" then Some aces
  else None.

(** [algorithm: ToneMapAlgorithm | ToneMapFn]. *)
Inductive algorithm_option :=
| Named (key : string)
| Custom (fn : ToneMapFn).

Record ToneMapOptions := mkOptions {
  algorithm : algorithm_option;
  exposure : option number;
  gamma : option number;
  outputDepth : option Z
}.

(** The private fields of a constructed mapper. *)
Record t := mk {
  mapFn : ToneMapFn;
  exposureMultiplier : number;
  invGamma : number;
  depth : Z;
  maxVal : number
}.

(** Quantized output: a [Uint8Array] or a [Uint16Array]. *)
Inductive int_kind := Uint8 | Uint16.
Record int_array := mkArray { kind : int_kind; elems : list Z }.

(** [data instanceof Uint8Array], [data instanceof Uint16Array] *)
Definition instanceof_Uint8Array (a : int_array) : bool :=
  match kind a with Uint8 => true | Uint16 => false end.
Definition instanceof_Uint16Array (a : int_array) : bool :=
  match kind a with Uint16 => true | Uint8 => false end.

Definition to_elem (k : int_kind) (v : number) : Z :=
  match k with
  | Uint8 => ToUint8 v
  | Uint16 => ToUint16 v
  end.

Definition LUT_SIZE : Z := 4096.

(** Reading [gammaLut[i]] and storing it into [dst]: an index outside
    the table reads [undefined], stored as 0. *)
Definition lut_get (gammaLut : list Z) (i : Z) : Z :=
  if i <? 0 then 0 else default 0 (gammaLut !! Z.to_nat i).

Section WithPow.
  (** [Math.pow], which the language leaves implementation-approximated
      outside its special cases. *)
  Variable Math_pow : number -> number -> number.

Definition new (options : ToneMapOptions) : result t :=
  bind (match algorithm options with
        | Custom fn => Ok fn
        | Named key =>
            match TONE_MAP_ALGORITHMS key with
            | Some fn => Ok fn
            | None => Throw (Error "Unknown tone map algorithm")
            end
        end) (fun fn =>
    let exposure := default 0%float (exposure options) in
    let exposureMultiplier := Math_pow 2 exposure in
    let gamma := default 2.2%float (gamma options) in
    if le gamma 0 then Throw (Error "Gamma must be positive")
    else
      let invGamma := (1 / gamma)%float in
      let outputDepth := default 8 (outputDepth options) in
      if negb (outputDepth =? 8) && negb (outputDepth =? 16)
      then Throw (Error "Output depth must be 8 or 16")
      else
        Ok (mk fn exposureMultiplier invGamma outputDepth
               (if outputDepth =? 16 then 65535%float else 255%float))).

Definition mapValue (tm : t) (v : number) : number :=
  let exposed := (v * exposureMultiplier tm)%float in
  let mapped := mapFn tm exposed in
  Math_pow mapped (invGamma tm).

Definition quantize (tm : t) (v : number) : number :=
  let clamped := if lt v 0 then 0%float else if gt v 1 then 1%float else v in
  Math_round (clamped * maxVal tm)%float.

(** The table built at the start of [map] for 8-bit output:
    entries [0 .. LUT_SIZE], each stored into a [Uint8Array]. *)
Definition build_gammaLut (tm : t) : list Z :=
  map (fun i : nat =>
         let v := (of_Z (Z.of_nat i) / of_Z LUT_SIZE)%float in
         ToUint8 (Math_round (Math_pow v (invGamma tm) * maxVal tm)%float))
      (seq 0 (Z.to_nat (LUT_SIZE + 1))).

(** One colour channel on the table path. *)
Definition lut_channel (tm : t) (gammaLut : list Z) (s : number) : Z :=
  let mapped := mapFn tm (s * exposureMultiplier tm)%float in
  let mapped := if lt mapped 0 then 0%float else if gt mapped 1 then 1%float else mapped in
  lut_get gammaLut (ToInt32 (mapped * of_Z LUT_SIZE + 0.5)%float).

(** One colour channel on the 16-bit path. *)
Definition pow_channel (tm : t) (k : int_kind) (s : number) : Z :=
  let exposed := (s * exposureMultiplier tm)%float in
  let mapped := mapFn tm exposed in
  let gammaed := Math_pow mapped (invGamma tm) in
  let clamped := if lt gammaed 0 then 0%float else if gt gammaed 1 then 1%float else gammaed in
  to_elem k (Math_round (clamped * maxVal tm)%float).

Definition alpha_channel (tm : t) (k : int_kind) (a : number) : Z :=
  to_elem k (Math_round ((if lt a 0 then 0 else if gt a 1 then 1 else a) * maxVal tm)%float).

(** [map]: the loop visits [i = 0, 4, 8, ...] below [totalValues] and
    fills [dst[i .. i+3]]; the result is the concatenation of the
    four values written for each pixel. *)
Definition map (tm : t) (input : ColorBuffer.t) : int_array :=
  let pixelCount := ColorBuffer.width input * ColorBuffer.height input in
  let src := ColorBuffer.data input in
  let k := if depth tm =? 16 then Uint16 else Uint8 in
  let useGammaLut := depth tm =? 8 in
  let pixels := List.map (fun p : nat => Z.of_nat p * 4) (seq 0 (Z.to_nat pixelCount)) in
  if useGammaLut then
    let gammaLut := build_gammaLut tm in
    mkArray k
      (flat_map (fun i =>
         [ lut_channel tm gammaLut (get src i);
           lut_channel tm gammaLut (get src (i + 1));
           lut_channel tm gammaLut (get src (i + 2));
           alpha_channel tm k (get src (i + 3)) ]) pixels)
  else
    mkArray k
      (flat_map (fun i =>
         [ pow_channel tm k (get src i);
           pow_channel tm k (get src (i + 1));
           pow_channel tm k (get src (i + 2));
           alpha_channel tm k (get src (i + 3)) ]) pixels).

(** The direct computation of one channel: [mapValue], [quantize],
    then the store into the output array. *)
Definition direct_channel (tm : t) (k : int_kind) (s : number) : Z :=
  to_elem k (quantize tm (mapValue tm s)).

(** The table path, read off the table's definition: the index of the
    grid point nearest to the clamped mapped value, and the entry there
    (0 when the index falls outside the table). *)
Definition grid_index (tm : t) (s : number) : Z :=
  let mapped := mapFn tm (s * exposureMultiplier tm)%float in
  let mapped := if lt mapped 0 then 0%float else if gt mapped 1 then 1%float else mapped in
  ToInt32 (mapped * of_Z LUT_SIZE + 0.5)%float.

Definition table_value (tm : t) (s : number) : Z :=
  let i := grid_index tm s in
  if (0 <=? i) && (i <=? LUT_SIZE)
  then ToUint8 (Math_round (Math_pow (of_Z i / of_Z LUT_SIZE) (invGamma tm) * maxVal tm)%float)
  else 0.

End WithPow.

End ToneMapper.

(* ===================================================================== *)
(** ** PNGExporter *)
(* ===================================================================== *)

Module PNGExporter.
  Import JS.

(** *** 32-bit integer operators on integer-valued numbers *)

Definition int32 (z : Z) : Z := (z + 2 ^ 31) mod 2 ^ 32 - 2 ^ 31.
Definition uint32 (z : Z) : Z := z mod 2 ^ 32.
(** [a ^ b], [a & b], [a >>> n] *)
Definition xor (a b : Z) : Z := Z.lxor (int32 a) (int32 b).
Definition and (a b : Z) : Z := Z.land (int32 a) (int32 b).
Definition ushr (a n : Z) : Z := Z.shiftr (uint32 a) (n mod 32).

Definition dpiToPixelsPerMeter (dpi : number) : number :=
  Math_round (dpi / 0.0254)%float.

(** The inner loop of the table initialisation, [k] more rounds. *)
Fixpoint crc_rounds (k : nat) (c : Z) : Z :=
  match k with
  | O => c
  | S k' =>
      crc_rounds k' (if negb (and c 1 =? 0) then xor 0xedb88320 (ushr c 1) else ushr c 1)
  end.

(** [CRC_TABLE], a [Uint32Array] of 256 entries. *)
Definition CRC_TABLE : list Z :=
  map (fun n : nat => uint32 (crc_rounds 8 (Z.of_nat n))) (seq 0 256).

Definition table_get (i : Z) : Z :=
  if i <? 0 then 0 else default 0 (CRC_TABLE !! Z.to_nat i).

Definition crc32 (data : list Z) : Z :=
  let crc :=
    fold_left (fun crc byte => xor (table_get (and (xor crc byte) 0xff)) (ushr crc 8))
              data 0xffffffff in
  ushr (xor crc 0xffffffff) 0.

(** [view.setUint32(offset, value, false)]: four bytes, big-endian. *)
Definition setUint32 (bytes : list Z) (offset : nat) (value : Z) : list Z :=
  let v := uint32 value in
  <[(offset + 3)%nat := v mod 256]>
    (<[(offset + 2)%nat := (v / 2 ^ 8) mod 256]>
       (<[(offset + 1)%nat := (v / 2 ^ 16) mod 256]>
          (<[offset := (v / 2 ^ 24) mod 256]> bytes))).

(** [a.subarray(from, to)] / [a.slice(from, to)] for non-negative
    bounds: both are clamped to the array. *)
Definition subarray (a : list Z) (from to : nat) : list Z :=
  take (to - from)%nat (drop from a).

(** [target.set(source, offset)]. *)
Definition TypedArray_set (target source : list Z) (offset : nat) : result (list Z) :=
  if (length target <? offset + length source)%nat
  then Throw (RangeError "offset is out of bounds")
  else Ok (take offset target ++ source ++ drop (offset + length source)%nat target).

Definition buildPHYsChunk (dpi : number) : list Z :=
  let ppm := dpiToPixelsPerMeter dpi in
  let chunk := replicate 21 0 in
  let chunk := setUint32 chunk 0 9 in
  let chunk := <[4%nat := 0x70]> chunk in
  let chunk := <[5%nat := 0x48]> chunk in
  let chunk := <[6%nat := 0x59]> chunk in
  let chunk := <[7%nat := 0x73]> chunk in
  let chunk := setUint32 chunk 8 (ToUint32 ppm) in
  let chunk := setUint32 chunk 12 (ToUint32 ppm) in
  let chunk := <[16%nat := 1]> chunk in
  let crcData := subarray chunk 4 17 in
  let crcVal := crc32 crcData in
  setUint32 chunk 17 crcVal.

Definition IHDR_END : nat := (8 + 25)%nat.

(** *** The file format, for reference

    The signature every PNG file starts with, a big-endian 32-bit field
    and its value, and CRC-32 as the format defines it: bit by bit with
    the reflected polynomial 0xEDB88320, the register starting at
    0xFFFFFFFF and complemented at the end. *)
Definition PNG_SIGNATURE : list Z :=
  [0x89; 0x50; 0x4e; 0x47; 0x0d; 0x0a; 0x1a; 0x0a].

Definition be32 (n : Z) : list Z :=
  [(n / 2 ^ 24) mod 256; (n / 2 ^ 16) mod 256; (n / 2 ^ 8) mod 256; n mod 256].

Definition be32_value (bytes : list Z) : Z :=
  fold_left (fun acc b => acc * 256 + b) bytes 0.

Definition crc_bit (c : Z) : Z :=
  if Z.odd c then Z.lxor (Z.shiftr c 1) 0xEDB88320 else Z.shiftr c 1.

Definition crc_byte (c byte : Z) : Z := Nat.iter 8 crc_bit (Z.lxor c byte).

Definition crc32_reference (data : list Z) : Z :=
  Z.lxor (fold_left crc_byte data 0xFFFFFFFF) 0xFFFFFFFF.

Definition injectPHYs (png : list Z) (dpi : number) : result (list Z) :=
  if negb (bool_decide (png !! 0%nat = Some 0x89))
     || negb (bool_decide (png !! 1%nat = Some 0x50))
     || negb (bool_decide (png !! 2%nat = Some 0x4e))
     || negb (bool_decide (png !! 3%nat = Some 0x47))
  then Throw (Error "Not a valid PNG file")
  else
    let phys := buildPHYsChunk dpi in
    let result := replicate (length png + length phys)%nat 0 in
    bind (TypedArray_set result (subarray png 0 IHDR_END) 0) (fun result =>
    bind (TypedArray_set result phys IHDR_END) (fun result =>
    TypedArray_set result (subarray png IHDR_END (length png))
                   (IHDR_END + length phys)%nat)).

(** The input begins with the four bytes the validation reads. *)
Definition magic_ok (png : list Z) : Prop :=
  take 4 png = [0x89; 0x50; 0x4e; 0x47].

Record PNGExportOptions := mkOptions {
  width : Z;
  height : Z;
  dpi : number;
  depth : option Z
}.

Record PNGExportResult := mkResult {
  data : list Z;
  mimeType : string;
  filename : string
}.

(** An [encode] call of the PNG encoding library, as the exporter
    issues it. *)
Record encode_call := mkCall {
  enc_width : Z;
  enc_height : Z;
  enc_data : ToneMapper.int_array;
  enc_depth : Z;
  enc_channels : Z
}.

(** The arguments [export] accepts: positive dimensions, a resolution that
    is not [<= 0], four samples per pixel, and for depth 16 or 8 an array
    of that width. *)
Definition valid_arguments (data : ToneMapper.int_array) (o : PNGExportOptions)
  : Prop :=
  0 < width o /\ 0 < height o /\ le (dpi o) 0 = false /\
  Z.of_nat (length (ToneMapper.elems data)) = width o * height o * 4 /\
  (default 8 (depth o) = 16 -> ToneMapper.kind data = ToneMapper.Uint16) /\
  (default 8 (depth o) = 8 -> ToneMapper.kind data = ToneMapper.Uint8).

Section WithHost.
  (** The encoder of the [fast-png] package and the number formatting
      of template literals belong to the host. *)
  Variable encode : encode_call -> result (list Z).
  Variable Number_toString : number -> string.

Definition export (data : ToneMapper.int_array) (options : PNGExportOptions)
  : M encode_call PNGExportResult :=
  let width := width options in
  let height := height options in
  let dpi := dpi options in
  let depth := default 8 (depth options) in
  if (width <=? 0) || (height <=? 0) then throw (Error "Invalid dimensions")
  else if le dpi 0 then throw (Error "DPI must be positive")
  else
    let expectedLength := width * height * 4 in
    if negb (Z.of_nat (length (ToneMapper.elems data)) =? expectedLength)
    then throw (Error "Data length mismatch")
    else if (depth =? 16) && negb (ToneMapper.instanceof_Uint16Array data)
    then throw (Error "16-bit depth requires Uint16Array input")
    else if (depth =? 8) && negb (ToneMapper.instanceof_Uint8Array data)
    then throw (Error "8-bit depth requires Uint8Array input")
    else
      let call := mkCall width height data depth 4 in
      bindM (emit call) (fun _ =>
      bindM (lift (encode call)) (fun pngBytes =>
      bindM (lift (injectPHYs pngBytes dpi)) (fun pngWithDpi =>
      ret (mkResult pngWithDpi "image/png"
            (String.append "artwork-"
            (String.append (Number_toString (of_Z width))
            (String.append "x"
            (String.append (Number_toString (of_Z height))
            (String.append "-"
            (String.append (Number_toString dpi) "dpi.png")))))))))).
End WithHost.

End PNGExporter.

(* ===================================================================== *)
(** ** ExportPipeline and the HDCanvas export facade *)
(* ===================================================================== *)

Module ExportPipeline.
  Import JS.

(** [ExportOptions], as declared by both [HDCanvas] and the pipeline. *)
Record ExportOptions := mkExportOptions {
  toneMap : option string;
  exposure : option number;
  gamma : option number;
  format : option string
}.

Record Blob := mkBlob {
  blob_parts : list Z;
  blob_type : string
}.

Section WithHost.
  Variable Math_pow : number -> number -> number.
  Variable encode : PNGExporter.encode_call -> result (list Z).
  Variable Number_toString : number -> string.
  (** Progress callbacks are code of the caller: [invoke f percent] is
      the outcome of the call [f(percent)], which returns or throws. *)
  Variable ExportProgressFn : Type.
  Variable invoke : ExportProgressFn -> number -> result unit.

Record ExportPipelineOptions := mkPipelineOptions {
  base : ExportOptions;
  dpi : number;
  onProgress : option ExportProgressFn
}.

Inductive event :=
| Progress (callback : ExportProgressFn) (percent : number)
| Encode (call : PNGExporter.encode_call).

(** [onProgress?.(percent)] *)
Definition call_onProgress (cb : option ExportProgressFn) (percent : number)
  : M event unit :=
  match cb with
  | Some f => bindM (emit (Progress f percent)) (fun _ => lift (invoke f percent))
  | None => ret tt
  end.

Definition exportBuffer (buffer : ColorBuffer.t) (options : ExportPipelineOptions)
  : M event Blob :=
  let toneMap := default "reinhard" (toneMap (base options)) in
  let exposure := default 0%float (exposure (base options)) in
  let gamma := default 2.2%float (gamma (base options)) in
  let format := default "png" (format (base options)) in
  let dpi := dpi options in
  let onProgress := onProgress options in
  if negb (String.eqb format "png")
  then throw (Error "Unsupported export format")
  else
    bindM (call_onProgress onProgress 0) (fun _ =>
    bindM (lift (ToneMapper.new Math_pow
             (ToneMapper.mkOptions (ToneMapper.Named toneMap)
                (Some exposure) (Some gamma) (Some 8)))) (fun toneMapper =>
    let ldrData := ToneMapper.map Math_pow toneMapper buffer in
    bindM (call_onProgress onProgress 50) (fun _ =>
    bindM (map_events Encode
             (PNGExporter.export encode Number_toString ldrData
                (PNGExporter.mkOptions (ColorBuffer.width buffer)
                   (ColorBuffer.height buffer) dpi (Some 8)))) (fun result =>
    bindM (call_onProgress onProgress 90) (fun _ =>
    let blob := mkBlob (PNGExporter.data result) "image/png" in
    bindM (call_onProgress onProgress 100) (fun _ =>
    ret blob)))))).

(** The part of [HDCanvas] the export facade uses. *)
Record HDCanvas := mkCanvas {
  buffer : ColorBuffer.t;
  canvas_dpi : number;
  exportFn : option (ColorBuffer.t -> ExportOptions -> M event Blob)
}.

Definition setExportFn (canvas : HDCanvas)
    (fn : ColorBuffer.t -> ExportOptions -> M event Blob) : HDCanvas :=
  mkCanvas (buffer canvas) (canvas_dpi canvas) (Some fn).

(** [HDCanvas.export] *)
Definition export (canvas : HDCanvas) (options : ExportOptions) : M event Blob :=
  match exportFn canvas with
  | None => throw (Error "No export function registered")
  | Some fn => fn (buffer canvas) options
  end.

Definition attachExportPipeline (canvas : HDCanvas)
    (onProgress : option ExportProgressFn) : HDCanvas :=
  setExportFn canvas (fun buffer options =>
    exportBuffer buffer (mkPipelineOptions options (canvas_dpi canvas) onProgress)).

(** [generateFilename(width, height, dpi, prefix = 'artwork')] *)
Definition generateFilename (width height dpi : number) (prefix : option string)
  : string :=
  String.append (default "artwork" prefix)
  (String.append "-"
  (String.append (Number_toString width)
  (String.append "x"
  (String.append (Number_toString height)
  (String.append "-"
  (String.append (Number_toString dpi) "dpi.png")))))).

(** [HDCanvas.destroy], on the part the export facade uses. *)
Definition destroy (canvas : HDCanvas) : HDCanvas :=
  mkCanvas (buffer canvas) (canvas_dpi canvas) None.


(** Successive reports never go down. *)
Fixpoint nondecreasing (l : list number) : bool :=
  match l with
  | a :: (b :: _) as rest => le a b && nondecreasing rest
  | _ => true
  end.

(** The percentages reported to the progress callback, in order. *)
Definition progress_of (trace : list event) : list number :=
  flat_map (fun ev => match ev with Progress _ p => [p] | Encode _ => [] end) trace.


End WithHost.

End ExportPipeline.

(* ===================================================================== *)
(** ** PaperSize *)
(* ===================================================================== *)

Module PaperSize.
  Import JS.

Record PaperDimensions := mkPaper {
  widthMM : number;
  heightMM : number
}.

Record PixelDimensions := mkPixels {
  width : number;
  height : number
}.

Inductive Orientation := portrait | landscape.

Inductive PaperSizeKey :=
| A0 | A1 | A2 | A3 | A4 | A5 | A6 | Letter | Legal | Tabloid.

Definition PAPER_SIZES (key : PaperSizeKey) : PaperDimensions :=
  match key with
  | A0 => mkPaper 841 1189
  | A1 => mkPaper 594 841
  | A2 => mkPaper 420 594
  | A3 => mkPaper 297 420
  | A4 => mkPaper 210 297
  | A5 => mkPaper 148 210
  | A6 => mkPaper 105 148
  | Letter => mkPaper 215.9 279.4
  | Legal => mkPaper 215.9 355.6
  | Tabloid => mkPaper 279.4 431.8
  end%float.

Definition MM_PER_INCH : number := 25.4%float.

Definition sizeToPx (size : PaperDimensions) (dpi : number) : result PixelDimensions :=
  if le dpi 0 then Throw (RangeError "DPI must be positive")
  else Ok (mkPixels (Math_round ((widthMM size / MM_PER_INCH) * dpi)%float)
                    (Math_round ((heightMM size / MM_PER_INCH) * dpi)%float)).

(** [size: PaperSizeKey | PaperDimensions] *)
Inductive size_input :=
| Key (key : PaperSizeKey)
| Custom (dims : PaperDimensions).

Definition resolvePaperSize (size : size_input) (orientation : Orientation)
  : result PaperDimensions :=
  let dims := match size with Key key => PAPER_SIZES key | Custom dims => dims end in
  if le (widthMM dims) 0 || le (heightMM dims) 0
  then Throw (RangeError "Paper dimensions must be positive")
  else
    match orientation with
    | landscape => Ok (mkPaper (heightMM dims) (widthMM dims))
    | portrait => Ok dims
    end.


End PaperSize.

(* ===================================================================== *)
(** ** HDCanvas: construction *)
(* ===================================================================== *)

Module HDCanvas.
  Import JS.

Record HDCanvasOptions := mkOptions {
  paperSize : PaperSize.size_input;
  dpi : option number;
  colorDepth : option ColorBuffer.ColorDepth;
  orientation : option PaperSize.Orientation
}.

(** The public fields set by the constructor. *)
Record t := mk {
  widthPx : number;
  heightPx : number;
  canvas_dpi : number;
  canvas_colorDepth : ColorBuffer.ColorDepth;
  buffer : ColorBuffer.t;
  paperMM : PaperSize.PaperDimensions
}.

(** [new ColorBuffer(width, height, depth)] on numbers: the constructor
    rejects what is not a positive integer. *)
Definition new_ColorBuffer (width height : number) (depth : ColorBuffer.ColorDepth)
  : result ColorBuffer.t :=
  match integer_value width with
  | None => Throw (RangeError "width must be a positive integer")
  | Some w =>
      if w <=? 0 then Throw (RangeError "width must be a positive integer")
      else
        match integer_value height with
        | None => Throw (RangeError "height must be a positive integer")
        | Some h => ColorBuffer.new w h depth
        end
  end.

Definition new (options : HDCanvasOptions) : result t :=
  let dpi := default 300%float (dpi options) in
  let colorDepth := default ColorBuffer.D32 (colorDepth options) in
  let orientation := default PaperSize.portrait (orientation options) in
  if le dpi 0 then Throw (RangeError "DPI must be positive")
  else
    bind (PaperSize.resolvePaperSize (paperSize options) orientation) (fun paperMM =>
    bind (PaperSize.sizeToPx paperMM dpi) (fun px =>
    bind (new_ColorBuffer (PaperSize.width px) (PaperSize.height px) colorDepth)
      (fun buffer =>
    Ok (mk (PaperSize.width px) (PaperSize.height px) dpi colorDepth buffer paperMM)))).

(** [memoryBytes] *)
Definition memoryBytes (c : t) : Z := ColorBuffer.byteLength (buffer c).

End HDCanvas.

(* ===================================================================== *)
(** ** Canvas2DBridge *)
(* ===================================================================== *)

Module Canvas2DBridge.
  Import JS.

Inductive Mode := overwrite | blend.

Record Region := mkRegion {
  x : Z;
  y : Z;
  width : Z;
  height : Z
}.

Record DrawWith2DOptions := mkOptions {
  mode : option Mode;
  blendMode : option ColorBuffer.BlendMode;
  region : option Region
}.

Definition MAX_TILE_SIZE : Z := 4096.

Definition validateRegion (region : Region) (bufferWidth bufferHeight : Z)
  : result unit :=
  if (x region <? 0) || (y region <? 0) || (width region <=? 0) || (height region <=? 0)
  then Throw (RangeError "Region must have non-negative origin and positive dimensions")
  else if (x region + width region >? bufferWidth)
          || (y region + height region >? bufferHeight)
  then Throw (RangeError "Region exceeds buffer bounds")
  else Ok tt.

(** [pixels[i]!] on the [Uint8ClampedArray] of an [ImageData]. *)
Definition sample (pixels : list Z) (i : Z) : number :=
  if i <? 0 then nan else default nan (of_Z <$> pixels !! Z.to_nat i).

(** [1 / 255] *)
Definition inv255 : number := (1 / 255)%float.

(** The contents of [rowFloats] after the conversion loop of one row. *)
Definition rowFloats (k : float_kind) (pixels : list Z) (rowStart tileW : Z)
  : list number :=
  List.map (fun i => element k (sample pixels (rowStart + i) * inv255)%float)
           (seqZ 0 (tileW * 4)).

(** The row loop of [drawTile]: [n] more rows from [row]. *)
Fixpoint drawTile_rows (pixels : list Z) (tileX tileY tileW : Z) (mode : Mode)
    (blendMode : ColorBuffer.BlendMode) (n : nat) (row : Z) (buffer : ColorBuffer.t)
  : result ColorBuffer.t :=
  match n with
  | O => Ok buffer
  | S n' =>
      let rowStart := row * tileW * 4 in
      let floats :=
        rowFloats (ColorBuffer.kind_of (ColorBuffer.depth buffer)) pixels rowStart tileW in
      bind (match mode with
            | overwrite =>
                ColorBuffer.setRowUnchecked buffer (tileY + row) tileX tileW floats
            | blend =>
                Ok (ColorBuffer.blendRowUnchecked buffer (tileY + row) tileX tileW
                      floats blendMode)
            end)
           (fun buffer' =>
              drawTile_rows pixels tileX tileY tileW mode blendMode n' (row + 1) buffer')
  end.

(** A [drawTile] call: the tile handed to the offscreen canvas. *)
Record tile := mkTile {
  tileX : Z;
  tileY : Z;
  tileW : Z;
  tileH : Z
}.

(** The tiles [drawWith2D] draws, in order: the region itself when it
    fits one tile, otherwise rows of tiles of at most [MAX_TILE_SIZE]
    pixels a side ([ty] and [tx] run over 0, 4096, 8192, ... below the
    height and the width of the region). *)
Definition tile_starts (extent : Z) : list Z :=
  List.map (fun i : nat => Z.of_nat i * MAX_TILE_SIZE)
           (seq 0 (Z.to_nat ((extent + MAX_TILE_SIZE - 1) / MAX_TILE_SIZE))).

Definition tiles (r : Region) : list tile :=
  if (width r <=? MAX_TILE_SIZE) && (height r <=? MAX_TILE_SIZE)
  then [mkTile (x r) (y r) (width r) (height r)]
  else
    flat_map (fun ty =>
      let tileH := Z.min MAX_TILE_SIZE (height r - ty) in
      List.map (fun tx =>
        let tileW := Z.min MAX_TILE_SIZE (width r - tx) in
        mkTile (x r + tx) (y r + ty) tileW tileH) (tile_starts (width r)))
      (tile_starts (height r)).

Section WithHost.
  (** The offscreen canvas is the browser's: for a tile, the bytes
      [getImageData] returns after the caller's drawing callback ran,
      or nothing when no 2D context could be obtained. *)
  Variable render : tile -> option (list Z).

Definition drawTile (buffer : ColorBuffer.t) (t : tile) (mode : Mode)
    (blendMode : ColorBuffer.BlendMode) : M tile ColorBuffer.t :=
  bindM (emit t) (fun _ =>
  match render t with
  | None => throw (Error "Failed to get 2D rendering context for offscreen canvas")
  | Some pixels =>
      lift (drawTile_rows pixels (tileX t) (tileY t) (tileW t) mode blendMode
              (Z.to_nat (tileH t)) 0 buffer)
  end).

Fixpoint drawTiles (buffer : ColorBuffer.t) (ts : list tile) (mode : Mode)
    (blendMode : ColorBuffer.BlendMode) : M tile ColorBuffer.t :=
  match ts with
  | [] => ret buffer
  | t :: ts' =>
      bindM (drawTile buffer t mode blendMode) (fun buffer' =>
      drawTiles buffer' ts' mode blendMode)
  end.

Definition drawWith2D (buffer : ColorBuffer.t) (options : DrawWith2DOptions)
  : M tile ColorBuffer.t :=
  let mode := default overwrite (mode options) in
  let blendMode := default ColorBuffer.normal (blendMode options) in
  let region :=
    default (mkRegion 0 0 (ColorBuffer.width buffer) (ColorBuffer.height buffer))
            (region options) in
  bindM (lift (validateRegion region (ColorBuffer.width buffer)
                 (ColorBuffer.height buffer))) (fun _ =>
  drawTiles buffer (tiles region) mode blendMode).

End WithHost.

End Canvas2DBridge.

(* ===================================================================== *)
(** ** Sample inputs *)
(* ===================================================================== *)

Module Samples.
Import JS.

(** A 32-bit buffer as the constructor allocates it. *)
Definition fresh32 : ColorBuffer.t :=
  ColorBuffer.mk 1 1 ColorBuffer.D32 [0; 0; 0; 0]%float.

(** A destination whose stored alpha is 0 but whose colour is not (the
    state after [setPixel(0, 0, 1, 2, 3, 0)] on a 64-bit buffer), and a
    fully transparent source pixel. *)
Definition ghost_pixel : ColorBuffer.t :=
  ColorBuffer.mk 1 1 ColorBuffer.D64 [1; 2; 3; 0]%float.
Definition transparent_row : list number := [9; 9; 9; 0]%float.

(** The buffer holding the single pixel (0.5, 0.25, 0.75, 1.0). *)
Definition one_pixel : ColorBuffer.t :=
  ColorBuffer.mk 1 1 ColorBuffer.D32 [0.5; 0.25; 0.75; 1]%float.

(** [Math.pow] on the exponents 0 and 1, where every engine is exact. *)
Definition pow_0_1 (base exponent : number) : number :=
  if strict_eq exponent 0 then 1%float else base.

(** [Math.pow] on the exponents 0, 1/2 and 1: the language fixes the
    result 1 for exponent 0, and the engines return the base for
    exponent 1 and its correctly rounded square root for exponent 1/2
    (a non-negative base). *)
Definition pow_0_half_1 (base exponent : number) : number :=
  if strict_eq exponent 0 then 1%float
  else if strict_eq exponent 0.5 then PrimFloat.sqrt base
  else base.

(** A dark pixel: red 0.0001, opaque. *)
Definition dark_pixel : ColorBuffer.t :=
  ColorBuffer.mk 1 1 ColorBuffer.D64 [0.0001; 0; 0; 1]%float.

(** [{ algorithm: 'clamp', exposure: 0, gamma, outputDepth: 8 }] *)
Definition clamp_mapper_options (gamma : number) : ToneMapper.ToneMapOptions :=
  ToneMapper.mkOptions (ToneMapper.Named "clamp") (Some 0%float) (Some gamma) (Some 8).

(** An encoder that emits a well-formed signature and header chunk
    followed by the raw samples. *)
Definition raw_encode (c : PNGExporter.encode_call) : result (list Z) :=
  Ok ([0x89; 0x50; 0x4e; 0x47; 0x0d; 0x0a; 0x1a; 0x0a] ++ replicate 25 0
        ++ ToneMapper.elems (PNGExporter.enc_data c)).

Definition plain_toString (_ : number) : string := "0".

(** Thirty-three bytes that start with the four bytes [injectPHYs]
    looks at but not with the PNG signature. *)
Definition half_signed : list Z :=
  [0x89; 0x50; 0x4e; 0x47; 0; 0; 0; 0] ++ replicate 25 0.

(** A minimal well-signed file: signature, a 25-byte header chunk and
    twelve more bytes. *)
Definition signed_file : list Z :=
  PNGExporter.PNG_SIGNATURE ++ replicate 25 7 ++ replicate 12 9.

(** A progress callback that returns, whatever it is told. *)
Definition returning (_ : unit) (_ : number) : result unit := Ok tt.

(** A progress callback that throws when told 100. *)
Definition throwing_at_100 (_ : unit) (percent : number) : result unit :=
  if strict_eq percent 100 then Throw (Error "callback") else Ok tt.

(** [{ toneMap: 'clamp', gamma: 1, dpi: 300, onProgress }], the callback
    being the only value of its type. *)
Definition clamp_options : ExportPipeline.ExportPipelineOptions unit :=
  ExportPipeline.mkPipelineOptions unit
    (ExportPipeline.mkExportOptions (Some "clamp") None (Some 1%float) None)
    300 (Some tt).

(** A 64-bit pixel of alpha 0.1. *)
Definition faint_pixel : ColorBuffer.t :=
  ColorBuffer.mk 1 1 ColorBuffer.D64 [0.1; 0.1; 0.1; 0.1]%float.

(** A 2x2 buffer with 64-bit channels and sixteen distinct values. *)
Definition quad : ColorBuffer.t :=
  ColorBuffer.mk 2 2 ColorBuffer.D64
    [0.1; 0.2; 0.3; 1; 0.4; 0.5; 0.6; 1; 0.7; 0.8; 0.9; 0.5; 1.5; 2.5; 3.5; 0.25]%float.

(** Custom paper of 1 by 2 inches at 1 dpi with 64-bit channels, and
    the canvases the constructor builds for it. *)
Definition inch_options (o : PaperSize.Orientation) : HDCanvas.HDCanvasOptions :=
  HDCanvas.mkOptions (PaperSize.Custom (PaperSize.mkPaper 25.4 50.8))
    (Some 1%float) (Some ColorBuffer.D64) (Some o).

Definition inch_canvas : HDCanvas.t :=
  HDCanvas.mk 1 2 1 ColorBuffer.D64
    (ColorBuffer.mk 1 2 ColorBuffer.D64 (replicate 8 zero))
    (PaperSize.mkPaper 25.4 50.8).

Definition inch_canvas_landscape : HDCanvas.t :=
  HDCanvas.mk 2 1 1 ColorBuffer.D64
    (ColorBuffer.mk 2 1 ColorBuffer.D64 (replicate 8 zero))
    (PaperSize.mkPaper 50.8 25.4).

(** A region wider than one tile. *)
Definition wide_region : Canvas2DBridge.Region :=
  Canvas2DBridge.mkRegion 0 0 5000 3.

(** The bytes read back for a 2x2 tile, and for a 2x1 tile whose
    pixels are fully transparent. *)
Definition tile_bytes : list Z :=
  [255; 0; 0; 255; 0; 255; 0; 255; 0; 0; 255; 255; 255; 255; 255; 128].
Definition transparent_bytes : list Z := [1; 2; 3; 0; 4; 5; 6; 0].

(** The quantized pixel (128, 64, 191, 255) and the options to export
    it as a 1x1 image at 300 dpi. *)
Definition quantized_pixel : ToneMapper.int_array :=
  ToneMapper.mkArray ToneMapper.Uint8 [128; 64; 191; 255].
Definition pixel_export_options : PNGExporter.PNGExportOptions :=
  PNGExporter.mkOptions 1 1 300 (Some 8).

(** A buffer one pixel high and one pixel wider than a tile, and an
    offscreen canvas that hands back opaque white for every tile. *)
Definition long_strip : ColorBuffer.t :=
  ColorBuffer.mk 4097 1 ColorBuffer.D64 (replicate (Z.to_nat 16388) zero).
Definition white_canvas (t : Canvas2DBridge.tile) : option (list Z) :=
  Some (replicate
          (Z.to_nat (Canvas2DBridge.tileW t * Canvas2DBridge.tileH t * 4)) 255).

End Samples.

(* ===================================================================== *)
(** * Properties *)
(* ===================================================================== *)

(** ** binary64 arithmetic *)

Module FloatFacts.
Import JS Binary64.

(** binary64: [fexp] *)
Lemma fexp_spec (e : Z) : fexp prec emax e = Z.max (e - 53) (-1074).
Proof. reflexivity. Qed.

(** *** Number of binary digits *)

Lemma digits2_pos_size (m : positive) : digits2_pos m = Pos.size m.
Proof. induction m as [m IH|m IH|]; cbn; rewrite ?IH; reflexivity. Qed.

Lemma Zdigits2_bounds (m : positive) :
  2 ^ (Zpos (digits2_pos m) - 1) <= Zpos m < 2 ^ Zpos (digits2_pos m).
Proof.
  rewrite digits2_pos_size.
  pose proof (Pos.size_gt m) as Hgt. pose proof (Pos.size_le m) as Hle.
  assert (H1 : Zpos m < 2 ^ Zpos (Pos.size m)).
  { rewrite <- Pos2Z.inj_pow. lia. }
  assert (H2 : 2 ^ Zpos (Pos.size m) <= 2 * Zpos m).
  { rewrite <- Pos2Z.inj_pow. lia. }
  split; [|done].
  replace (Zpos (Pos.size m)) with (Zpos (Pos.size m) - 1 + 1) in H2 by lia.
  rewrite Z.pow_add_r in H2 by lia. lia.
Qed.

(** [d] is the number of digits of a positive [m] iff [2^(d-1) <= m < 2^d]. *)
Lemma Zdigits2_unique (m d : Z) :
  2 ^ (d - 1) <= m < 2 ^ d -> 0 < m -> Zdigits2 m = d.
Proof.
  intros [Hlo Hhi] Hm. destruct m as [|p|p]; try lia. cbn [Zdigits2].
  pose proof (Zdigits2_bounds p) as [Hlo' Hhi'].
  set (d' := Zpos (digits2_pos p)) in *.
  assert (0 < d).
  { destruct (Z.ltb_spec 0 d) as [|Hd]; [done|]. exfalso.
    destruct (Z.eq_dec d 0) as [->|]; [cbn in Hhi; lia|].
    rewrite Z.pow_neg_r in Hhi by lia. lia. }
  destruct (Z.lt_trichotomy d d') as [Hlt | [-> | Hgt]]; [|done|].
  - assert (2 ^ d <= 2 ^ (d' - 1)) by (apply Z.pow_le_mono_r; lia). lia.
  - assert (2 ^ d' <= 2 ^ (d - 1)) by (apply Z.pow_le_mono_r; lia). lia.
Qed.

Lemma Zdigits2_pos_bounds (m : Z) :
  0 < m -> 0 < Zdigits2 m /\ 2 ^ (Zdigits2 m - 1) <= m < 2 ^ Zdigits2 m.
Proof.
  intros Hm. destruct m as [|p|p]; try lia. cbn [Zdigits2].
  split; [lia | apply Zdigits2_bounds].
Qed.

Lemma Zdigits2_div_pow2 (m n : Z) :
  0 < m -> 0 <= n < Zdigits2 m -> Zdigits2 (m / 2 ^ n) = Zdigits2 m - n /\ 0 < m / 2 ^ n.
Proof.
  intros Hm Hn. destruct (Zdigits2_pos_bounds m Hm) as (Hd & Hlo & Hhi).
  set (d := Zdigits2 m) in *.
  assert (Hp : 0 < 2 ^ n) by (apply Z.pow_pos_nonneg; lia).
  assert (Hlo' : 2 ^ (d - n - 1) <= m / 2 ^ n).
  { apply Z.div_le_lower_bound; [done|].
    rewrite <- Z.pow_add_r by lia. replace (n + (d - n - 1)) with (d - 1) by lia. done. }
  assert (Hhi' : m / 2 ^ n < 2 ^ (d - n)).
  { apply Z.div_lt_upper_bound; [done|].
    rewrite <- Z.pow_add_r by lia. replace (n + (d - n)) with d by lia. done. }
  assert (0 < 2 ^ (d - n - 1)) by (apply Z.pow_pos_nonneg; lia).
  split; [|lia].
  apply Zdigits2_unique; [split|]; try done; lia.
Qed.

Lemma Zdigits2_mul_pow2 (m n : Z) :
  0 < m -> 0 <= n -> Zdigits2 (m * 2 ^ n) = Zdigits2 m + n.
Proof.
  intros Hm Hn. destruct (Zdigits2_pos_bounds m Hm) as (Hd & Hlo & Hhi).
  set (d := Zdigits2 m) in *.
  assert (Hp : 0 < 2 ^ n) by (apply Z.pow_pos_nonneg; lia).
  apply Zdigits2_unique; [split|]; [| |nia].
  - replace (d + n - 1) with (d - 1 + n) by lia. rewrite Z.pow_add_r by lia. nia.
  - rewrite Z.pow_add_r by lia. nia.
Qed.

Lemma Zdigits2_succ (m : Z) :
  0 < m ->
  (Zdigits2 (m + 1) = Zdigits2 m /\ m + 1 < 2 ^ Zdigits2 m) \/
  (Zdigits2 (m + 1) = Zdigits2 m + 1 /\ m + 1 = 2 ^ Zdigits2 m).
Proof.
  intros Hm. destruct (Zdigits2_pos_bounds m Hm) as (Hd & Hlo & Hhi).
  set (d := Zdigits2 m) in *.
  destruct (Z.eq_dec (m + 1) (2 ^ d)) as [Heq|Hne].
  - right. split; [|done]. apply Zdigits2_unique; [|lia].
    replace (d + 1 - 1) with d by lia. rewrite Z.pow_add_r by lia. lia.
  - left. split; [|lia]. apply Zdigits2_unique; [|lia]. lia.
Qed.


(** *** Right shifts with sticky bits *)

Lemma iter_pos_nat {A} (f : A -> A) (n : positive) (x : A) :
  SpecFloat.iter_pos f n x = Nat.iter (Pos.to_nat n) f x.
Proof.
  revert x. induction n as [n IH|n IH|]; intros x; cbn [SpecFloat.iter_pos].
  - rewrite !IH, Pos2Nat.inj_xI.
    replace (S (2 * Pos.to_nat n)) with (S (Pos.to_nat n + Pos.to_nat n)) by lia.
    rewrite Nat.iter_succ_r, Nat.iter_add. done.
  - rewrite !IH, Pos2Nat.inj_xO.
    replace (2 * Pos.to_nat n)%nat with (Pos.to_nat n + Pos.to_nat n)%nat by lia.
    rewrite Nat.iter_add. done.
  - done.
Qed.


Lemma shr_1_spec (mrs : shr_record) :
  0 <= shr_m mrs ->
  shr_m (shr_1 mrs) = shr_m mrs / 2 /\
  (exact (shr_1 mrs) <-> exact mrs /\ shr_m mrs mod 2 = 0).
Proof.
  unfold exact. destruct mrs as [m r s]. cbn [shr_m]. intros Hm.
  destruct m as [|[p|p|]|]; try lia; destruct r, s;
    cbn [shr_1 shr_m loc_of_shr_record orb];
    (split; [Z.div_mod_to_equations; lia|]);
    (split;
     [ intros H; first [discriminate H | split; [done|]; Z.div_mod_to_equations; lia]
     | intros [H1 H2];
       first [discriminate H1 | reflexivity
             | exfalso; revert H2; Z.div_mod_to_equations; lia] ]).
Qed.


Lemma mod_pow2_succ (m : Z) (n : nat) :
  0 <= m ->
  (m mod 2 ^ Z.of_nat (S n) = 0 <-> m mod 2 ^ Z.of_nat n = 0 /\ (m / 2 ^ Z.of_nat n) mod 2 = 0).
Proof.
  intros Hm. rewrite Nat2Z.inj_succ, Z.pow_succ_r by lia.
  assert (Hp : 0 < 2 ^ Z.of_nat n) by (apply Z.pow_pos_nonneg; lia).
  rewrite (Z.mul_comm 2), Z.rem_mul_r by lia.
  pose proof (Z.mod_pos_bound m (2 ^ Z.of_nat n) Hp).
  pose proof (Z.mod_pos_bound (m / 2 ^ Z.of_nat n) 2 ltac:(lia)).
  nia.
Qed.

Lemma shr_iter_spec (n : nat) (mrs : shr_record) :
  0 <= shr_m mrs ->
  shr_m (Nat.iter n shr_1 mrs) = shr_m mrs / 2 ^ Z.of_nat n /\
  (exact (Nat.iter n shr_1 mrs) <-> exact mrs /\ shr_m mrs mod 2 ^ Z.of_nat n = 0).
Proof.
  intros Hm. induction n as [|n [IHm IHe]].
  - cbn [Nat.iter]. change (2 ^ Z.of_nat 0) with 1.
    rewrite Z.div_1_r, Z.mod_1_r. tauto.
  - rewrite Nat.iter_succ.
    assert (Hp : 0 < 2 ^ Z.of_nat n) by (apply Z.pow_pos_nonneg; lia).
    assert (Hn : 0 <= shr_m (Nat.iter n shr_1 mrs))
      by (rewrite IHm; apply Z.div_pos; lia).
    destruct (shr_1_spec _ Hn) as [Hm1 He1].
    split.
    + rewrite Hm1, IHm, Z.div_div, Nat2Z.inj_succ, Z.pow_succ_r by lia.
      f_equal. lia.
    + rewrite He1, IHe, IHm, mod_pow2_succ by done. tauto.
Qed.

(** [shr mrs e n] divides the mantissa by [2^max(0,n)]. *)
Lemma shr_spec (mrs : shr_record) (e n : Z) :
  0 <= shr_m mrs ->
  let k := Z.max 0 n in
  snd (shr mrs e n) = e + k /\
  shr_m (fst (shr mrs e n)) = shr_m mrs / 2 ^ k /\
  (exact (fst (shr mrs e n)) <-> exact mrs /\ shr_m mrs mod 2 ^ k = 0).
Proof.
  intros Hm k. unfold shr. destruct n as [|p|p]; cbn [fst snd].
  - subst k. cbn [Z.max Z.compare]. change (2 ^ 0) with 1.
    rewrite Z.div_1_r, Z.mod_1_r, Z.add_0_r. tauto.
  - subst k. replace (Z.max 0 (Zpos p)) with (Zpos p) by lia.
    rewrite iter_pos_nat.
    destruct (shr_iter_spec (Pos.to_nat p) mrs Hm) as [H1 H2].
    rewrite positive_nat_Z in *. done.
  - subst k. replace (Z.max 0 (Zneg p)) with 0 by lia. change (2 ^ 0) with 1.
    rewrite Z.div_1_r, Z.mod_1_r, Z.add_0_r. tauto.
Qed.

Lemma shr_record_of_loc_m (m : Z) (l : location) : shr_m (shr_record_of_loc m l) = m.
Proof. by destruct l as [|[]]. Qed.

Lemma shr_record_of_loc_exact (m : Z) (l : location) :
  exact (shr_record_of_loc m l) <-> l = loc_Exact.
Proof. unfold exact. by destruct l as [|[]]. Qed.

Lemma shr_fexp_spec (m e : Z) (l : location) :
  0 <= m ->
  let k := Z.max 0 (fexp prec emax (Zdigits2 m + e) - e) in
  snd (shr_fexp prec emax m e l) = e + k /\
  shr_m (fst (shr_fexp prec emax m e l)) = m / 2 ^ k /\
  (exact (fst (shr_fexp prec emax m e l)) <-> l = loc_Exact /\ m mod 2 ^ k = 0).
Proof.
  intros Hm k. unfold shr_fexp.
  pose proof (shr_spec (shr_record_of_loc m l) e
                (fexp prec emax (Zdigits2 m + e) - e)) as H.
  cbv zeta in H.
  rewrite shr_record_of_loc_m, shr_record_of_loc_exact in H. by apply H.
Qed.

Lemma round_nearest_even_spec (m : Z) (mrs : shr_record) :
  shr_m mrs = m ->
  let m1 := round_nearest_even m (loc_of_shr_record mrs) in
  (m1 = m \/ (m1 = m + 1 /\ ~ exact mrs)) .
Proof.
  intros _. unfold exact, round_nearest_even.
  destruct (loc_of_shr_record mrs) as [|[]]; cbn; try (by left); try (right; split; [done|discriminate]).
  destruct (Z.even m); [by left | right; split; [done|discriminate]].
Qed.


(** *** Rounding *)


Lemma div_pow2_zero (m n d : Z) :
  0 < m -> m < 2 ^ d -> d <= n -> m / 2 ^ n = 0.
Proof.
  intros Hm Hd Hn. apply Z.div_small. split; [lia|].
  apply Z.lt_le_trans with (2 ^ d); [done|].
  apply Z.pow_le_mono_r; lia.
Qed.

(** The mantissa is rounded to within one unit of the exponent the
    result gets, exactly when nothing is shifted out. *)
Lemma binary_round_aux_spec (s : bool) (mx ex : Z) (lx : location) :
  0 <= mx ->
  let n1 := Z.max 0 (fexp prec emax (Zdigits2 mx + ex) - ex) in
  exists k m,
    (k = n1 \/ (k = n1 + 1 /\ 0 < m)) /\
    mx / 2 ^ k <= m <= mx / 2 ^ k + 1 /\
    (lx = loc_Exact -> mx mod 2 ^ n1 = 0 -> k = n1 /\ m = mx / 2 ^ n1) /\
    (m = mx / 2 ^ k + 1 -> ~ (lx = loc_Exact /\ mx mod 2 ^ k = 0)) /\
    binary_round_aux prec emax s mx ex lx = round_result s m (ex + k).
Proof.
  intros Hmx n1. unfold binary_round_aux.
  destruct (shr_fexp_spec mx ex lx Hmx) as (He' & Hm' & Hex'). fold n1 in He', Hm', Hex'.
  destruct (shr_fexp prec emax mx ex lx) as [mrs' e']. cbn [fst snd] in He', Hm', Hex'.
  set (m' := shr_m mrs') in *.
  assert (Hn1 : 0 <= n1) by (subst n1; lia).
  assert (Hp1 : 0 < 2 ^ n1) by (apply Z.pow_pos_nonneg; lia).
  assert (Hm'0 : 0 <= m') by (rewrite Hm'; apply Z.div_pos; lia).
  assert (E0 : -1074 <= e').
  { subst e' n1. rewrite fexp_spec. lia. }
  assert (F1 : fexp prec emax (Zdigits2 m' + e') <= e').
  { destruct (Z.eq_dec m' 0) as [->|Hne].
    - cbn [Zdigits2]. rewrite fexp_spec. lia.
    - assert (Hmx0 : 0 < mx).
      { destruct (Z.eq_dec mx 0) as [->|]; [|lia]. rewrite Z.div_0_l in Hm' by lia. lia. }
      destruct (Zdigits2_pos_bounds mx Hmx0) as (Hd & Hlo & Hhi).
      assert (Hlt : n1 < Zdigits2 mx).
      { destruct (Z.lt_ge_cases n1 (Zdigits2 mx)) as [|Hge]; [done|].
        rewrite (div_pow2_zero mx n1 (Zdigits2 mx)) in Hm' by lia. lia. }
      destruct (Zdigits2_div_pow2 mx n1 Hmx0 ltac:(lia)) as [Hdig _].
      rewrite <- Hm' in Hdig. rewrite Hdig.
      replace (Zdigits2 mx - n1 + e') with (Zdigits2 mx + ex) by lia.
      subst n1. lia. }
  pose proof (round_nearest_even_spec m' mrs' eq_refl) as Hrne. cbv zeta in Hrne.
  set (m1 := round_nearest_even m' (loc_of_shr_record mrs')) in *.
  assert (Hm1 : 0 <= m1) by (destruct Hrne as [->|[-> _]]; lia).
  destruct (shr_fexp_spec m1 e' loc_Exact Hm1) as (He'' & Hm'' & _).
  destruct (shr_fexp prec emax m1 e' loc_Exact) as [mrs'' e''].
  cbn [fst snd] in He'', Hm''.
  set (n2 := Z.max 0 (fexp prec emax (Zdigits2 m1 + e') - e')) in *.
  assert (Hres : forall k m, k = n1 + n2 -> m = m1 / 2 ^ n2 ->
            match shr_m mrs'' with
            | 0 => S754_zero s
            | Z.pos m0 => if e'' <=? emax - prec then S754_finite s m0 e'' else S754_infinity s
            | Z.neg _ => S754_nan
            end = round_result s m (ex + k)).
  { intros k m -> ->. unfold round_result. rewrite Hm'', He'', He'.
    by replace (ex + (n1 + n2)) with (ex + n1 + n2) by lia. }
  assert (Hdiv2 : forall j, 0 <= j -> mx / 2 ^ (n1 + j) = m' / 2 ^ j).
  { intros j Hj. rewrite Z.pow_add_r, <- Z.div_div, <- Hm' by (try apply Z.pow_pos_nonneg; lia).
    done. }
  assert (Hmod2 : forall j, 0 <= j -> mx mod 2 ^ (n1 + j) = 0 -> mx mod 2 ^ n1 = 0).
  { intros j Hj H. rewrite Z.pow_add_r in H by lia.
    assert (Hpj : 0 < 2 ^ j) by (apply Z.pow_pos_nonneg; lia).
    rewrite Z.rem_mul_r in H by lia.
    pose proof (Z.mod_pos_bound mx (2 ^ n1) Hp1).
    pose proof (Z.mod_pos_bound (mx / 2 ^ n1) (2 ^ j) Hpj). nia. }
  (* the unshifted outcome: the second shift does nothing *)
  assert (Hkeep : n2 = 0 -> exists k m,
    (k = n1 \/ (k = n1 + 1 /\ 0 < m)) /\
    mx / 2 ^ k <= m <= mx / 2 ^ k + 1 /\
    (lx = loc_Exact -> mx mod 2 ^ n1 = 0 -> k = n1 /\ m = mx / 2 ^ n1) /\
    (m = mx / 2 ^ k + 1 -> ~ (lx = loc_Exact /\ mx mod 2 ^ k = 0)) /\
    match shr_m mrs'' with
    | 0 => S754_zero s
    | Z.pos m0 => if e'' <=? emax - prec then S754_finite s m0 e'' else S754_infinity s
    | Z.neg _ => S754_nan
    end = round_result s m (ex + k)).
  { intros Hn2. exists n1, m1.
    split; [by left|].
    split; [rewrite <- Hm'; destruct Hrne as [->|[-> _]]; lia|].
    split; [|split].
    - intros Hl Hmod. split; [done|]. rewrite <- Hm'.
      destruct Hrne as [->|[_ Hne]]; [done|]. exfalso. apply Hne, Hex'. done.
    - rewrite <- Hm'. intros Hup Hexact.
      destruct Hrne as [Heq|[_ Hne]]; [lia|]. apply Hne, Hex'. done.
    - apply Hres; [lia|]. rewrite Hn2. change (2 ^ 0) with 1. by rewrite Z.div_1_r. }
  destruct Hrne as [Heq | [Hup Hinexact]].
  - (* not rounded up *)
    apply Hkeep. subst n2. rewrite Heq. lia.
  - destruct (Z.eq_dec m' 0) as [Hz|Hnz].
    + apply Hkeep. subst n2. rewrite Hup, Hz. change (Zdigits2 (0 + 1)) with 1.
      rewrite fexp_spec. lia.
    + destruct (Zdigits2_succ m' ltac:(lia)) as [[Hdig _] | [Hdig Hpow]].
      * apply Hkeep. subst n2. rewrite Hup, Hdig. lia.
      * destruct (Zdigits2_pos_bounds m' ltac:(lia)) as (Hd' & _ & _).
        assert (Hn2 : n2 = 0 \/ n2 = 1).
        { subst n2. rewrite Hup, Hdig. rewrite fexp_spec in *. lia. }
        destruct Hn2 as [Hn2|Hn2]; [by apply Hkeep|].
        assert (Hhalf : m1 / 2 ^ 1 = 2 ^ (Zdigits2 m' - 1)).
        { rewrite Hup, Hpow. change (2 ^ 1) with 2.
          replace (Zdigits2 m') with (Zdigits2 m' - 1 + 1) at 1 by lia.
          rewrite Z.pow_add_r by lia. change (2 ^ 1) with 2.
          by rewrite Z.div_mul by lia. }
        assert (Hfloor : m' / 2 ^ 1 = 2 ^ (Zdigits2 m' - 1) - 1).
        { change (2 ^ 1) with 2.
          assert (Hm'eq : m' = 2 * (2 ^ (Zdigits2 m' - 1) - 1) + 1).
          { replace (Zdigits2 m') with (Zdigits2 m' - 1 + 1) in Hpow at 1 by lia.
            rewrite Z.pow_add_r in Hpow by lia. change (2 ^ 1) with 2 in Hpow. lia. }
          rewrite Hm'eq at 1. rewrite Z.mul_comm, Z.div_add_l by lia.
          change (1 / 2) with 0. lia. }
        assert (Hpos : 0 < 2 ^ (Zdigits2 m' - 1)) by (apply Z.pow_pos_nonneg; lia).
        exists (n1 + 1), (2 ^ (Zdigits2 m' - 1)).
        split; [right; split; [done|lia]|].
        split; [rewrite Hdiv2, Hfloor by lia; lia|].
        split; [|split].
        -- intros Hl Hmod. exfalso. apply Hinexact, Hex'. done.
        -- intros _ [Hl Hmod]. apply Hinexact, Hex'. split; [done|].
           apply (Hmod2 1); [lia | done].
        -- apply Hres; [lia|]. by rewrite Hn2, Hhalf.
Qed.


(** Nothing is lost when the bits shifted out are all zero. *)
Lemma binary_round_aux_exact (s : bool) (mx ex n : Z) :
  0 < mx -> n = Z.max 0 (fexp prec emax (Zdigits2 mx + ex) - ex) ->
  mx mod 2 ^ n = 0 ->
  binary_round_aux prec emax s mx ex loc_Exact = round_result s (mx / 2 ^ n) (ex + n).
Proof.
  intros Hmx -> Hmod.
  destruct (binary_round_aux_spec s mx ex loc_Exact ltac:(lia))
    as (k & m & _ & _ & Hexact & _ & ->).
  by destruct (Hexact eq_refl Hmod) as [-> ->].
Qed.


Lemma round_result_signed (s : bool) (m e : Z) : 0 <= m -> signed s (round_result s m e).
Proof.
  intros Hm. unfold round_result. destruct m; [constructor | | lia].
  destruct (e <=? emax - prec); constructor.
Qed.

Lemma binary_round_aux_signed (s : bool) (mx ex : Z) (lx : location) :
  0 <= mx -> signed s (binary_round_aux prec emax s mx ex lx).
Proof.
  intros Hmx.
  destruct (binary_round_aux_spec s mx ex lx Hmx) as (k & m & Hk & [Hlo _] & _ & _ & ->).
  apply round_result_signed.
  assert (0 <= mx / 2 ^ k); [|lia].
  apply Z.div_pos; [done|]. apply Z.pow_pos_nonneg; [lia|].
  destruct Hk as [-> | [-> _]]; lia.
Qed.

(** *** Valid binary64 numbers *)

Lemma valid_finite (s : bool) (m : positive) (e : Z) :
  valid_binary (S754_finite s m e) = true ->
  fexp prec emax (Zpos (digits2_pos m) + e) = e /\ e <= 971.
Proof.
  cbn [SpecFloat.valid_binary]. unfold bounded, canonical_mantissa.
  rewrite andb_true_iff, Z.eqb_eq, Z.leb_le. done.
Qed.

Lemma valid_finite_bounds (s : bool) (m : positive) (e : Z) :
  valid_binary (S754_finite s m e) = true ->
  -1074 <= e <= 971 /\ Zpos (digits2_pos m) <= 53 /\
  (-1074 < e -> Zpos (digits2_pos m) = 53).
Proof.
  intros H. destruct (valid_finite s m e H) as [Hc He].
  rewrite fexp_spec in Hc. lia.
Qed.


Lemma Prim2SF_one : Prim2SF 1 = SF_one.
Proof. reflexivity. Qed.

Lemma mul_1_r (x : float) : (x * 1)%float = x.
Proof.
  apply Prim2SF_inj. rewrite mul_spec, Prim2SF_one.
  pose proof (Prim2SF_valid x) as Hv.
  destruct (Prim2SF x) as [s|s| |s m e]; cbn [SF64mul SFmul SF_one];
    rewrite ?xorb_false_r; try done.
  destruct (valid_finite s m e Hv) as [Hc He].
  rewrite Pos2Z.inj_mul. change (Zpos 4503599627370496) with (2 ^ 52).
  rewrite (binary_round_aux_exact s _ _ 52).
  - rewrite Z.div_mul by lia. unfold round_result.
    replace (e + -52 + 52) with e by lia.
    destruct (Z.leb_spec e (emax - prec)); [done|]. change (emax - prec) with 971 in *. lia.
  - lia.
  - rewrite Zdigits2_mul_pow2 by lia. cbn [Zdigits2].
    replace (Zpos (digits2_pos m) + 52 + (e + -52)) with (Zpos (digits2_pos m) + e) by lia.
    rewrite Hc. lia.
  - apply Z.mod_mul. lia.
Qed.

Lemma new_location_exact (nb k : Z) : new_location nb k = loc_Exact <-> k = 0.
Proof.
  unfold new_location, new_location_even, new_location_odd.
  destruct (Z.even nb), (Z.eqb_spec k 0); split; intros H; first [done | discriminate H].
Qed.

(** The integer quotient computed for a division of mantissas. *)
Lemma SFdiv_core_binary_spec (m1 e1 m2 e2 : Z) :
  0 < m1 -> 0 < m2 ->
  let e' := Z.min (fexp prec emax (Zdigits2 m1 + e1 - (Zdigits2 m2 + e2))) (e1 - e2) in
  let n := m1 * 2 ^ (e1 - e2 - e') in
  exists l,
    SFdiv_core_binary prec emax m1 e1 m2 e2 = (n / m2, e', l) /\
    (l = loc_Exact <-> n mod m2 = 0).
Proof.
  intros H1 H2 e' n. unfold SFdiv_core_binary.
  fold e'. assert (He : 0 <= e1 - e2 - e') by (unfold e'; lia).
  assert (Hn : match e1 - e2 - e' with
               | 0 => m1 | Zpos _ => Z.shiftl m1 (e1 - e2 - e') | Zneg _ => 0 end = n).
  { unfold n. destruct (e1 - e2 - e') eqn:Hs; [rewrite Z.mul_1_r; done | | lia].
    by rewrite Z.shiftl_mul_pow2. }
  rewrite Hn. unfold Z.modulo, Z.div.
  destruct (Z.div_eucl n m2) as [q r]. eexists. split; [done|].
  apply new_location_exact.
Qed.

Lemma div_1_r (x : float) : (x / 1)%float = x.
Proof.
  apply Prim2SF_inj. rewrite div_spec, Prim2SF_one.
  pose proof (Prim2SF_valid x) as Hv.
  destruct (Prim2SF x) as [s|s| |s m e]; cbn [SF64div SFdiv SF_one];
    rewrite ?xorb_false_r; try done.
  destruct (valid_finite_bounds s m e Hv) as (He & Hd & Hn).
  destruct (SFdiv_core_binary_spec (Zpos m) e 4503599627370496 (-52))
    as (l & -> & Hl); [done..|].
  change (Zdigits2 4503599627370496) with 53 in *. cbn [Zdigits2] in *.
  rewrite fexp_spec in *.
  set (e' := Z.min _ _) in *.
  assert (Hmod : (Zpos m * 2 ^ (e - -52 - e')) mod 4503599627370496 = 0).
  { replace (e - -52 - e') with ((e - e') + 52) by lia.
    rewrite Z.pow_add_r by lia. change (2 ^ 52) with 4503599627370496.
    rewrite Z.mul_assoc. apply Z.mod_mul. lia. }
  apply Hl in Hmod as ->.
  assert (Hq : Zpos m * 2 ^ (e - -52 - e') / 4503599627370496 = Zpos m * 2 ^ (e - e')).
  { replace (e - -52 - e') with ((e - e') + 52) by lia.
    rewrite Z.pow_add_r by lia. change (2 ^ 52) with 4503599627370496.
    rewrite Z.mul_assoc. apply Z.div_mul. lia. }
  rewrite Hq.
  rewrite (binary_round_aux_exact s _ _ (e - e')).
  - rewrite Z.div_mul by lia. unfold round_result.
    replace (e' + (e - e')) with e by lia.
    destruct (Z.leb_spec e (emax - prec)); [done|]. change (emax - prec) with 971 in *. lia.
  - lia.
  - rewrite Zdigits2_mul_pow2 by lia. cbn [Zdigits2]. rewrite fexp_spec. lia.
  - apply Z.mod_mul. lia.
Qed.


Lemma eqb_zero_spec (x : float) :
  (x =? 0)%float = true <-> exists s, Prim2SF x = S754_zero s.
Proof.
  rewrite FloatAxioms.eqb_spec. change (Prim2SF 0) with (S754_zero false).
  destruct (Prim2SF x) as [s|s| |s m e]; cbn; split;
    first [by eauto | by intros [? ?] | by destruct s].
Qed.

Lemma eqb_zero_false (x : float) :
  (x =? 0)%float = false <-> forall s, Prim2SF x <> S754_zero s.
Proof.
  rewrite <- not_true_iff_false, eqb_zero_spec. split.
  - intros H s Hs. eauto.
  - intros H [s Hs]. by apply (H s).
Qed.

(** Adding a zero to a number that is not a zero returns that number. *)
Lemma add_zero_l (z y : float) :
  (z =? 0)%float = true -> (y =? 0)%float = false -> (z + y)%float = y.
Proof.
  intros [sz Hz]%eqb_zero_spec Hy. rewrite eqb_zero_false in Hy.
  apply Prim2SF_inj. rewrite add_spec, Hz.
  destruct (Prim2SF y) as [s|s| |s m e]; try done.
  by destruct (Hy s).
Qed.

(** The sum of two zeros is a zero. *)
Lemma add_zero_zero (z y : float) :
  (z =? 0)%float = true -> (y =? 0)%float = true -> (z + y =? 0)%float = true.
Proof.
  intros [sz Hz]%eqb_zero_spec [sy Hy]%eqb_zero_spec.
  apply eqb_zero_spec. rewrite add_spec, Hz, Hy.
  destruct sz, sy; cbn; eauto.
Qed.

Lemma add_0_l_zero (y : float) : (y =? 0)%float = true -> (0 + y)%float = 0%float.
Proof.
  intros [sy Hy]%eqb_zero_spec.
  apply Prim2SF_inj. rewrite add_spec, Hy. change (Prim2SF 0) with (S754_zero false). by destruct sy.
Qed.

(** A finite number times zero is a zero. *)
Lemma mul_0_r (x : float) :
  Number_isFinite x = true -> (x * 0 =? 0)%float = true.
Proof.
  unfold Number_isFinite. intros Hx.
  apply eqb_zero_spec. rewrite mul_spec. change (Prim2SF 0) with (S754_zero false).
  destruct (Prim2SF x) as [s|s| |s m e]; try done; cbn; eauto.
Qed.

(** *** Alignment and normalisation *)

Lemma iter_xO (m d : positive) : Zpos (Pos.iter xO m d) = Zpos m * 2 ^ Zpos d.
Proof.
  induction d as [|d IH] using Pos.peano_ind.
  - cbn [Pos.iter]. lia.
  - rewrite Pos.iter_succ, Pos2Z.inj_xO, IH, Pos2Z.inj_succ, Z.pow_succ_r by lia. lia.
Qed.

Lemma shl_align_le (mx : positive) (ex ez : Z) :
  ez <= ex ->
  Zpos (fst (shl_align mx ex ez)) = Zpos mx * 2 ^ (ex - ez) /\
  snd (shl_align mx ex ez) = ez.
Proof.
  intros H. unfold shl_align.
  destruct (ez - ex) as [|d|d] eqn:Hd; [| lia |].
  - replace (ex - ez) with 0 by lia. cbn [fst snd]. lia.
  - cbn [fst snd]. rewrite iter_xO. replace (ex - ez) with (Zpos d) by lia. done.
Qed.

Lemma shl_align_ge (mx : positive) (ex ez : Z) :
  ex <= ez -> shl_align mx ex ez = (mx, ex).
Proof.
  intros H. unfold shl_align. destruct (ez - ex) eqn:Hd; [done | done | lia].
Qed.

(** Rounding a positive integer multiple of a power of two that is not
    below the least exponent gives a positive number. *)
Lemma binary_round_pos (m : positive) (e : Z) :
  -1074 <= e ->
  exists m' e', 0 < m' /\ binary_round prec emax false m e = round_result false m' e'.
Proof.
  intros He. unfold binary_round.
  set (E := fexp prec emax (Zpos (digits2_pos m) + e)).
  destruct (Z.le_gt_cases E e) as [Hle | Hgt].
  - destruct (shl_align_le m e E Hle) as [Hm Hs].
    destruct (shl_align m e E) as [mz ez]. cbn [fst snd] in Hm, Hs. subst ez.
    exists (Zpos mz), E. split; [done|].
    rewrite (binary_round_aux_exact false _ _ 0); [by rewrite Z.div_1_r, Z.add_0_r | done | | apply Z.mod_1_r].
    rewrite Hm, Zdigits2_mul_pow2 by lia. cbn [Zdigits2].
    replace (Zpos (digits2_pos m) + (e - E) + E) with (Zpos (digits2_pos m) + e) by lia.
    fold E. lia.
  - rewrite shl_align_ge by lia.
    destruct (binary_round_aux_spec false (Zpos m) e loc_Exact ltac:(done))
      as (k & m' & Hk & [Hlo Hhi] & _ & _ & ->).
    exists m', (e + k). split; [|done].
    destruct Hk as [-> | [_ ?]]; [|done].
    cbn [Zdigits2] in *. fold E in Hlo |- *.
    assert (0 < Zpos m / 2 ^ Z.max 0 (E - e)); [|lia].
    unfold E in *. rewrite fexp_spec in *.
    apply Zdigits2_div_pow2; [done|]. cbn [Zdigits2]. lia.
Qed.

(** *** Signs of results *)

Lemma signed_nonneg (x : spec_float) : signed false x -> SFnonneg x = true.
Proof. by intros []. Qed.

Lemma round_result_pos (m e : Z) : 0 < m -> SFpos (round_result false m e) = true.
Proof.
  intros Hm. unfold round_result. destruct m; [lia | | lia].
  by destruct (e <=? emax - prec).
Qed.

Lemma mul_pos (a b : float) :
  SFpos (Prim2SF a) = true -> SFpos (Prim2SF b) = true ->
  SFnonneg (Prim2SF (a * b)) = true.
Proof.
  rewrite mul_spec.
  destruct (Prim2SF a) as [[]|[]| |[] ma ea]; try done;
    destruct (Prim2SF b) as [[]|[]| |[] mb eb]; try done.
  intros _ _. apply signed_nonneg. by apply binary_round_aux_signed.
Qed.

Lemma add_pos (a b : float) :
  SFnonneg (Prim2SF a) = true -> SFpos (Prim2SF b) = true ->
  SFpos (Prim2SF (a + b)) = true.
Proof.
  rewrite add_spec.
  pose proof (Prim2SF_valid a) as Ha. pose proof (Prim2SF_valid b) as Hb.
  destruct (Prim2SF a) as [[]|[]| |[] ma ea]; try done;
    destruct (Prim2SF b) as [[]|[]| |[] mb eb]; try done.
  intros _ _.
  apply valid_finite_bounds in Ha as [Hea _], Hb as [Heb _].
  cbn [SF64add SFadd cond_Zopp]. rewrite <- Pos2Z.inj_add. cbn [binary_normalize].
  destruct (binary_round_pos
              (fst (shl_align ma ea (Z.min ea eb)) + fst (shl_align mb eb (Z.min ea eb)))
              (Z.min ea eb)) as (m' & e' & Hm' & ->); [lia|].
  by apply round_result_pos.
Qed.

Lemma div_nonneg (a b : float) :
  SFnonneg (Prim2SF a) = true -> SFpos (Prim2SF b) = true ->
  SFnonneg (Prim2SF (a / b)) = true \/ (a = infinity /\ b = infinity).
Proof.
  rewrite div_spec. intros Ha Hb.
  destruct (Prim2SF a) as [[]|[]| |[] ma ea] eqn:Ea; try done;
    destruct (Prim2SF b) as [[]|[]| |[] mb eb] eqn:Eb; try done;
    try (by left).
  - right. by split; apply Prim2SF_inj.
  - left. cbn [SF64div SFdiv xorb].
    destruct (SFdiv_core_binary_spec (Zpos ma) ea (Zpos mb) eb)
      as (l & -> & _); [done..|].
    apply signed_nonneg, binary_round_aux_signed.
    apply Z.div_pos; [|done]. apply Z.mul_nonneg_nonneg; [done|].
    apply Z.pow_nonneg. done.
Qed.

(** *** Comparisons *)

Lemma SFcompare_antisym (x y : spec_float) :
  SFcompare y x = option_map CompOpp (SFcompare x y).
Proof.
  destruct x as [[]|[]| |[] mx ex], y as [[]|[]| |[] my ey]; try done;
    cbn [SFcompare option_map]; f_equal;
    rewrite (Z.compare_antisym ex ey);
    destruct (ex ?= ey); cbn [CompOpp]; try done;
    rewrite ?CompOpp_involutive, ?(Pos.compare_cont_antisym my mx Eq),
      ?(Pos.compare_cont_antisym mx my Eq); done.
Qed.

Lemma leb_0_nonneg (x : float) : (0 <=? x)%float = SFnonneg (Prim2SF x).
Proof.
  rewrite leb_spec. change (Prim2SF 0) with (S754_zero false).
  by destruct (Prim2SF x) as [[]|[]| |[] m e].
Qed.

Lemma ltb_0_nonneg (x : float) :
  SFnonneg (Prim2SF x) = true -> (x <? 0)%float = false.
Proof.
  rewrite ltb_spec. change (Prim2SF 0) with (S754_zero false).
  by destruct (Prim2SF x) as [[]|[]| |[] m e].
Qed.

(** Of two numbers, neither NaN, one is at most the other. *)
Lemma leb_total (x y : float) :
  SFnonneg (Prim2SF x) = true -> SFnonneg (Prim2SF y) = true ->
  (y <? x)%float = false -> (x <=? y)%float = true.
Proof.
  rewrite ltb_spec, leb_spec. unfold SFltb, SFleb.
  rewrite (SFcompare_antisym (Prim2SF x) (Prim2SF y)).
  destruct (Prim2SF x) as [[]|[]| |[] mx ex], (Prim2SF y) as [[]|[]| |[] my ey];
    try done; intros _ _; cbn [SFcompare option_map];
    by destruct (ex ?= ey), (Pos.compare_cont Eq mx my).
Qed.

(** *** Order of finite numbers *)

Lemma Zdigits2_le_of_lt (m d : Z) : 0 < m -> 0 <= d -> m < 2 ^ d -> Zdigits2 m <= d.
Proof.
  intros Hm Hd Hlt. destruct (Zdigits2_pos_bounds m Hm) as (Hpos & Hlo & Hhi).
  assert (Zdigits2 m - 1 < d); [|lia].
  apply (Z.pow_lt_mono_r_iff 2); lia.
Qed.

Lemma Zdigits2_gt_of_le (m d : Z) : 0 <= d -> 2 ^ d <= m -> d < Zdigits2 m.
Proof.
  intros Hd Hle.
  assert (Hm : 0 < m) by (pose proof (Z.pow_pos_nonneg 2 d); lia).
  destruct (Zdigits2_pos_bounds m Hm) as (Hpos & Hlo & Hhi).
  apply (Z.pow_lt_mono_r_iff 2); lia.
Qed.

(** Among valid numbers the one of larger exponent is larger. *)
Lemma ival_lt_exponent (mv : positive) (ev : Z) (mw : positive) (ew : Z) :
  valid_binary (S754_finite false mv ev) = true ->
  valid_binary (S754_finite false mw ew) = true ->
  ev < ew -> ival mv ev < ival mw ew.
Proof.
  intros Hv Hw Hlt. unfold ival.
  destruct (valid_finite_bounds _ _ _ Hv) as (Hev & Hdv & _).
  destruct (valid_finite_bounds _ _ _ Hw) as (Hew & _ & Hdw).
  pose proof (Zdigits2_bounds mv) as [_ Hmv].
  pose proof (Zdigits2_bounds mw) as [Hmw _].
  rewrite Hdw in Hmw by lia. change (2 ^ (53 - 1)) with 4503599627370496 in Hmw.
  assert (H1 : Zpos mv < 9007199254740992).
  { apply Z.lt_le_trans with (1 := Hmv). change 9007199254740992 with (2 ^ 53).
    apply Z.pow_le_mono_r; lia. }
  assert (Hp : 0 < 2 ^ (ev + 1074)) by (apply Z.pow_pos_nonneg; lia).
  assert (H3 : 2 * 2 ^ (ev + 1074) <= 2 ^ (ew + 1074)).
  { rewrite <- Z.pow_succ_r by lia. apply Z.pow_le_mono_r; lia. }
  nia.
Qed.

(** [1 + v] is not below [v]. *)
Lemma SFadd_one_ge (mv : positive) (ev : Z) (mw : positive) (ew : Z) :
  valid_binary (S754_finite false mv ev) = true ->
  valid_binary (S754_finite false mw ew) = true ->
  SFadd prec emax SF_one (S754_finite false mv ev) = S754_finite false mw ew ->
  ival mv ev <= ival mw ew.
Proof.
  intros Hv Hw Hadd.
  destruct (Z.lt_ge_cases ev ew) as [Hlt | Hge].
  { apply Z.lt_le_incl. by apply ival_lt_exponent. }
  destruct (valid_finite_bounds _ _ _ Hv) as (Hev & _ & _).
  destruct (valid_finite_bounds _ _ _ Hw) as (Hew & _ & _).
  unfold SFadd, SF_one in Hadd. cbn [cond_Zopp] in Hadd.
  set (ez := Z.min (-52) ev) in *.
  destruct (shl_align_le 4503599627370496 (-52) ez ltac:(lia)) as [Ha _].
  destruct (shl_align_le mv ev ez ltac:(lia)) as [Hb _].
  rewrite <- Pos2Z.inj_add in Hadd. cbn [binary_normalize] in Hadd.
  set (p := (_ + _)%positive) in Hadd.
  assert (Hp : Zpos p = 4503599627370496 * 2 ^ (-52 - ez) + Zpos mv * 2 ^ (ev - ez)).
  { unfold p. rewrite Pos2Z.inj_add, Ha, Hb. done. }
  assert (Hpow : 0 < 2 ^ (-52 - ez)) by (apply Z.pow_pos_nonneg; lia).
  assert (Hpow' : 0 < 2 ^ (ev - ez)) by (apply Z.pow_pos_nonneg; lia).
  assert (Hdp : 52 < Zpos (digits2_pos p)).
  { apply (Zdigits2_gt_of_le (Zpos p) 52); [lia|].
    change (2 ^ 52) with 4503599627370496. nia. }
  unfold binary_round in Hadd.
  rewrite shl_align_ge in Hadd by (rewrite fexp_spec; lia).
  destruct (binary_round_aux_spec false (Zpos p) ez loc_Exact ltac:(done))
    as (k & m & Hk & [Hlo _] & _ & _ & Heq).
  rewrite Heq in Hadd. unfold round_result in Hadd.
  destruct m as [|m|m]; [done | | done].
  destruct (ez + k <=? emax - prec); [|done].
  injection Hadd as -> <-.
  assert (Hk0 : 0 <= k) by lia.
  assert (Hpk : 0 < 2 ^ k) by (apply Z.pow_pos_nonneg; lia).
  assert (Hmant : Zpos mv * 2 ^ (ev - (ez + k)) <= Zpos mw).
  { apply Z.le_trans with (2 := Hlo). apply Z.div_le_lower_bound; [done|].
    rewrite Hp. replace (ev - ez) with (ev - (ez + k) + k) by lia.
    rewrite Z.pow_add_r by lia. nia. }
  unfold ival. replace (ev + 1074) with (ev - (ez + k) + (ez + k + 1074)) by lia.
  rewrite Z.pow_add_r by lia.
  assert (0 <= 2 ^ (ez + k + 1074)) by (apply Z.pow_nonneg; lia).
  nia.
Qed.

(** The quotient of a number by one that is not smaller is at most 1. *)
Lemma SFdiv_le_one (mv : positive) (ev : Z) (mw : positive) (ew : Z) :
  valid_binary (S754_finite false mv ev) = true ->
  valid_binary (S754_finite false mw ew) = true ->
  ival mv ev <= ival mw ew ->
  valid_binary (SFdiv prec emax (S754_finite false mv ev) (S754_finite false mw ew)) = true ->
  SFleb (SFdiv prec emax (S754_finite false mv ev) (S754_finite false mw ew)) SF_one = true.
Proof.
  intros Hv Hw Hle Hq. unfold ival in Hle.
  cbn [SFdiv xorb] in *.
  destruct (SFdiv_core_binary_spec (Zpos mv) ev (Zpos mw) ew) as (l & Hcore & Hl);
    [done..|].
  rewrite Hcore in *. clear Hcore.
  destruct (valid_finite_bounds _ _ _ Hv) as (Hev & Hdv & _).
  destruct (valid_finite_bounds _ _ _ Hw) as (Hew & Hdw & _).
  pose proof (Zdigits2_bounds mv) as [Hmv _].
  pose proof (Zdigits2_bounds mw) as [_ Hmw].
  cbn [Zdigits2] in *.
  set (dv := Zpos (digits2_pos mv)) in *. set (dw := Zpos (digits2_pos mw)) in *.
  assert (Hdig : dv + ev <= dw + ew).
  { assert (dv - 1 + (ev + 1074) < dw + (ew + 1074)); [|lia].
    apply (Z.pow_lt_mono_r_iff 2); [lia | lia |].
    rewrite (Z.pow_add_r 2 (dv - 1)), (Z.pow_add_r 2 dw) by lia.
    assert (0 < 2 ^ (ev + 1074)) by (apply Z.pow_pos_nonneg; lia).
    assert (0 < 2 ^ (ew + 1074)) by (apply Z.pow_pos_nonneg; lia).
    nia. }
  set (e' := Z.min _ _) in *.
  assert (He' : e' <= -53) by (unfold e'; rewrite fexp_spec; lia).
  assert (Hs : 0 <= ev - ew - e') by (unfold e'; lia).
  set (N := Zpos mv * 2 ^ (ev - ew - e')) in *.
  set (P := 2 ^ (- e')).
  assert (HP : 0 < P) by (apply Z.pow_pos_nonneg; lia).
  assert (HN : N <= Zpos mw * P).
  { assert (Hu : 0 < 2 ^ (ew + 1074)) by (apply Z.pow_pos_nonneg; lia).
    apply (Z.mul_le_mono_pos_r _ _ (2 ^ (ew + 1074))); [done|].
    unfold N, P. rewrite <- Z.mul_assoc, <- Z.pow_add_r by lia.
    replace (ev - ew - e' + (ew + 1074)) with (ev + 1074 + - e') by lia.
    rewrite Z.pow_add_r by lia. fold P. nia. }
  assert (HN0 : 0 <= N) by (apply Z.mul_nonneg_nonneg; [done | apply Z.pow_nonneg; done]).
  assert (HQ0 : 0 <= N / Zpos mw) by (apply Z.div_pos; done).
  assert (HQ : N / Zpos mw <= P).
  { apply Z.div_le_upper_bound; [done|]. lia. }
  assert (HQeq : N / Zpos mw = P -> N mod Zpos mw = 0).
  { intros HQe. pose proof (Z.div_mod N (Zpos mw) ltac:(done)) as Hdm.
    pose proof (Z.mod_pos_bound N (Zpos mw) ltac:(done)). rewrite HQe in Hdm. lia. }
  set (Q := N / Zpos mw) in *.
  destruct (binary_round_aux_spec false Q e' l HQ0)
    as (k & m & Hk & [Hlo Hhi] & _ & Hinex & Heq).
  rewrite Heq in *. clear Heq.
  assert (HdQ : Zdigits2 Q + e' <= 1).
  { destruct (Z.eq_dec Q 0) as [->|]; [cbn; lia|].
    assert (Zdigits2 Q <= - e' + 1); [|lia].
    apply Zdigits2_le_of_lt; [lia | lia |].
    rewrite Z.pow_add_r by lia. fold P. lia. }
  assert (HkE : 0 <= k /\ e' + k <= -51) by (rewrite fexp_spec in Hk; lia).
  assert (Hpk : 0 < 2 ^ k) by (apply Z.pow_pos_nonneg; lia).
  assert (HPk : P = 2 ^ (- (e' + k)) * 2 ^ k).
  { unfold P. rewrite <- Z.pow_add_r by lia. f_equal. lia. }
  set (B := 2 ^ (- (e' + k))) in *.
  assert (HB : 0 < B) by (apply Z.pow_pos_nonneg; lia).
  assert (Hq0 : Q / 2 ^ k <= B).
  { apply Z.div_le_upper_bound; [done|]. lia. }
  assert (Hq0' : 0 <= Q / 2 ^ k) by (apply Z.div_pos; done).
  assert (Hm : 0 <= m <= B).
  { split; [lia|].
    destruct (Z.eq_dec m (Q / 2 ^ k + 1)) as [Hup|]; [|lia].
    destruct (Z.eq_dec (Q / 2 ^ k) B) as [Htop|]; [|lia].
    exfalso. apply (Hinex Hup).
    assert (HQP : Q = P).
    { pose proof (Z.mul_div_le Q (2 ^ k) Hpk). nia. }
    split; [by apply Hl, HQeq|].
    rewrite HQP, HPk. apply Z.mod_mul. lia. }
  unfold round_result in *. destruct m as [|p|p]; [done | | lia].
  destruct (Z.leb_spec (e' + k) (emax - prec)) as [_|Hbig];
    [|change (emax - prec) with 971 in Hbig; lia].
  destruct (valid_finite_bounds _ _ _ Hq) as (_ & _ & Hcanon).
  pose proof (Zdigits2_bounds p) as [Hp _].
  unfold SFleb, SF_one. cbn [SFcompare].
  destruct (Z.compare_spec (e' + k) (-52)) as [HE | HE | HE]; [| reflexivity |].
  - assert (HB52 : B = 4503599627370496) by (unfold B; rewrite HE; reflexivity).
    rewrite Pos.compare_cont_spec.
    destruct (Pos.compare_spec p 4503599627370496); [reflexivity | reflexivity | lia].
  - exfalso. rewrite Hcanon in Hp by lia.
    assert (HB51 : B = 2251799813685248).
    { unfold B. replace (e' + k) with (-51) by lia. reflexivity. }
    change (2 ^ (53 - 1)) with 4503599627370496 in Hp. lia.
Qed.

End FloatFacts.

(** ** Typed-array access *)

Module ArrayFacts.
  Import JS.

Lemma length_set k d i v : length (set k d i v) = length d.
Proof. unfold set. destruct (i <? 0); [done | apply length_insert]. Qed.

Lemma get_set_eq k d i v :
  0 <= i < Z.of_nat (length d) -> get (set k d i v) i = element k v.
Proof.
  intros [Hlo Hhi]. unfold get, set.
  destruct (Z.ltb_spec i 0) as [|_]; [lia|].
  rewrite list_lookup_insert_eq by lia. done.
Qed.

Lemma get_set_ne k d i j v : i <> j -> get (set k d i v) j = get d j.
Proof.
  intros Hne. unfold get, set.
  destruct (Z.ltb_spec j 0); [done|].
  destruct (Z.ltb_spec i 0); [done|].
  rewrite list_lookup_insert_ne by lia. done.
Qed.

Lemma Forall_set k (P : number -> Prop) d i v :
  P (element k v) -> Forall P d -> Forall P (set k d i v).
Proof.
  intros Hv Hd. unfold set. destruct (i <? 0); [done|].
  apply Forall_insert; done.
Qed.

End ArrayFacts.

(** ** Event traces *)

Module TraceFacts.
Import JS.

Lemma fst_bindM {E A B} (m : M E A) (k : A -> M E B) :
  fst (bindM m k) =
  fst m ++ match snd m with Ok a => fst (k a) | Throw _ => [] end.
Proof.
  destruct m as [t [a|e]]; cbn; [|by rewrite app_nil_r].
  by destruct (k a).
Qed.

Lemma snd_bindM {E A B} (m : M E A) (k : A -> M E B) :
  snd (bindM m k) = match snd m with Ok a => snd (k a) | Throw e => Throw e end.
Proof. destruct m as [t [a|e]]; cbn; [|done]. by destruct (k a). Qed.

End TraceFacts.

(** ** ColorBuffer *)

Module ColorBufferFacts.
Import JS ColorBuffer ArrayFacts FloatFacts Samples.

Lemma offset_in_bounds (b : t) x y :
  0 <= x < width b -> 0 <= y < height b ->
  offset b x y = Ok ((y * width b + x) * 4).
Proof.
  intros Hx Hy. unfold offset.
  destruct (Z.ltb_spec x 0); [lia|].
  destruct (Z.geb_spec x (width b)); [lia|].
  destruct (Z.ltb_spec y 0); [lia|].
  destruct (Z.geb_spec y (height b)); [lia|].
  done.
Qed.

Lemma offset_range (b : t) x y :
  wf b -> 0 <= x < width b -> 0 <= y < height b ->
  0 <= (y * width b + x) * 4 /\
  (y * width b + x) * 4 + 3 < Z.of_nat (length (data b)).
Proof.
  intros (Hw & Hh & Hlen) Hx Hy. rewrite Hlen. nia.
Qed.

(** C6, as stated, fails on a 32-bit buffer: the stored channel is the
    binary32 rounding of the value written, and 0.1 is not a binary32
    value. *)
Lemma setPixel_getPixel_lossy_on_Float32 :
  new 1 1 D32 = Ok fresh32 /\
  exists b', setPixel fresh32 0 0 0.1 0.2 0.3 0.4 = Ok b' /\
             getPixel b' 0 0 <> Ok (0.1, 0.2, 0.3, 0.4)%float.
Proof.
  split; [reflexivity|].
  eexists. split; [reflexivity|].
  intros H.
  apply (f_equal (fun r => match r with
                           | Ok (r, _, _, _) => Prim2SF r
                           | Throw _ => S754_nan
                           end)) in H.
  vm_compute in H. discriminate.
Qed.

(** C6 (amended): on in-bounds coordinates [getPixel] after [setPixel]
    returns every channel as the element type of the array stores it --
    unchanged for a 64-bit buffer, rounded to the nearest binary32 value
    ([Math.fround]) for a 32-bit buffer, hence unchanged there too when
    the channel is a binary32 value -- and [setPixelUnchecked] leaves
    exactly the buffer that [setPixel] leaves. *)
Theorem setPixel_getPixel_roundtrip (b : t) (x y : Z) (r g bl a : number) :
  wf b -> 0 <= x < width b -> 0 <= y < height b ->
  exists b',
    setPixel b x y r g bl a = Ok b' /\
    wf b' /\
    getPixel b' x y =
      Ok (element (kind_of (depth b)) r, element (kind_of (depth b)) g,
          element (kind_of (depth b)) bl, element (kind_of (depth b)) a) /\
    (depth b = D64 -> getPixel b' x y = Ok (r, g, bl, a)) /\
    (Math_fround r = r -> Math_fround g = g ->
     Math_fround bl = bl -> Math_fround a = a ->
     getPixel b' x y = Ok (r, g, bl, a)) /\
    setPixelUnchecked b x y r g bl a = b'.
Proof.
  intros Hwf Hx Hy.
  destruct (offset_range b x y Hwf Hx Hy) as [Hlo Hhi].
  set (i := (y * width b + x) * 4) in *.
  set (k := kind_of (depth b)).
  assert (Hget : getPixel (setPixelUnchecked b x y r g bl a) x y =
                 Ok (element k r, element k g, element k bl, element k a)).
  { unfold getPixel, setPixelUnchecked.
    rewrite offset_in_bounds by done. cbn [bind with_data data width].
    fold i. unfold store. fold k.
    repeat first
      [ rewrite get_set_eq by (rewrite ?length_set; lia)
      | rewrite get_set_ne by lia ].
    done. }
  exists (setPixelUnchecked b x y r g bl a).
  split; [|split; [|split; [|split; [|split]]]].
  - unfold setPixel. rewrite offset_in_bounds by done. done.
  - destruct Hwf as (Hw & Hh & Hlen).
    unfold wf, setPixelUnchecked, store; cbn [with_data data width height depth].
    rewrite !length_set. done.
  - exact Hget.
  - intros Hd. rewrite Hget. subst k. rewrite Hd. done.
  - intros Hr Hg Hb Ha. rewrite Hget. subst k.
    destruct (depth b); cbn [kind_of element]; congruence.
  - done.
Qed.

Lemma setPixel_getPixel_roundtrip_witness :
  exists b',
    setPixel fresh32 0 0 0.5 0.25 0.75 1 = Ok b' /\
    getPixel b' 0 0 = Ok (0.5, 0.25, 0.75, 1)%float.
Proof.
  destruct (setPixel_getPixel_roundtrip fresh32 0 0 0.5 0.25 0.75 1)
    as (b' & Hset & _ & _ & _ & Hexact & _);
    [vm_compute; repeat split | cbn; lia | cbn; lia |].
  exists b'. split; [exact Hset|].
  apply Hexact; reflexivity.
Defined.

(** *** Row blend against the scalar blend *)

(** One checked [blendPixel] call performs the stores of one iteration
    of the row loop that does not take the alpha-zero shortcut. *)
Lemma blendRow_step (b : t) (d : list number) (y startX p : Z)
    (floats : list number) (mode : BlendMode) (n : nat) :
  0 <= y < height b -> 0 <= startX + p < width b ->
  strict_eq (get floats (p * 4 + 3)) 0 = false ->
  exists d',
    blendPixel (with_data b d) (startX + p) y
      (get floats (p * 4)) (get floats (p * 4 + 1))
      (get floats (p * 4 + 2)) (get floats (p * 4 + 3)) mode
    = Ok (with_data b d') /\
    blendRow_loop (kind_of (depth b)) mode floats (S n) p
      ((y * width b + startX + p) * 4) d
    = blendRow_loop (kind_of (depth b)) mode floats n (p + 1)
        ((y * width b + startX + p) * 4 + 4) d'.
Proof.
  intros Hy Hx Ha.
  unfold blendPixel.
  rewrite offset_in_bounds by (cbn [with_data width height]; lia).
  cbn [bind with_data width height depth data blendRow_loop].
  rewrite Ha.
  replace ((y * width b + (startX + p)) * 4)
    with ((y * width b + startX + p) * 4) by lia.
  set (i := (y * width b + startX + p) * 4).
  unfold store; cbn [depth].
  destruct mode;
    match goal with
    | |- context [strict_eq ?o 0] => destruct (strict_eq o 0)
    end;
    eexists; split; reflexivity.
Qed.

Lemma blendRow_loop_sequence (b : t) (y startX : Z) (floats : list number)
    (mode : BlendMode) (n : nat) :
  0 <= y < height b ->
  forall (p : Z) (d : list number),
    0 <= startX + p -> startX + p + Z.of_nat n <= width b ->
    blendPixel_sequence (with_data b d) y startX floats mode
      (filter (fun q => strict_eq (get floats (q * 4 + 3)) 0 = false)
              (seqZ p (Z.of_nat n)))
    = Ok (with_data b
            (blendRow_loop (kind_of (depth b)) mode floats n p
               ((y * width b + startX + p) * 4) d)).
Proof.
  intros Hy. induction n as [|n IH]; intros p d Hlo Hhi.
  - done.
  - rewrite seqZ_cons by lia.
    replace (Z.pred (Z.of_nat (S n))) with (Z.of_nat n) by lia.
    destruct (strict_eq (get floats (p * 4 + 3)) 0) eqn:Ha.
    + rewrite filter_cons_False by (rewrite Ha; done).
      rewrite IH by lia. cbn [blendRow_loop]. rewrite Ha.
      do 3 f_equal. lia.
    + rewrite filter_cons_True by done.
      destruct (blendRow_step b d y startX p floats mode n) as (d' & Hcall & Hloop);
        [done | lia | done |].
      cbn [blendPixel_sequence]. rewrite Hcall. cbn [bind].
      rewrite IH by lia. rewrite Hloop.
      do 3 f_equal. lia.
Qed.

(** C1, as stated, fails: on a transparent source pixel the scalar
    [blendPixel] rewrites a destination of alpha 0 to (0,0,0,0), while
    the row path skips the pixel and leaves (1,2,3,0). *)
Lemma blendRow_differs_from_blendPixel_sequence :
  wf ghost_pixel /\
  blendPixel_sequence ghost_pixel 0 0 transparent_row normal (pixel_indices 1)
    = Ok (mk 1 1 D64 [0; 0; 0; 0]%float) /\
  blendRowUnchecked ghost_pixel 0 0 1 transparent_row normal
    = mk 1 1 D64 [1; 2; 3; 0]%float /\
  blendPixel_sequence ghost_pixel 0 0 transparent_row normal (pixel_indices 1)
    <> Ok (blendRowUnchecked ghost_pixel 0 0 1 transparent_row normal).
Proof.
  split; [|split; [|split]].
  - vm_compute. repeat split.
  - reflexivity.
  - reflexivity.
  - intros H.
    apply (f_equal (fun r => match r with
                             | Ok b => Prim2SF (get (data b) 0)
                             | Throw _ => S754_nan
                             end)) in H.
    vm_compute in H. discriminate.
Qed.

(** C1 (amended): for a row inside the buffer, [blendRowUnchecked]
    leaves exactly the buffer left by the checked [blendPixel] calls,
    in order, on those pixels of the row whose source alpha is not
    [=== 0]; the pixels with source alpha 0 are not touched. *)
Theorem blendRowUnchecked_refines_blendPixel (b : t) (y startX pixelCount : Z)
    (floats : list number) (mode : BlendMode) :
  0 <= y < height b -> 0 <= startX -> 0 <= pixelCount ->
  startX + pixelCount <= width b ->
  blendPixel_sequence b y startX floats mode (visible_indices floats pixelCount)
  = Ok (blendRowUnchecked b y startX pixelCount floats mode).
Proof.
  intros Hy Hx Hn Hw.
  unfold visible_indices, pixel_indices, blendRowUnchecked.
  pose proof (blendRow_loop_sequence b y startX floats mode
                (Z.to_nat pixelCount) Hy 0 (data b)) as H.
  rewrite Z2Nat.id in H by lia.
  replace (with_data b (data b)) with b in H by (destruct b; done).
  rewrite H by lia. do 3 f_equal. lia.
Qed.

Lemma blendRowUnchecked_refines_blendPixel_witness :
  blendPixel_sequence ghost_pixel 0 0 [9; 9; 9; 0.5]%float add
    (visible_indices [9; 9; 9; 0.5]%float 1)
  = Ok (blendRowUnchecked ghost_pixel 0 0 1 [9; 9; 9; 0.5]%float add).
Proof.
  apply (blendRowUnchecked_refines_blendPixel ghost_pixel 0 0 1
           [9; 9; 9; 0.5]%float add); cbn; lia.
Defined.

(** *** Blending a fully transparent source *)

Lemma typed_get (b : t) (j : Z) :
  typed b -> 0 <= j < Z.of_nat (length (data b)) ->
  element (kind_of (depth b)) (get (data b) j) = get (data b) j.
Proof.
  intros Ht Hj. unfold get. destruct (Z.ltb_spec j 0); [lia|].
  destruct (data b !! Z.to_nat j) as [v|] eqn:E.
  - exact (Forall_lookup_1 _ _ _ _ Ht E).
  - apply lookup_ge_None in E. lia.
Qed.

Lemma element_zero (k : float_kind) (v : number) :
  strict_eq v 0 = true -> strict_eq (element k v) 0 = true.
Proof.
  intros Hv. destruct k; [|done]. cbn [element]. unfold Math_fround.
  apply eqb_zero_spec in Hv as [s Hs]. rewrite Hs.
  apply eqb_zero_spec. eauto.
Qed.

Lemma wf_setPixelUnchecked (b : t) (x y : Z) (r g bl a : number) :
  wf b -> wf (setPixelUnchecked b x y r g bl a).
Proof.
  intros (Hw & Hh & Hlen).
  unfold wf, setPixelUnchecked, store; cbn [with_data data width height depth].
  rewrite !length_set. done.
Qed.

Lemma getPixel_setPixelUnchecked (b : t) (x y : Z) (r g bl a : number) :
  wf b -> 0 <= x < width b -> 0 <= y < height b ->
  getPixel (setPixelUnchecked b x y r g bl a) x y =
  Ok (element (kind_of (depth b)) r, element (kind_of (depth b)) g,
      element (kind_of (depth b)) bl, element (kind_of (depth b)) a).
Proof.
  intros Hwf Hx Hy.
  destruct (offset_range b x y Hwf Hx Hy) as [Hlo Hhi].
  unfold getPixel, setPixelUnchecked.
  rewrite offset_in_bounds by done. cbn [bind with_data data width].
  unfold store.
  repeat first
    [ rewrite get_set_eq by (rewrite ?length_set; lia)
    | rewrite get_set_ne by lia ].
  done.
Qed.

(** Two pixels of a buffer occupy disjoint groups of four elements. *)
Lemma pixel_index_inj (w x y x' y' : Z) :
  0 <= x < w -> 0 <= x' < w -> y' * w + x' = y * w + x -> x' = x /\ y' = y.
Proof.
  intros Hx Hx' H.
  assert (y' = y); [|subst; lia].
  destruct (Z.lt_trichotomy y' y) as [Hlt | [Heq | Hgt]]; [|done|]; nia.
Qed.

Lemma getPixel_setPixelUnchecked_other (b : t) (x y x' y' : Z) (r g bl a : number) :
  0 <= x < width b -> 0 <= x' < width b -> (x', y') <> (x, y) ->
  getPixel (setPixelUnchecked b x y r g bl a) x' y' = getPixel b x' y'.
Proof.
  intros Hx Hx' Hne.
  assert (Hidx : y' * width b + x' <> y * width b + x).
  { intros H. destruct (pixel_index_inj _ _ _ _ _ Hx Hx' H). congruence. }
  unfold getPixel, setPixelUnchecked, offset; cbn [with_data data width height].
  destruct (_ || _); [done|]. cbn [bind]. unfold store.
  rewrite !get_set_ne by lia. done.
Qed.

(** With source alpha 0 the output alpha is the stored alpha (or +0 for
    a stored zero), and the stores are those of a [setPixel]. *)
Lemma blendPixel_alpha0_stores (b : t) (x y : Z) (r g bl : number) (mode : BlendMode) :
  0 <= x < width b -> 0 <= y < height b ->
  let i := (y * width b + x) * 4 in
  let dR := get (data b) i in
  let dG := get (data b) (i + 1) in
  let dB := get (data b) (i + 2) in
  let dA := get (data b) (i + 3) in
  blendPixel b x y r g bl 0 mode =
  Ok (if strict_eq dA 0 then setPixelUnchecked b x y 0 0 0 0
      else setPixelUnchecked b x y
             ((blend_channel mode dR r * 0 + dR * dA) / dA)
             ((blend_channel mode dG g * 0 + dG * dA) / dA)
             ((blend_channel mode dB bl * 0 + dB * dA) / dA) dA).
Proof.
  intros Hx Hy i dR dG dB dA.
  unfold blendPixel. rewrite offset_in_bounds by done. cbn [bind].
  fold i. fold dR dG dB dA.
  change (1 - 0)%float with 1%float. rewrite !mul_1_r.
  destruct (strict_eq dA 0) eqn:HA.
  - rewrite (add_0_l_zero dA HA). change (strict_eq 0 0) with true.
    by destruct mode.
  - rewrite (add_zero_l 0 dA eq_refl HA). rewrite HA.
    by destruct mode.
Qed.

(** An opaque destination channel survives, up to the sign of a zero. *)
Lemma opaque_channel (k : float_kind) (c d : number) :
  Number_isFinite c = true -> element k d = d ->
  same_number (element k ((c * 0 + d * 1) / 1)) d.
Proof.
  intros Hc Hd. rewrite mul_1_r, div_1_r.
  pose proof (mul_0_r c Hc) as Hz.
  destruct (d =? 0)%float eqn:Hd0.
  - right. split; [|done]. apply element_zero. by apply add_zero_zero.
  - left. rewrite add_zero_l by done. done.
Qed.

(** C2, as stated, fails: a source of alpha 0 blended onto a pixel whose
    stored alpha is 0 clears its colour, and onto a pixel of alpha 0.1
    it recomputes the colour with a rounding error. *)
Lemma blendPixel_alpha0_changes_pixel :
  (exists b', blendPixel ghost_pixel 0 0 5 6 7 0 normal = Ok b' /\
              getPixel b' 0 0 <> getPixel ghost_pixel 0 0) /\
  (exists b', blendPixel faint_pixel 0 0 5 6 7 0 normal = Ok b' /\
              getPixel b' 0 0 <> getPixel faint_pixel 0 0).
Proof.
  split; eexists; (split; [reflexivity|]); intros H;
    apply (f_equal (fun r => match r with
                             | Ok (r, _, _, _) => Prim2SF r
                             | Throw _ => S754_nan
                             end)) in H;
    vm_compute in H; discriminate.
Qed.

(** C2 (amended): [blendPixel] with source alpha 0 touches no other
    pixel; at the pixel itself it stores (0,0,0,0) when the stored alpha
    is a zero; otherwise it keeps the stored alpha and stores each
    colour channel recomputed as [(blended * 0 + dst * dstA) / dstA];
    when the stored alpha is 1 and the blended colour is finite that
    keeps all four values (a colour channel that is a zero stays a
    zero). *)
Theorem blendPixel_alpha0 (b : t) (x y : Z) (r g bl : number) (mode : BlendMode)
    (dR dG dB dA : number) :
  wf b -> typed b -> 0 <= x < width b -> 0 <= y < height b ->
  getPixel b x y = Ok (dR, dG, dB, dA) ->
  exists b' nR nG nB nA,
    blendPixel b x y r g bl 0 mode = Ok b' /\
    wf b' /\
    getPixel b' x y = Ok (nR, nG, nB, nA) /\
    (forall x' y', 0 <= x' < width b -> 0 <= y' < height b ->
       (x', y') <> (x, y) -> getPixel b' x' y' = getPixel b x' y') /\
    (strict_eq dA 0 = true -> (nR, nG, nB, nA) = (0, 0, 0, 0)%float) /\
    (strict_eq dA 0 = false ->
     let k := kind_of (depth b) in
     nR = element k ((blend_channel mode dR r * 0 + dR * dA) / dA) /\
     nG = element k ((blend_channel mode dG g * 0 + dG * dA) / dA) /\
     nB = element k ((blend_channel mode dB bl * 0 + dB * dA) / dA) /\
     nA = dA) /\
    (dA = 1%float ->
     Number_isFinite (blend_channel mode dR r) = true ->
     Number_isFinite (blend_channel mode dG g) = true ->
     Number_isFinite (blend_channel mode dB bl) = true ->
     same_number nR dR /\ same_number nG dG /\ same_number nB dB /\
     nA = 1%float).
Proof.
  intros Hwf Ht Hx Hy Hget.
  destruct (offset_range b x y Hwf Hx Hy) as [Hlo Hhi].
  unfold getPixel in Hget. rewrite offset_in_bounds in Hget by done.
  cbn [bind] in Hget. injection Hget as HR HG HB HA.
  pose proof (blendPixel_alpha0_stores b x y r g bl mode Hx Hy) as Hb.
  cbv zeta in Hb. rewrite HR, HG, HB, HA in Hb.
  set (k := kind_of (depth b)).
  assert (HtR : element k dR = dR) by (rewrite <- HR; apply typed_get; [done | lia]).
  assert (HtG : element k dG = dG) by (rewrite <- HG; apply typed_get; [done | lia]).
  assert (HtB : element k dB = dB) by (rewrite <- HB; apply typed_get; [done | lia]).
  assert (HtA : element k dA = dA) by (rewrite <- HA; apply typed_get; [done | lia]).
  destruct (strict_eq dA 0) eqn:HA0.
  - exists (setPixelUnchecked b x y 0 0 0 0), (element k 0), (element k 0),
      (element k 0), (element k 0).
    split; [done|]. split; [by apply wf_setPixelUnchecked|].
    split; [by apply getPixel_setPixelUnchecked|].
    split; [intros x' y' Hx' _ Hne; by apply getPixel_setPixelUnchecked_other|].
    split; [intros _; by destruct k|].
    split; [done|].
    intros ->. discriminate HA0.
  - eexists (setPixelUnchecked b x y _ _ _ dA), _, _, _, (element k dA).
    split; [exact Hb|]. split; [by apply wf_setPixelUnchecked|].
    split; [by apply getPixel_setPixelUnchecked|].
    split; [intros x' y' Hx' _ Hne; by apply getPixel_setPixelUnchecked_other|].
    split; [done|].
    split; [done|].
    intros -> HfR HfG HfB.
    split; [by apply opaque_channel|].
    split; [by apply opaque_channel|].
    split; [by apply opaque_channel|].
    done.
Qed.

Lemma blendPixel_alpha0_witness :
  exists b',
    blendPixel one_pixel 0 0 9 9 9 0 multiply = Ok b' /\
    getPixel b' 0 0 = Ok (0.5, 0.25, 0.75, 1)%float.
Proof.
  destruct (blendPixel_alpha0 one_pixel 0 0 9 9 9 multiply 0.5 0.25 0.75 1)
    as (b' & nR & nG & nB & nA & Hb & _ & Hget & _ & _ & _ & Hopaque);
    [vm_compute; repeat split | repeat constructor | cbn; lia | cbn; lia
    | reflexivity |].
  exists b'. split; [exact Hb|].
  rewrite Hget.
  destruct (Hopaque eq_refl eq_refl eq_refl eq_refl)
    as ([-> | [_ H]] & [-> | [_ H']] & [-> | [_ H'']] & ->);
    first [reflexivity | discriminate].
Defined.

End ColorBufferFacts.

(** ** ColorBuffer: construction, clearing, regions and rows *)

Module TypedArrayFacts.
Import JS ArrayFacts.

Lemma get_lookup (l : list number) (j : Z) (v : number) :
  0 <= j -> l !! Z.to_nat j = Some v -> get l j = v.
Proof.
  intros Hj Hl. unfold get. destruct (Z.ltb_spec j 0); [lia|]. by rewrite Hl.
Qed.

Lemma lookup_get (l : list number) (j : Z) :
  0 <= j < Z.of_nat (length l) -> l !! Z.to_nat j = Some (get l j).
Proof.
  intros Hj. unfold get. destruct (Z.ltb_spec j 0); [lia|].
  destruct (lookup_lt_is_Some_2 l (Z.to_nat j)) as [v ->]; [lia | done].
Qed.

(** Two arrays of one length that read the same everywhere are equal. *)
Lemma list_eq_get (l1 l2 : list number) :
  length l1 = length l2 ->
  (forall j, 0 <= j < Z.of_nat (length l1) -> get l1 j = get l2 j) ->
  l1 = l2.
Proof.
  intros Hlen Hget. apply list_eq. intros i.
  destruct (Nat.lt_ge_cases i (length l1)) as [Hlt | Hge].
  - pose proof (lookup_get l1 (Z.of_nat i) ltac:(lia)) as H1.
    pose proof (lookup_get l2 (Z.of_nat i) ltac:(lia)) as H2.
    rewrite Nat2Z.id in H1, H2. rewrite H1, H2, Hget by lia. done.
  - rewrite !lookup_ge_None_2 by lia. done.
Qed.

Lemma float_subarray_inside (a : list number) (s e : Z) :
  0 <= s <= e -> e <= Z.of_nat (length a) ->
  float_subarray a s e = take (Z.to_nat (e - s)) (drop (Z.to_nat s) a).
Proof.
  intros Hs He. unfold float_subarray, relative_index.
  destruct (Z.ltb_spec s 0); [lia|]. destruct (Z.ltb_spec e 0); [lia|].
  rewrite !Z.min_l by lia. done.
Qed.

Lemma length_float_subarray (a : list number) (s e : Z) :
  0 <= s <= e -> e <= Z.of_nat (length a) ->
  Z.of_nat (length (float_subarray a s e)) = e - s.
Proof.
  intros Hs He. rewrite float_subarray_inside by done.
  rewrite length_take, length_drop. lia.
Qed.

Lemma get_float_subarray (a : list number) (s e i : Z) :
  0 <= s <= e -> e <= Z.of_nat (length a) -> 0 <= i < e - s ->
  get (float_subarray a s e) i = get a (s + i).
Proof.
  intros Hs He Hi. rewrite float_subarray_inside by done.
  apply get_lookup; [lia|].
  rewrite lookup_take_lt, lookup_drop by lia.
  replace (Z.to_nat s + Z.to_nat i)%nat with (Z.to_nat (s + i)) by lia.
  apply lookup_get. lia.
Qed.

(** What [set] leaves in the target: the converted source at the
    offset, the old elements elsewhere. *)
Lemma float_set_spec (k : float_kind) (target source : list number) (offset : Z) :
  0 <= offset ->
  offset + Z.of_nat (length source) <= Z.of_nat (length target) ->
  exists d',
    float_set k target source offset = Ok d' /\
    length d' = length target /\
    forall j,
      get d' j =
      if (offset <=? j) && (j <? offset + Z.of_nat (length source))
      then element k (get source (j - offset)) else get target j.
Proof.
  intros Ho Hfit. unfold float_set.
  destruct (Z.ltb_spec offset 0); [lia|].
  destruct (Z.ltb_spec (Z.of_nat (length target)) (offset + Z.of_nat (length source)));
    [lia|].
  cbn [orb]. eexists. split; [done|]. split.
  { rewrite !length_app, length_take, length_map, length_drop. lia. }
  intros j.
  destruct (Z.ltb_spec j 0) as [Hneg | Hnn].
  { destruct (Z.leb_spec offset j); [lia|]. cbn [andb]. unfold get.
    by destruct (Z.ltb_spec j 0); [|lia]. }
  destruct (Z.leb_spec offset j) as [Hlo | Hlo]; cbn [andb].
  - destruct (Z.ltb_spec j (offset + Z.of_nat (length source))) as [Hhi | Hhi].
    + apply get_lookup; [done|].
      rewrite lookup_app_r by (rewrite length_take; lia).
      rewrite length_take, lookup_app_l by (rewrite ?length_map; lia).
      rewrite list_lookup_fmap.
      replace (Z.to_nat j - Z.to_nat offset `min` length target)%nat
        with (Z.to_nat (j - offset)) by lia.
      rewrite lookup_get by lia. done.
    + unfold get. destruct (Z.ltb_spec j 0); [lia|]. f_equal.
      rewrite lookup_app_r by (rewrite length_take; lia).
      rewrite length_take, lookup_app_r by (rewrite ?length_map; lia).
      rewrite length_map, lookup_drop. f_equal. lia.
  - unfold get. destruct (Z.ltb_spec j 0); [lia|]. f_equal.
    rewrite lookup_app_l by (rewrite length_take; lia).
    rewrite lookup_take_lt by lia. done.
Qed.

(** [set] throws when the source does not fit at the offset. *)
Lemma float_set_Throw (k : float_kind) (target source : list number) (offset : Z) :
  offset < 0 \/ Z.of_nat (length target) < offset + Z.of_nat (length source) ->
  float_set k target source offset = Throw (RangeError "offset is out of bounds").
Proof.
  intros H. unfold float_set.
  destruct (Z.ltb_spec offset 0); [done|].
  destruct (Z.ltb_spec (Z.of_nat (length target)) (offset + Z.of_nat (length source)));
    [done | lia].
Qed.

(** In a row-major array of rows of [W] elements, an index in row [r0]
    lies in row [r] only when [r = r0]. *)
Lemma row_index_inj (W r c r0 c0 : Z) :
  0 <= c < W -> 0 <= c0 < W -> r * W + c = r0 * W + c0 -> r = r0 /\ c = c0.
Proof.
  intros Hc Hc0 H.
  assert (r = r0); [|subst; lia].
  destruct (Z.lt_trichotomy r r0) as [Hlt | [Heq | Hgt]]; [|done|]; nia.
Qed.

(** [set] of a segment of one row of a row-major array. *)
Lemma float_set_row (k : float_kind) (target source : list number) (W r0 c0 : Z) :
  0 <= r0 -> 0 <= c0 -> c0 + Z.of_nat (length source) <= W ->
  (r0 + 1) * W <= Z.of_nat (length target) ->
  exists d',
    float_set k target source (r0 * W + c0) = Ok d' /\
    length d' = length target /\
    forall r c, 0 <= c < W ->
      get d' (r * W + c) =
      if (r =? r0) && (c0 <=? c) && (c <? c0 + Z.of_nat (length source))
      then element k (get source (c - c0)) else get target (r * W + c).
Proof.
  intros Hr0 Hc0 Hfit Hlen.
  destruct (float_set_spec k target source (r0 * W + c0)) as (d' & Hset & Hl & Hget);
    [nia | nia |].
  exists d'. split; [done|]. split; [done|].
  intros r c Hc. rewrite Hget.
  destruct (Z.eqb_spec r r0) as [-> | Hne]; cbn [andb].
  - destruct (Z.leb_spec c0 c), (Z.leb_spec (r0 * W + c0) (r0 * W + c)); try lia;
      cbn [andb]; [|done].
    destruct (Z.ltb_spec c (c0 + Z.of_nat (length source))),
      (Z.ltb_spec (r0 * W + c) (r0 * W + c0 + Z.of_nat (length source)));
      try lia; [|done].
    do 2 f_equal. lia.
  - destruct (Z.leb_spec (r0 * W + c0) (r * W + c)); cbn [andb]; [|done].
    destruct (Z.ltb_spec (r * W + c) (r0 * W + c0 + Z.of_nat (length source)));
      [|done].
    exfalso. apply Hne.
    destruct (Z.lt_trichotomy r r0) as [Hlt | [Heq | Hgt]]; [|done|]; nia.
Qed.

End TypedArrayFacts.

Module RegionFacts.
Import JS ColorBuffer ArrayFacts TypedArrayFacts ColorBufferFacts.

Lemma index_rows (W j : Z) :
  0 < W -> 0 <= j -> exists r c, j = r * W + c /\ 0 <= c < W /\ 0 <= r.
Proof.
  intros HW Hj. exists (j / W), (j mod W).
  pose proof (Z.div_mod j W ltac:(lia)). pose proof (Z.mod_pos_bound j W HW).
  pose proof (Z.div_pos j W Hj HW). lia.
Qed.

Lemma getRegion_loop_spec (b : t) (x y w h' : Z) (n : nat) (row : Z) (d : list number) :
  wf b -> 0 <= x -> 0 <= y -> 0 < w -> x + w <= width b ->
  0 <= row -> y + row + Z.of_nat n <= height b -> row + Z.of_nat n <= h' ->
  Z.of_nat (length d) = w * h' * 4 ->
  exists d',
    getRegion_loop b x y w n row d = Ok d' /\ length d' = length d /\
    forall r c, 0 <= r < h' -> 0 <= c < w * 4 ->
      get d' (r * (w * 4) + c) =
      if (row <=? r) && (r <? row + Z.of_nat n)
      then element (kind_of (depth b))
             (get (data b) ((y + r) * (width b * 4) + (x * 4 + c)))
      else get d (r * (w * 4) + c).
Proof.
  intros (HW & HH & Hlen) Hx Hy Hw Hxw. revert row d.
  induction n as [|n IH]; intros row d Hrow Hyh Hrh Hd.
  - exists d. split; [done|]. split; [done|]. intros r c Hr Hc.
    destruct (Z.leb_spec row r), (Z.ltb_spec r (row + Z.of_nat 0)); try done; lia.
  - cbn [getRegion_loop].
    set (srcStart := ((y + row) * width b + x) * 4).
    assert (Hs0 : 0 <= srcStart) by (unfold srcStart; nia).
    assert (Hs1 : srcStart + w * 4 <= Z.of_nat (length (data b))).
    { rewrite Hlen. unfold srcStart. nia. }
    pose proof (length_float_subarray (data b) srcStart (srcStart + w * 4)
                  ltac:(lia) Hs1) as Hsl.
    set (src := float_subarray (data b) srcStart (srcStart + w * 4)) in *.
    destruct (float_set_row (kind_of (depth b)) d src (w * 4) row 0)
      as (d1 & Hset & Hl1 & Hg1); [lia | lia | lia | nia |].
    replace (row * w * 4) with (row * (w * 4) + 0) by lia.
    rewrite Hset. cbn [bind].
    destruct (IH (row + 1) d1) as (d' & Hloop & Hl' & Hg'); [lia | lia | lia | lia |].
    exists d'. split; [done|]. split; [lia|].
    intros r c Hr Hc. rewrite (Hg' r c Hr Hc), (Hg1 r c Hc).
    destruct (Z.eqb_spec r row) as [-> | Hne].
    + destruct (Z.leb_spec (row + 1) row); [lia|].
      destruct (Z.leb_spec row row); [|lia].
      destruct (Z.ltb_spec row (row + Z.of_nat (S n))); [|lia].
      destruct (Z.leb_spec 0 c); [|lia].
      destruct (Z.ltb_spec c (0 + Z.of_nat (length src))); [|lia].
      cbn [andb]. f_equal. unfold src.
      rewrite get_float_subarray by lia. f_equal. unfold srcStart. lia.
    + cbn [andb].
      destruct (Z.leb_spec (row + 1) r), (Z.leb_spec row r); try lia; cbn [andb];
        [|done].
      destruct (Z.ltb_spec r (row + 1 + Z.of_nat n)),
        (Z.ltb_spec r (row + Z.of_nat (S n))); try lia; done.
Qed.

Lemma typed_get_any (k : float_kind) (d : list number) (j : Z) :
  Forall (fun v => element k v = v) d -> 0 <= j < Z.of_nat (length d) ->
  element k (get d j) = get d j.
Proof.
  intros Ht Hj. pose proof (lookup_get d j Hj) as Hl.
  exact (Forall_lookup_1 _ _ _ _ Ht Hl).
Qed.

Lemma getPixel_in_bounds (b : t) (x y : Z) :
  0 <= x < width b -> 0 <= y < height b ->
  getPixel b x y =
  Ok (get (data b) (y * (width b * 4) + (x * 4 + 0)),
      get (data b) (y * (width b * 4) + (x * 4 + 1)),
      get (data b) (y * (width b * 4) + (x * 4 + 2)),
      get (data b) (y * (width b * 4) + (x * 4 + 3))).
Proof.
  intros Hx Hy. unfold getPixel. rewrite offset_in_bounds by done. cbn [bind].
  replace (y * (width b * 4) + (x * 4 + 0)) with ((y * width b + x) * 4) by lia.
  replace (y * (width b * 4) + (x * 4 + 1)) with ((y * width b + x) * 4 + 1) by lia.
  replace (y * (width b * 4) + (x * 4 + 2)) with ((y * width b + x) * 4 + 2) by lia.
  replace (y * (width b * 4) + (x * 4 + 3)) with ((y * width b + x) * 4 + 3) by lia.
  done.
Qed.

Lemma new_Ok (w h : Z) (d : ColorDepth) :
  0 < w -> 0 < h -> new w h d = Ok (mk w h d (replicate (Z.to_nat (w * h * 4)) zero)).
Proof.
  intros Hw Hh. unfold new, construct, allocate.
  destruct (Z.leb_spec w 0); [lia|]. destruct (Z.leb_spec h 0); [lia|]. done.
Qed.

Lemma getRegion_data (b : t) (x y w h : Z) :
  wf b -> 0 <= x -> 0 <= y -> 0 < w -> 0 < h ->
  x + w <= width b -> y + h <= height b ->
  exists d',
    getRegion b x y w h = Ok (mk w h (depth b) d') /\
    Z.of_nat (length d') = w * h * 4 /\
    forall r c, 0 <= r < h -> 0 <= c < w * 4 ->
      get d' (r * (w * 4) + c) =
      element (kind_of (depth b))
        (get (data b) ((y + r) * (width b * 4) + (x * 4 + c))).
Proof.
  intros Hwf Hx Hy Hw Hh Hxw Hyh.
  unfold getRegion.
  destruct (Z.ltb_spec x 0); [lia|]. destruct (Z.ltb_spec y 0); [lia|].
  destruct (Z.gtb_spec (x + w) (width b)); [lia|].
  destruct (Z.gtb_spec (y + h) (height b)); [lia|].
  destruct (Z.leb_spec w 0); [lia|]. destruct (Z.leb_spec h 0); [lia|].
  cbn [orb]. rewrite new_Ok by done. cbn [bind data].
  destruct (getRegion_loop_spec b x y w h (Z.to_nat h) 0
              (replicate (Z.to_nat (w * h * 4)) zero))
    as (d' & -> & Hl' & Hg'); try done; try lia.
  { rewrite length_replicate. lia. }
  rewrite length_replicate in Hl'. cbn [bind].
  exists d'. split; [done|]. split; [lia|].
  intros r c Hr Hc. rewrite Hg' by done.
  destruct (Z.leb_spec 0 r); [|lia].
  destruct (Z.ltb_spec r (0 + Z.of_nat (Z.to_nat h))); [|lia]. done.
Qed.

(** X3: [getRegion] on a rectangle inside the buffer: a new buffer of the
    rectangle's size holding the pixels of the rectangle. *)
Theorem getRegion_pixels (b : t) (x y w h : Z) :
  wf b -> typed b -> 0 <= x -> 0 <= y -> 0 < w -> 0 < h ->
  x + w <= width b -> y + h <= height b ->
  exists region,
    getRegion b x y w h = Ok region /\
    wf region /\ typed region /\
    width region = w /\ height region = h /\ depth region = depth b /\
    forall i j, 0 <= i < w -> 0 <= j < h ->
      getPixel region i j = getPixel b (x + i) (y + j).
Proof.
  intros Hwf Ht Hx Hy Hw Hh Hxw Hyh.
  pose proof Hwf as (HW & HH & Hlen).
  unfold getRegion.
  destruct (Z.ltb_spec x 0); [lia|]. destruct (Z.ltb_spec y 0); [lia|].
  destruct (Z.gtb_spec (x + w) (width b)); [lia|].
  destruct (Z.gtb_spec (y + h) (height b)); [lia|].
  destruct (Z.leb_spec w 0); [lia|]. destruct (Z.leb_spec h 0); [lia|].
  cbn [orb]. rewrite new_Ok by done. cbn [bind data].
  destruct (getRegion_loop_spec b x y w h (Z.to_nat h) 0
              (replicate (Z.to_nat (w * h * 4)) zero))
    as (d' & -> & Hl' & Hg'); try done; try lia.
  { rewrite length_replicate. lia. }
  rewrite length_replicate in Hl'. cbn [bind].
  assert (Hin : forall r c, 0 <= r < h -> 0 <= c < w * 4 ->
            get d' (r * (w * 4) + c) =
            get (data b) ((y + r) * (width b * 4) + (x * 4 + c))).
  { intros r c Hr Hc. rewrite Hg' by done.
    destruct (Z.leb_spec 0 r); [|lia].
    destruct (Z.ltb_spec r (0 + Z.of_nat (Z.to_nat h))); [|lia]. cbn [andb].
    apply typed_get; [done|]. rewrite Hlen. nia. }
  eexists. split; [done|].
  split; [unfold wf; cbn [with_data width height data]; lia|].
  split.
  { unfold typed. cbn [with_data depth data].
    apply Forall_lookup_2. intros i v Hi.
    assert (Hlt : (i < length d')%nat) by (apply lookup_lt_is_Some_1; eauto).
    destruct (index_rows (w * 4) (Z.of_nat i)) as (r & c & Hrc & Hc & Hr); [lia..|].
    assert (r < h) by nia.
    pose proof (lookup_get d' (Z.of_nat i) ltac:(lia)) as Hv.
    rewrite Nat2Z.id, Hi in Hv. injection Hv as ->.
    rewrite Hrc, Hin by lia. apply typed_get; [done|]. rewrite Hlen. nia. }
  cbn [with_data width height depth data]. split; [done|]. split; [done|].
  split; [done|].
  intros i j Hi Hj.
  rewrite (getPixel_in_bounds b) by lia.
  rewrite getPixel_in_bounds by (cbn; lia). cbn [data width].
  rewrite !Hin by lia.
  replace ((x + i) * 4 + 0) with (x * 4 + (i * 4 + 0)) by lia.
  replace ((x + i) * 4 + 1) with (x * 4 + (i * 4 + 1)) by lia.
  replace ((x + i) * 4 + 2) with (x * 4 + (i * 4 + 2)) by lia.
  replace ((x + i) * 4 + 3) with (x * 4 + (i * 4 + 3)) by lia.
  done.
Qed.

(** X4: [getRegion] throws a RangeError exactly when the rectangle is not
    inside the buffer or is empty, the bounds being tested first. *)
Theorem getRegion_RangeError (b : t) (x y w h : Z) :
  wf b ->
  ((exists region, getRegion b x y w h = Ok region) <->
   0 <= x /\ 0 <= y /\ 0 < w /\ 0 < h /\ x + w <= width b /\ y + h <= height b) /\
  (x < 0 \/ y < 0 \/ width b < x + w \/ height b < y + h ->
   getRegion b x y w h = Throw (RangeError "Region exceeds buffer bounds")) /\
  (0 <= x -> 0 <= y -> x + w <= width b -> y + h <= height b -> w <= 0 \/ h <= 0 ->
   getRegion b x y w h = Throw (RangeError "Region dimensions must be positive")).
Proof.
  intros Hwf.
  assert (Hbounds : x < 0 \/ y < 0 \/ width b < x + w \/ height b < y + h ->
    getRegion b x y w h = Throw (RangeError "Region exceeds buffer bounds")).
  { intros H. unfold getRegion.
    destruct (Z.ltb_spec x 0); [done|]. destruct (Z.ltb_spec y 0); [done|].
    destruct (Z.gtb_spec (x + w) (width b)); [done|].
    destruct (Z.gtb_spec (y + h) (height b)); [done|]. lia. }
  assert (Hempty : 0 <= x -> 0 <= y -> x + w <= width b -> y + h <= height b ->
    w <= 0 \/ h <= 0 ->
    getRegion b x y w h = Throw (RangeError "Region dimensions must be positive")).
  { intros Hx Hy Hxw Hyh H. unfold getRegion.
    destruct (Z.ltb_spec x 0); [lia|]. destruct (Z.ltb_spec y 0); [lia|].
    destruct (Z.gtb_spec (x + w) (width b)); [lia|].
    destruct (Z.gtb_spec (y + h) (height b)); [lia|]. cbn [orb].
    destruct (Z.leb_spec w 0); [done|]. destruct (Z.leb_spec h 0); [done|]. lia. }
  split; [|done]. split.
  - intros [region Hok].
    destruct (Z.lt_ge_cases x 0); [rewrite Hbounds in Hok by lia; done|].
    destruct (Z.lt_ge_cases y 0); [rewrite Hbounds in Hok by lia; done|].
    destruct (Z.lt_ge_cases (width b) (x + w)); [rewrite Hbounds in Hok by lia; done|].
    destruct (Z.lt_ge_cases (height b) (y + h)); [rewrite Hbounds in Hok by lia; done|].
    destruct (Z.le_gt_cases w 0); [rewrite Hempty in Hok by lia; done|].
    destruct (Z.le_gt_cases h 0); [rewrite Hempty in Hok by lia; done|].
    lia.
  - intros (Hx & Hy & Hw & Hh & Hxw & Hyh).
    unfold getRegion.
    destruct (Z.ltb_spec x 0); [lia|]. destruct (Z.ltb_spec y 0); [lia|].
    destruct (Z.gtb_spec (x + w) (width b)); [lia|].
    destruct (Z.gtb_spec (y + h) (height b)); [lia|].
    destruct (Z.leb_spec w 0); [lia|]. destruct (Z.leb_spec h 0); [lia|].
    cbn [orb]. rewrite new_Ok by done. cbn [bind data].
    destruct (getRegion_loop_spec b x y w h (Z.to_nat h) 0
                (replicate (Z.to_nat (w * h * 4)) zero))
      as (d' & -> & _); try done; try lia.
    { rewrite length_replicate. lia. }
    cbn [bind]. eauto.
Qed.

Lemma putRegion_loop_spec (b region : t) (x y : Z) (n : nat) (row : Z)
    (d : list number) :
  wf region -> 0 < width b -> 0 <= x -> 0 <= y ->
  x + width region <= width b -> y + height region <= height b ->
  0 <= row -> row + Z.of_nat n <= height region ->
  Z.of_nat (length d) = width b * height b * 4 ->
  exists d',
    putRegion_loop b region x y n row d = Ok d' /\ length d' = length d /\
    forall r c, 0 <= c < width b * 4 ->
      get d' (r * (width b * 4) + c) =
      if (y + row <=? r) && (r <? y + row + Z.of_nat n)
         && (x * 4 <=? c) && (c <? x * 4 + width region * 4)
      then element (kind_of (depth b))
             (get (data region) ((r - y) * (width region * 4) + (c - x * 4)))
      else get d (r * (width b * 4) + c).
Proof.
  intros (Hrw & Hrh & Hrlen) HW Hx Hy Hxw Hyh. revert row d.
  induction n as [|n IH]; intros row d Hrow Hn Hd.
  - exists d. split; [done|]. split; [done|]. intros r c Hc.
    destruct (Z.leb_spec (y + row) r), (Z.ltb_spec r (y + row + Z.of_nat 0));
      try done; lia.
  - cbn [putRegion_loop].
    set (srcStart := row * width region * 4).
    assert (Hs0 : 0 <= srcStart) by (unfold srcStart; nia).
    assert (Hs1 : srcStart + width region * 4 <= Z.of_nat (length (data region))).
    { rewrite Hrlen. unfold srcStart. nia. }
    pose proof (length_float_subarray (data region) srcStart
                  (srcStart + width region * 4) ltac:(lia) Hs1) as Hsl.
    set (src := float_subarray (data region) srcStart (srcStart + width region * 4))
      in *.
    destruct (float_set_row (kind_of (depth b)) d src (width b * 4) (y + row) (x * 4))
      as (d1 & Hset & Hl1 & Hg1); [lia | lia | lia | nia |].
    replace (((y + row) * width b + x) * 4)
      with ((y + row) * (width b * 4) + x * 4) by lia.
    rewrite Hset. cbn [bind].
    destruct (IH (row + 1) d1) as (d' & Hloop & Hl' & Hg'); [lia | lia | lia |].
    exists d'. split; [done|]. split; [lia|].
    intros r c Hc. rewrite (Hg' r c Hc), (Hg1 r c Hc).
    destruct (Z.eqb_spec r (y + row)) as [-> | Hne].
    + destruct (Z.leb_spec (y + (row + 1)) (y + row)); [lia|].
      destruct (Z.leb_spec (y + row) (y + row)); [|lia].
      destruct (Z.ltb_spec (y + row) (y + row + Z.of_nat (S n))); [|lia].
      cbn [andb].
      destruct (Z.leb_spec (x * 4) c); cbn [andb]; [|done].
      rewrite Hsl.
      replace (srcStart + width region * 4 - srcStart) with (width region * 4) by lia.
      destruct (Z.ltb_spec c (x * 4 + width region * 4)); [|done].
      f_equal. unfold src. rewrite get_float_subarray by lia.
      f_equal. unfold srcStart. lia.
    + cbn [andb].
      destruct (Z.leb_spec (y + (row + 1)) r), (Z.leb_spec (y + row) r); try lia;
        cbn [andb]; [|done].
      destruct (Z.ltb_spec r (y + (row + 1) + Z.of_nat n)),
        (Z.ltb_spec r (y + row + Z.of_nat (S n))); try lia; done.
Qed.

Lemma putRegion_data (b region : t) (x y : Z) :
  wf b -> wf region -> 0 <= x -> 0 <= y ->
  x + width region <= width b -> y + height region <= height b ->
  exists d',
    putRegion b x y region = Ok (with_data b d') /\
    length d' = length (data b) /\
    forall r c, 0 <= c < width b * 4 ->
      get d' (r * (width b * 4) + c) =
      if (y <=? r) && (r <? y + height region)
         && (x * 4 <=? c) && (c <? x * 4 + width region * 4)
      then element (kind_of (depth b))
             (get (data region) ((r - y) * (width region * 4) + (c - x * 4)))
      else get (data b) (r * (width b * 4) + c).
Proof.
  intros Hwf Hwfr Hx Hy Hxw Hyh.
  pose proof Hwf as (HW & HH & Hlen). pose proof Hwfr as (Hrw & Hrh & Hrlen).
  unfold putRegion.
  destruct (Z.ltb_spec x 0); [lia|]. destruct (Z.ltb_spec y 0); [lia|].
  destruct (Z.gtb_spec (x + width region) (width b)); [lia|].
  destruct (Z.gtb_spec (y + height region) (height b)); [lia|].
  cbn [orb].
  destruct (putRegion_loop_spec b region x y (Z.to_nat (height region)) 0 (data b))
    as (d' & -> & Hl' & Hg'); try done; try lia.
  cbn [bind]. exists d'. split; [done|]. split; [done|].
  intros r c Hc. rewrite Hg' by done.
  replace (y + 0) with y by lia.
  replace (y + Z.of_nat (Z.to_nat (height region))) with (y + height region) by lia.
  done.
Qed.

(** X5: [putRegion] of a region that fits: the rectangle holds the pixels
    of the region, converted to the buffer's channel width; every
    other pixel is unchanged. *)
Theorem putRegion_pixels (b region : t) (x y : Z) :
  wf b -> wf region -> 0 <= x -> 0 <= y ->
  x + width region <= width b -> y + height region <= height b ->
  exists b',
    putRegion b x y region = Ok b' /\
    wf b' /\ width b' = width b /\ height b' = height b /\ depth b' = depth b /\
    (forall i j r g bl a,
       0 <= i < width region -> 0 <= j < height region ->
       getPixel region i j = Ok (r, g, bl, a) ->
       getPixel b' (x + i) (y + j) =
       Ok (element (kind_of (depth b)) r, element (kind_of (depth b)) g,
           element (kind_of (depth b)) bl, element (kind_of (depth b)) a)) /\
    (forall x' y',
       0 <= x' < width b -> 0 <= y' < height b ->
       ~ (x <= x' < x + width region /\ y <= y' < y + height region) ->
       getPixel b' x' y' = getPixel b x' y').
Proof.
  intros Hwf Hwfr Hx Hy Hxw Hyh.
  pose proof Hwf as (HW & HH & Hlen). pose proof Hwfr as (Hrw & Hrh & Hrlen).
  unfold putRegion.
  destruct (Z.ltb_spec x 0); [lia|]. destruct (Z.ltb_spec y 0); [lia|].
  destruct (Z.gtb_spec (x + width region) (width b)); [lia|].
  destruct (Z.gtb_spec (y + height region) (height b)); [lia|].
  cbn [orb].
  destruct (putRegion_loop_spec b region x y (Z.to_nat (height region)) 0 (data b))
    as (d' & -> & Hl' & Hg'); try done; try lia.
  cbn [bind]. eexists. split; [done|].
  split; [unfold wf; cbn [with_data width height data]; lia|].
  cbn [with_data width height depth data]. do 3 (split; [done|]).
  split.
  - intros i j r g bl a Hi Hj Hpx.
    rewrite getPixel_in_bounds in Hpx by done. injection Hpx as <- <- <- <-.
    rewrite getPixel_in_bounds by (cbn; lia). cbn [data width].
    rewrite !Hg' by lia.
    destruct (Z.leb_spec (y + 0) (y + j)); [|lia].
    destruct (Z.ltb_spec (y + j) (y + 0 + Z.of_nat (Z.to_nat (height region)))); [|lia].
    cbn [andb].
    repeat match goal with
    | |- context [?a <=? ?c] => destruct (Z.leb_spec a c); [|lia]
    | |- context [?c <? ?a] => destruct (Z.ltb_spec c a); [|lia]
    end.
    cbn [andb].
    replace (y + j - y) with j by lia.
    replace ((x + i) * 4 + 0 - x * 4) with (i * 4 + 0) by lia.
    replace ((x + i) * 4 + 1 - x * 4) with (i * 4 + 1) by lia.
    replace ((x + i) * 4 + 2 - x * 4) with (i * 4 + 2) by lia.
    replace ((x + i) * 4 + 3 - x * 4) with (i * 4 + 3) by lia.
    done.
  - intros x' y' Hx' Hy' Hout.
    rewrite (getPixel_in_bounds b) by lia.
    rewrite getPixel_in_bounds by (cbn; lia). cbn [data width].
    rewrite !Hg' by lia.
    assert (Hcase : forall ch, 0 <= ch < 4 ->
      (y + 0 <=? y') && (y' <? y + 0 + Z.of_nat (Z.to_nat (height region)))
      && (x * 4 <=? x' * 4 + ch) && (x' * 4 + ch <? x * 4 + width region * 4) = false).
    { intros ch Hch.
      destruct (Z.leb_spec (y + 0) y'); [|done].
      destruct (Z.ltb_spec y' (y + 0 + Z.of_nat (Z.to_nat (height region)))); [|done].
      destruct (Z.leb_spec (x * 4) (x' * 4 + ch)); [|done].
      destruct (Z.ltb_spec (x' * 4 + ch) (x * 4 + width region * 4)); [|done].
      lia. }
    rewrite !Hcase by lia. done.
Qed.

(** X6: reading back the rectangle just written returns the region. *)
Theorem putRegion_getRegion (b region : t) (x y : Z) :
  wf b -> wf region -> typed region -> depth region = depth b ->
  0 <= x -> 0 <= y ->
  x + width region <= width b -> y + height region <= height b ->
  exists b',
    putRegion b x y region = Ok b' /\
    getRegion b' x y (width region) (height region) = Ok region.
Proof.
  intros Hwf Hwfr Htr Hdep Hx Hy Hxw Hyh.
  pose proof Hwf as (HW & HH & Hlen). pose proof Hwfr as (Hrw & Hrh & Hrlen).
  destruct (putRegion_data b region x y) as (d1 & Hput & Hl1 & Hg1); try done.
  exists (with_data b d1). split; [done|].
  assert (Hwf' : wf (with_data b d1)).
  { unfold wf. cbn [with_data width height data]. lia. }
  destruct (getRegion_data (with_data b d1) x y (width region) (height region))
    as (d2 & Hget & Hl2 & Hg2); try done.
  rewrite Hget. cbn [with_data depth data width] in *.
  destruct region as [rw rh rd rdata]. cbn [width height depth data] in *.
  subst rd. do 2 f_equal.
  apply list_eq_get; [lia|].
  intros j Hj.
  destruct (index_rows (rw * 4) j) as (r & c & -> & Hc & Hr); [lia..|].
  assert (r < rh) by nia.
  rewrite Hg2, Hg1 by lia.
  repeat match goal with
  | |- context [?a <=? ?c] => destruct (Z.leb_spec a c); [|lia]
  | |- context [?c <? ?a] => destruct (Z.ltb_spec c a); [|lia]
  end.
  cbn [andb].
  replace (y + r - y) with r by lia. replace (x * 4 + c - x * 4) with c by lia.
  unfold typed in Htr. cbn [depth data] in Htr.
  rewrite !(typed_get_any _ rdata) by (done || nia). done.
Qed.

(** X7: writing a rectangle back where it was read leaves the buffer as it
    was. *)
Theorem getRegion_putRegion (b : t) (x y w h : Z) :
  wf b -> typed b -> 0 <= x -> 0 <= y -> 0 < w -> 0 < h ->
  x + w <= width b -> y + h <= height b ->
  exists region,
    getRegion b x y w h = Ok region /\ putRegion b x y region = Ok b.
Proof.
  intros Hwf Ht Hx Hy Hw Hh Hxw Hyh.
  pose proof Hwf as (HW & HH & Hlen).
  destruct (getRegion_data b x y w h) as (d1 & Hget & Hl1 & Hg1); try done.
  exists (mk w h (depth b) d1). split; [done|].
  destruct (putRegion_data b (mk w h (depth b) d1) x y)
    as (d2 & Hput & Hl2 & Hg2); try done.
  rewrite Hput. cbn [width height data] in *.
  f_equal. destruct b as [W H dep d]. unfold with_data.
  cbn [width height depth data] in *. f_equal.
  apply list_eq_get; [done|].
  intros j Hj.
  destruct (index_rows (W * 4) j) as (r & c & -> & Hc & Hr); [lia..|].
  assert (r < H) by nia.
  rewrite Hg2 by lia.
  destruct ((y <=? r) && (r <? y + h) && (x * 4 <=? c) && (c <? x * 4 + w * 4))
    eqn:Hin; [|done].
  rewrite !andb_true_iff in Hin. destruct Hin as [[[H1 H2] H3] H4].
  apply Z.leb_le in H1, H3. apply Z.ltb_lt in H2, H4.
  rewrite Hg1 by lia.
  replace (y + (r - y)) with r by lia.
  replace (x * 4 + (c - x * 4)) with c by lia.
  unfold typed in Ht. cbn [depth data] in Ht.
  rewrite !(typed_get_any _ d) by (done || lia). done.
Qed.

End RegionFacts.

Module BufferFacts.
Import JS ColorBuffer ArrayFacts TypedArrayFacts ColorBufferFacts RegionFacts.

Lemma get_set4 (k : float_kind) (d : list number) (i : Z) (r g bl a : number) :
  0 <= i -> i + 3 < Z.of_nat (length d) ->
  let d' := JS.set k (JS.set k (JS.set k (JS.set k d i r) (i + 1) g) (i + 2) bl)
              (i + 3) a in
  length d' = length d /\
  get d' i = element k r /\ get d' (i + 1) = element k g /\
  get d' (i + 2) = element k bl /\ get d' (i + 3) = element k a /\
  forall j, j < i \/ i + 3 < j -> get d' j = get d j.
Proof.
  intros Hi Hlen d'. subst d'.
  split; [by rewrite !length_set|].
  repeat split;
    try (repeat first
      [ rewrite get_set_eq by (rewrite ?length_set; lia)
      | rewrite get_set_ne by lia ]; done).
  intros j Hj. rewrite !get_set_ne by lia. done.
Qed.

Lemma clear_loop_spec (k : float_kind) (r g bl a : number) (n : nat) (i : Z)
    (d : list number) :
  0 <= i -> i + 4 * Z.of_nat n <= Z.of_nat (length d) ->
  length (clear_loop k r g bl a n i d) = length d /\
  (forall j, j < i -> get (clear_loop k r g bl a n i d) j = get d j) /\
  (forall p, 0 <= p < Z.of_nat n ->
     get (clear_loop k r g bl a n i d) (i + 4 * p) = element k r /\
     get (clear_loop k r g bl a n i d) (i + 4 * p + 1) = element k g /\
     get (clear_loop k r g bl a n i d) (i + 4 * p + 2) = element k bl /\
     get (clear_loop k r g bl a n i d) (i + 4 * p + 3) = element k a).
Proof.
  revert i d. induction n as [|n IH]; intros i d Hi Hlen.
  - cbn [clear_loop]. split; [done|]. split; [done|]. intros p Hp. lia.
  - cbn [clear_loop].
    destruct (get_set4 k d i r g bl a Hi ltac:(lia))
      as (Hl4 & H0 & H1 & H2 & H3 & Hout).
    set (d4 := JS.set k _ (i + 3) a) in *.
    destruct (IH (i + 4) d4 ltac:(lia) ltac:(lia)) as (Hl & Hlow & Hpix).
    split; [lia|]. split.
    + intros j Hj. rewrite Hlow by lia. apply Hout. lia.
    + intros p Hp. destruct (Z.eq_dec p 0) as [-> | Hne].
      * replace (i + 4 * 0) with i by lia. rewrite !Hlow by lia. done.
      * specialize (Hpix (p - 1) ltac:(lia)).
        replace (i + 4 + 4 * (p - 1)) with (i + 4 * p) in Hpix by lia. done.
Qed.

(** X2: [clear] sets every pixel to the given colour, as the array stores
    it, and keeps the dimensions. *)
Theorem clear_pixels (b : t) (r g bl a : number) :
  wf b ->
  wf (clear b r g bl a) /\
  width (clear b r g bl a) = width b /\
  height (clear b r g bl a) = height b /\
  depth (clear b r g bl a) = depth b /\
  forall x y, 0 <= x < width b -> 0 <= y < height b ->
    getPixel (clear b r g bl a) x y =
    Ok (element (kind_of (depth b)) r, element (kind_of (depth b)) g,
        element (kind_of (depth b)) bl, element (kind_of (depth b)) a).
Proof.
  intros (HW & HH & Hlen). unfold clear.
  assert (Hn : (Z.of_nat (length (data b)) + 3) / 4 = width b * height b).
  { rewrite Hlen. replace (width b * height b * 4 + 3)
      with (3 + (width b * height b) * 4) by lia.
    rewrite Z.div_add by lia. done. }
  rewrite Hn.
  destruct (clear_loop_spec (kind_of (depth b)) r g bl a
              (Z.to_nat (width b * height b)) 0 (data b))
    as (Hl & _ & Hpix); [lia | lia |].
  split; [unfold wf; cbn [with_data width height data]; lia|].
  cbn [with_data width height depth data]. do 3 (split; [done|]).
  intros x y Hx Hy. unfold getPixel.
  rewrite offset_in_bounds by (cbn; lia). cbn [bind with_data data width].
  destruct (Hpix (y * width b + x) ltac:(nia)) as (H0 & H1 & H2 & H3).
  replace (0 + 4 * (y * width b + x)) with ((y * width b + x) * 4) in * by lia.
  rewrite H0, H1, H2, H3. done.
Qed.

(** X10: on in-bounds coordinates the unchecked blend is the checked one. *)
Theorem blendPixelUnchecked_agrees (b : t) (x y : Z) (r g bl a : number)
    (mode : BlendMode) :
  0 <= x < width b -> 0 <= y < height b ->
  blendPixel b x y r g bl a mode = Ok (blendPixelUnchecked b x y r g bl a mode).
Proof.
  intros Hx Hy. unfold blendPixel, blendPixelUnchecked.
  rewrite offset_in_bounds by done. cbn [bind].
  destruct mode;
    by destruct (strict_eq (a + get (data b) ((y * width b + x) * 4 + 3) * (1 - a)) 0).
Qed.

Lemma get_replicate_zero (n : nat) (j : Z) :
  0 <= j < Z.of_nat n -> get (replicate n zero) j = zero.
Proof.
  intros Hj. apply get_lookup; [lia|]. apply lookup_replicate_2. lia.
Qed.

Lemma construct_inv (refusal : float_kind -> Z -> option string) (w h : Z)
    (d : ColorDepth) (b : t) :
  construct refusal w h d = Ok b ->
  0 < w /\ 0 < h /\ refusal (kind_of d) (w * h * 4) = None /\
  b = mk w h d (replicate (Z.to_nat (w * h * 4)) zero).
Proof.
  unfold construct, allocate.
  destruct (Z.leb_spec w 0); [done|]. destruct (Z.leb_spec h 0); [done|].
  cbv zeta. destruct (refusal (kind_of d) (w * h * 4)); [done|].
  cbn [bind]. by intros [= <-].
Qed.

(** X1: the constructor returns a buffer exactly when width and height
    are positive and the engine grants the array of [width * height * 4]
    elements; every failure is a RangeError, the engine's own when it
    refuses the array; and the buffer returned is transparent black, of
    the requested dimensions and channel width. *)
Theorem new_buffer (refusal : float_kind -> Z -> option string) (w h : Z)
    (d : ColorDepth) :
  ((exists b, construct refusal w h d = Ok b) <->
   0 < w /\ 0 < h /\ refusal (kind_of d) (w * h * 4) = None) /\
  (forall e, construct refusal w h d = Throw e -> exists msg, e = RangeError msg) /\
  (forall msg, 0 < w -> 0 < h -> refusal (kind_of d) (w * h * 4) = Some msg ->
     construct refusal w h d = Throw (RangeError msg)) /\
  (forall b, construct refusal w h d = Ok b ->
     wf b /\ typed b /\ width b = w /\ height b = h /\ depth b = d /\
     byteLength b = w * h * 4 * match d with D32 => 4 | D64 => 8 end /\
     forall x y, 0 <= x < w -> 0 <= y < h ->
       getPixel b x y = Ok (0, 0, 0, 0)%float).
Proof.
  split; [|split; [|split]].
  - split.
    + intros [b Hb]. by destruct (construct_inv _ _ _ _ _ Hb) as (? & ? & ? & _).
    + intros (Hw & Hh & Hr). unfold construct, allocate. cbv zeta. rewrite Hr.
      destruct (Z.leb_spec w 0); [lia|]. destruct (Z.leb_spec h 0); [lia|].
      by eexists.
  - intros e. unfold construct, allocate. cbv zeta.
    destruct (w <=? 0); [intros [= <-]; by eexists|].
    destruct (h <=? 0); [intros [= <-]; by eexists|].
    destruct (refusal (kind_of d) (w * h * 4)); [intros [= <-]; by eexists | done].
  - intros msg Hw Hh Hr. unfold construct, allocate. cbv zeta. rewrite Hr.
    destruct (Z.leb_spec w 0); [lia|]. destruct (Z.leb_spec h 0); [lia|]. done.
  - intros b Hb. destruct (construct_inv _ _ _ _ _ Hb) as (Hw & Hh & _ & ->).
    assert (Hwf : wf (mk w h d (replicate (Z.to_nat (w * h * 4)) zero))).
    { unfold wf. cbn [width height data]. rewrite length_replicate. lia. }
    split; [done|]. split.
    { unfold typed. cbn [depth data]. apply Forall_replicate. by destruct d. }
    cbn [width height depth]. do 3 (split; [done|]).
    split; [unfold byteLength; cbn [data depth]; rewrite length_replicate; lia|].
    intros x y Hx Hy. unfold getPixel.
    rewrite offset_in_bounds by (cbn; lia). cbn [bind data width].
    rewrite !get_replicate_zero by nia. done.
Qed.

Lemma setPixelUnchecked_sequence_spec (floats : list number) (y startX : Z)
    (m : nat) (p0 : Z) (b : t) :
  let base := (y * width b + startX) * 4 in
  0 <= p0 -> 0 <= base ->
  base + 4 * (p0 + Z.of_nat m) <= Z.of_nat (length (data b)) ->
  let b' := setPixelUnchecked_sequence b y startX floats (seqZ p0 (Z.of_nat m)) in
  width b' = width b /\ height b' = height b /\ depth b' = depth b /\
  length (data b') = length (data b) /\
  forall j,
    get (data b') j =
    if (base + 4 * p0 <=? j) && (j <? base + 4 * (p0 + Z.of_nat m))
    then element (kind_of (depth b)) (get floats (j - base))
    else get (data b) j.
Proof.
  revert p0 b. induction m as [|m IH]; intros p0 b base Hp0 Hbase Hlen.
  - change (seqZ p0 (Z.of_nat 0)) with (@nil Z). cbn [setPixelUnchecked_sequence].
    do 4 (split; [done|]). intros j.
    destruct (Z.leb_spec (base + 4 * p0) j),
      (Z.ltb_spec j (base + 4 * (p0 + Z.of_nat 0))); try done; lia.
  - rewrite seqZ_cons by lia. cbn [setPixelUnchecked_sequence].
    replace (Z.pred (Z.of_nat (S m))) with (Z.of_nat m) by lia.
    set (b1 := setPixelUnchecked b (startX + p0) y _ _ _ _).
    assert (Hb1 : width b1 = width b /\ height b1 = height b /\ depth b1 = depth b)
      by done.
    destruct Hb1 as (Hw1 & Hh1 & Hd1).
    destruct (get_set4 (kind_of (depth b)) (data b) (base + 4 * p0)
                (get floats (p0 * 4)) (get floats (p0 * 4 + 1))
                (get floats (p0 * 4 + 2)) (get floats (p0 * 4 + 3)))
      as (Hl4 & H0 & H1 & H2 & H3 & Hout); [lia | lia |].
    assert (Hdata1 : data b1 =
      JS.set (kind_of (depth b))
        (JS.set (kind_of (depth b))
           (JS.set (kind_of (depth b))
              (JS.set (kind_of (depth b)) (data b) (base + 4 * p0)
                 (get floats (p0 * 4)))
              (base + 4 * p0 + 1) (get floats (p0 * 4 + 1)))
           (base + 4 * p0 + 2) (get floats (p0 * 4 + 2)))
        (base + 4 * p0 + 3) (get floats (p0 * 4 + 3))).
    { unfold b1, setPixelUnchecked, store. cbn [with_data data].
      replace ((y * width b + (startX + p0)) * 4) with (base + 4 * p0)
        by (unfold base; lia). done. }
    cbv zeta in Hl4, H0, H1, H2, H3, Hout. rewrite <- Hdata1 in *.
    specialize (IH (Z.succ p0) b1). cbv zeta in IH. rewrite Hw1, Hd1 in IH.
    fold base in IH.
    destruct IH as (Hw' & Hh' & Hd' & Hl' & Hg'); [lia | lia | lia |].
    split; [congruence|]. split; [congruence|]. split; [congruence|].
    split; [congruence|].
    intros j. rewrite Hg'.
    destruct (Z.leb_spec (base + 4 * Z.succ p0) j) as [Hlo | Hlo].
    + destruct (Z.leb_spec (base + 4 * p0) j); [|lia]. cbn [andb].
      destruct (Z.ltb_spec j (base + 4 * (Z.succ p0 + Z.of_nat m))),
        (Z.ltb_spec j (base + 4 * (p0 + Z.of_nat (S m)))); try lia; [done|].
      apply Hout. lia.
    + cbn [andb].
      destruct (Z.leb_spec (base + 4 * p0) j) as [Hlo' | Hlo']; cbn [andb].
      * destruct (Z.ltb_spec j (base + 4 * (p0 + Z.of_nat (S m)))); [|lia].
        assert (Hj : j = base + 4 * p0 \/ j = base + 4 * p0 + 1 \/
                     j = base + 4 * p0 + 2 \/ j = base + 4 * p0 + 3) by lia.
        destruct Hj as [-> | [-> | [-> | ->]]].
        -- rewrite H0. do 2 f_equal. lia.
        -- rewrite H1. do 2 f_equal. lia.
        -- rewrite H2. do 2 f_equal. lia.
        -- rewrite H3. do 2 f_equal. lia.
      * apply Hout. lia.
Qed.

(** X8: the bulk row write leaves exactly the buffer that the scalar
    writes of the same pixels leave. *)
Theorem setRowUnchecked_refines_setPixel (b : t) (y startX pixelCount : Z)
    (floats : list number) :
  wf b -> 0 <= y < height b -> 0 <= startX -> 0 <= pixelCount ->
  startX + pixelCount <= width b ->
  pixelCount * 4 <= Z.of_nat (length floats) ->
  setRowUnchecked b y startX pixelCount floats =
  Ok (setPixelUnchecked_sequence b y startX floats (pixel_indices pixelCount)).
Proof.
  intros (HW & HH & Hlen) Hy Hx Hn Hxn Hfl.
  unfold setRowUnchecked, pixel_indices.
  set (base := (y * width b + startX) * 4).
  assert (Hbase : 0 <= base) by (unfold base; nia).
  assert (Hfit : base + 4 * pixelCount <= Z.of_nat (length (data b))).
  { rewrite Hlen. unfold base. nia. }
  pose proof (length_float_subarray floats 0 (pixelCount * 4) ltac:(lia) Hfl) as Hsl.
  destruct (float_set_spec (kind_of (depth b)) (data b)
              (float_subarray floats 0 (pixelCount * 4)) base)
    as (d' & -> & Hl' & Hg'); [lia | lia |].
  cbn [bind]. f_equal.
  pose proof (setPixelUnchecked_sequence_spec floats y startX
                (Z.to_nat pixelCount) 0 b) as Hseq.
  cbv zeta in Hseq. fold base in Hseq. rewrite Z2Nat.id in Hseq by lia.
  destruct Hseq as (Hw' & Hh' & Hd' & Hls & Hgs); [lia | lia | lia |].
  set (b' := setPixelUnchecked_sequence b y startX floats (seqZ 0 pixelCount)) in *.
  assert (Hdata : d' = data b').
  { apply list_eq_get; [congruence|].
    intros j Hj. rewrite Hg', Hgs, Hsl.
    replace (base + 4 * 0) with base by lia.
    replace (base + (pixelCount * 4 - 0)) with (base + 4 * (0 + pixelCount)) by lia.
    destruct ((base <=? j) && (j <? base + 4 * (0 + pixelCount))) eqn:Hin; [|done].
    rewrite andb_true_iff in Hin. destruct Hin as [H1 H2].
    apply Z.leb_le in H1. apply Z.ltb_lt in H2.
    rewrite get_float_subarray by lia. done. }
  rewrite Hdata. unfold with_data. rewrite <- Hw', <- Hh', <- Hd'.
  by destruct b'.
Qed.

(** X9: the row write is unchecked only by name: a row that runs past the
    end of the array makes the underlying [set] throw. *)
Theorem setRowUnchecked_past_end (b : t) (y startX pixelCount : Z)
    (floats : list number) :
  0 <= pixelCount -> pixelCount * 4 <= Z.of_nat (length floats) ->
  (y * width b + startX) * 4 < 0 \/
  Z.of_nat (length (data b)) < (y * width b + startX + pixelCount) * 4 ->
  setRowUnchecked b y startX pixelCount floats =
  Throw (RangeError "offset is out of bounds").
Proof.
  intros Hn Hfl Hout. unfold setRowUnchecked.
  pose proof (length_float_subarray floats 0 (pixelCount * 4) ltac:(lia) Hfl) as Hsl.
  rewrite float_set_Throw; [done|]. lia.
Qed.

End BufferFacts.

Module BufferWitnesses.
Import JS ColorBuffer Samples RegionFacts BufferFacts.

Lemma wf_quad : wf quad.
Proof. vm_compute. repeat split. Qed.

Lemma typed_quad : typed quad.
Proof. repeat constructor. Qed.

Lemma clear_pixels_witness :
  getPixel (clear quad 0.5 0.25 0.75 1) 1 1 = Ok (0.5, 0.25, 0.75, 1)%float.
Proof.
  destruct (clear_pixels quad 0.5 0.25 0.75 1 wf_quad) as (_ & _ & _ & _ & H).
  apply H; cbn; lia.
Defined.

Lemma getRegion_pixels_witness :
  exists region,
    getRegion quad 1 0 1 2 = Ok region /\
    getPixel region 0 1 = getPixel quad 1 1.
Proof.
  destruct (getRegion_pixels quad 1 0 1 2 wf_quad typed_quad)
    as (region & H & _ & _ & _ & _ & _ & Hp); [cbn; lia..|].
  exists region. split; [exact H|]. apply (Hp 0 1); lia.
Defined.

Lemma getRegion_RangeError_witness :
  getRegion quad 1 1 2 1 = Throw (RangeError "Region exceeds buffer bounds") /\
  getRegion quad 0 0 0 1 = Throw (RangeError "Region dimensions must be positive").
Proof.
  split.
  - destruct (getRegion_RangeError quad 1 1 2 1 wf_quad) as (_ & H & _).
    apply H. cbn. lia.
  - destruct (getRegion_RangeError quad 0 0 0 1 wf_quad) as (_ & _ & H).
    apply H; cbn; lia.
Defined.

Lemma putRegion_pixels_witness :
  exists b',
    putRegion quad 1 1 ghost_pixel = Ok b' /\
    getPixel b' 1 1 = Ok (1, 2, 3, 0)%float /\
    getPixel b' 0 1 = getPixel quad 0 1.
Proof.
  destruct (putRegion_pixels quad ghost_pixel 1 1 wf_quad)
    as (b' & H & _ & _ & _ & _ & Hin & Hout);
    [vm_compute; repeat split | cbn; lia..|].
  exists b'. split; [exact H|]. split.
  - apply (Hin 0 0 1%float 2%float 3%float 0%float);
      [cbn; lia | cbn; lia | reflexivity].
  - apply Hout; cbn; lia.
Defined.

Lemma putRegion_getRegion_witness :
  exists b',
    putRegion quad 1 1 ghost_pixel = Ok b' /\
    getRegion b' 1 1 1 1 = Ok ghost_pixel.
Proof.
  apply (putRegion_getRegion quad ghost_pixel 1 1 wf_quad);
    [vm_compute; repeat split | repeat constructor | reflexivity | cbn; lia..].
Defined.

Lemma getRegion_putRegion_witness :
  exists region,
    getRegion quad 0 1 2 1 = Ok region /\ putRegion quad 0 1 region = Ok quad.
Proof.
  apply (getRegion_putRegion quad 0 1 2 1 wf_quad typed_quad); cbn; lia.
Defined.

Lemma setRowUnchecked_refines_setPixel_witness :
  setRowUnchecked quad 1 0 2 [9; 8; 7; 6; 5; 4; 3; 2]%float =
  Ok (setPixelUnchecked_sequence quad 1 0 [9; 8; 7; 6; 5; 4; 3; 2]%float
        (pixel_indices 2)).
Proof.
  apply (setRowUnchecked_refines_setPixel quad 1 0 2 _ wf_quad); cbn; lia.
Defined.

Lemma setRowUnchecked_past_end_witness :
  setRowUnchecked quad 1 1 2 [9; 8; 7; 6; 5; 4; 3; 2]%float =
  Throw (RangeError "offset is out of bounds").
Proof.
  apply setRowUnchecked_past_end; cbn; lia.
Defined.

Lemma blendPixelUnchecked_agrees_witness :
  blendPixel quad 1 0 0.5 0.5 0.5 0.5 add =
  Ok (blendPixelUnchecked quad 1 0 0.5 0.5 0.5 0.5 add).
Proof.
  apply blendPixelUnchecked_agrees; cbn; lia.
Defined.

End BufferWitnesses.

(** ** Export pipeline *)

Module ExportPipelineFacts.
Import JS ExportPipeline Samples TraceFacts.

Section Host.
Variable Math_pow : number -> number -> number.
Variable encode : PNGExporter.encode_call -> result (list Z).
Variable Number_toString : number -> string.
Variable ExportProgressFn : Type.
Variable invoke : ExportProgressFn -> number -> result unit.

#[local] Abbreviation event := (event ExportProgressFn).
#[local] Abbreviation exportBuffer :=
  (exportBuffer Math_pow encode Number_toString ExportProgressFn invoke).
#[local] Abbreviation call_onProgress := (call_onProgress ExportProgressFn invoke).

Lemma progress_of_Encode (t : list PNGExporter.encode_call) :
  progress_of ExportProgressFn (List.map (Encode ExportProgressFn) t) = [].
Proof. induction t as [|c t IH]; [done | exact IH]. Qed.


Lemma progress_of_app (t1 t2 : list event) :
  progress_of _ (t1 ++ t2) = progress_of _ t1 ++ progress_of _ t2.
Proof. unfold progress_of. apply flat_map_app. Qed.


(** The encoder calls [PNGExporter.export] issues: none when validation
    fails, one otherwise, with the depth and data it was given. *)
Lemma export_calls (data : ToneMapper.int_array) (o : PNGExporter.PNGExportOptions) :
  fst (PNGExporter.export encode Number_toString data o) = [] \/
  fst (PNGExporter.export encode Number_toString data o) =
    [PNGExporter.mkCall (PNGExporter.width o) (PNGExporter.height o) data
       (default 8 (PNGExporter.depth o)) 4].
Proof.
  unfold PNGExporter.export.
  repeat match goal with
         | |- context [if ?c then _ else _] => destruct c; [by left|]
         end.
  right. cbn [bindM emit lift].
  destruct (encode _) as [png|e]; cbn; [|done].
  destruct (PNGExporter.injectPHYs png _); done.
Qed.

Lemma export_calls_Ok (data : ToneMapper.int_array) (o : PNGExporter.PNGExportOptions)
    (r : PNGExporter.PNGExportResult) :
  snd (PNGExporter.export encode Number_toString data o) = Ok r ->
  fst (PNGExporter.export encode Number_toString data o) =
    [PNGExporter.mkCall (PNGExporter.width o) (PNGExporter.height o) data
       (default 8 (PNGExporter.depth o)) 4].
Proof.
  unfold PNGExporter.export.
  repeat match goal with
         | |- context [if ?c then _ else _] => destruct c; [discriminate|]
         end.
  cbn [bindM emit lift].
  destruct (encode _) as [png|e]; cbn; [|done].
  destruct (PNGExporter.injectPHYs png _); done.
Qed.

(** C9: a successful [exportBuffer] run with a progress callback reports
    exactly 0, 50, 90, 100 to it, in this order: at least four reports,
    never decreasing, the first 0 and the last 100. *)
Theorem exportBuffer_progress_checkpoints (buffer : ColorBuffer.t)
    (options : ExportPipelineOptions ExportProgressFn) (cb : ExportProgressFn)
    (trace : list event) (blob : Blob) :
  onProgress _ options = Some cb ->
  exportBuffer buffer options = (trace, Ok blob) ->
  progress_of _ trace = [0; 50; 90; 100]%float /\
  (4 <= length (progress_of _ trace))%nat /\
  nondecreasing (progress_of _ trace) = true /\
  head (progress_of _ trace) = Some 0%float /\
  last (progress_of _ trace) = Some 100%float /\
  Forall (fun ev => forall f p, ev = Progress _ f p -> f = cb) trace.
Proof.
  intros Hcb Hrun.
  assert (Hshape : exists t, trace =
            [Progress _ cb 0; Progress _ cb 50]%float ++ List.map (Encode _) t
              ++ [Progress _ cb 90; Progress _ cb 100]%float).
  { revert Hrun. unfold ExportPipeline.exportBuffer. rewrite Hcb.
    destruct (negb _); [discriminate|].
    cbn [ExportPipeline.call_onProgress emit bindM lift app].
    destruct (invoke cb 0) as [[]|e0]; [|discriminate].
    destruct (ToneMapper.new _ _) as [tm|e]; [|discriminate].
    cbn [ExportPipeline.call_onProgress emit bindM lift app].
    destruct (invoke cb 50) as [[]|e50]; [|discriminate].
    destruct (PNGExporter.export _ _ _ _) as [t [r|e]];
      cbn [map_events fst snd bindM ret]; [|discriminate].
    cbn [ExportPipeline.call_onProgress emit bindM lift app].
    destruct (invoke cb 90) as [[]|e90]; [|discriminate].
    cbn [ExportPipeline.call_onProgress emit bindM lift ret app].
    destruct (invoke cb 100) as [[]|e100]; [|discriminate].
    intros [= <- _]. exists t. reflexivity. }
  destruct Hshape as [t ->].
  assert (Hp : progress_of _ ([Progress _ cb 0; Progress _ cb 50]%float
                 ++ List.map (Encode _) t
                 ++ [Progress _ cb 90; Progress _ cb 100]%float)
               = [0; 50; 90; 100]%float).
  { rewrite !progress_of_app, progress_of_Encode. done. }
  rewrite Hp.
  split; [done|]. split; [cbn; lia|]. split; [reflexivity|].
  split; [done|]. split; [done|].
  rewrite !Forall_app. repeat split.
  - repeat constructor; by intros f p [= -> _].
  - apply Forall_forall. intros ev Hin f p ->.
    apply list_elem_of_In, in_map_iff in Hin as (c & Hc & _). discriminate.
  - repeat constructor; by intros f p [= -> _].
Qed.







End Host.

Lemma exportBuffer_progress_checkpoints_witness :
  progress_of unit
    (fst (exportBuffer pow_0_1 raw_encode plain_toString unit returning one_pixel
            clamp_options))
  = [0; 50; 90; 100]%float.
Proof.
  eapply (exportBuffer_progress_checkpoints pow_0_1 raw_encode plain_toString unit
            returning one_pixel clamp_options tt);
    [reflexivity | vm_compute; reflexivity].
Defined.

End ExportPipelineFacts.

(** ** PNG exporter *)

Module PNGExporterFacts.
Import JS PNGExporter Samples.

Lemma length_setUint32 (bytes : list Z) (offset : nat) (value : Z) :
  length (setUint32 bytes offset value) = length bytes.
Proof. unfold setUint32. by rewrite !length_insert. Qed.

Lemma length_buildPHYsChunk (dpi : number) : length (buildPHYsChunk dpi) = 21%nat.
Proof.
  unfold buildPHYsChunk.
  rewrite ?length_setUint32, ?length_insert, ?length_setUint32, ?length_insert,
    ?length_setUint32, ?length_insert.
  reflexivity.
Qed.

Lemma magic_check (png : list Z) :
  negb (bool_decide (png !! 0%nat = Some 0x89))
  || negb (bool_decide (png !! 1%nat = Some 0x50))
  || negb (bool_decide (png !! 2%nat = Some 0x4e))
  || negb (bool_decide (png !! 3%nat = Some 0x47)) = false
  <-> magic_ok png.
Proof.
  unfold magic_ok.
  rewrite !orb_false_iff, !negb_false_iff, !bool_decide_eq_true.
  destruct png as [|b0 [|b1 [|b2 [|b3 rest]]]]; cbn; rewrite ?take_0;
    (split;
     [ intros (((H0 & H1) & H2) & H3); try discriminate; congruence
     | intros H; try discriminate H; by injection H as -> -> -> -> ]).
Qed.

Lemma TypedArray_set_Ok (target source : list Z) (offset : nat) :
  (offset + length source <= length target)%nat ->
  TypedArray_set target source offset =
    Ok (take offset target ++ source ++ drop (offset + length source) target).
Proof.
  intros H. unfold TypedArray_set.
  destruct (Nat.ltb_spec (length target) (offset + length source)); [lia | done].
Qed.

(** C3, as stated, fails: the check reads four bytes, so a file that
    starts with them but not with the eight-byte signature is accepted. *)
Lemma injectPHYs_accepts_without_signature :
  take 8 half_signed <> PNG_SIGNATURE /\
  exists out, injectPHYs half_signed 300 = Ok out.
Proof.
  split; [discriminate|].
  eexists. vm_compute. reflexivity.
Qed.

(** C3 (amended): [injectPHYs] throws 'Not a valid PNG file' exactly when
    the input does not begin with the four bytes 0x89 'P' 'N' 'G' (the
    other four bytes of the signature are not examined); when it does and
    holds at least the 33 bytes of signature and header chunk, the result
    is those 33 bytes, then the new chunk, then every byte that followed,
    unaltered -- for a file with the full signature: the signature, the
    25-byte header chunk, the new chunk, the rest. *)
Theorem injectPHYs_splice (png : list Z) (dpi : number) :
  (injectPHYs png dpi = Throw (Error "Not a valid PNG file") <-> ~ magic_ok png) /\
  (magic_ok png -> (33 <= length png)%nat ->
   injectPHYs png dpi = Ok (take 33 png ++ buildPHYsChunk dpi ++ drop 33 png)) /\
  (take 8 png = PNG_SIGNATURE -> (33 <= length png)%nat ->
   injectPHYs png dpi =
     Ok (PNG_SIGNATURE ++ take 25 (drop 8 png) ++ buildPHYsChunk dpi ++ drop 33 png)).
Proof.
  assert (Hsplice : magic_ok png -> (33 <= length png)%nat ->
    injectPHYs png dpi = Ok (take 33 png ++ buildPHYsChunk dpi ++ drop 33 png)).
  { intros Hm Hlen. unfold injectPHYs.
    rewrite (proj2 (magic_check png) Hm).
    pose proof (length_buildPHYsChunk dpi) as Hphys.
    set (phys := buildPHYsChunk dpi) in *.
    unfold subarray, IHDR_END. rewrite Hphys, drop_0.
    change (8 + 25 - 0)%nat with 33%nat. change (8 + 25 + 21)%nat with 54%nat.
    change (8 + 25)%nat with 33%nat.
    rewrite (take_ge (drop _ png)) by (rewrite length_drop; lia).
    assert (Ht : length (take 33 png) = 33%nat) by (rewrite length_take; lia).
    rewrite TypedArray_set_Ok; cycle 1.
    { rewrite length_replicate, Ht. lia. }
    rewrite take_0, Ht, drop_replicate. cbn [bind app].
    rewrite TypedArray_set_Ok; cycle 1.
    { rewrite length_app, length_replicate, Ht. lia. }
    cbn [bind].
    rewrite take_app_length' by done.
    rewrite drop_app_ge by lia.
    rewrite Ht, drop_replicate, Hphys.
    rewrite TypedArray_set_Ok; cycle 1.
    { rewrite !length_app, length_replicate, Ht, length_drop. lia. }
    f_equal.
    rewrite (app_assoc (take 33 png) phys).
    rewrite take_app_length' by (rewrite length_app, Ht; lia).
    rewrite (drop_ge (_ ++ _))
      by (rewrite !length_app, length_replicate, Ht, length_drop; lia).
    by rewrite app_nil_r, <- app_assoc. }
  split; [|split].
  - unfold injectPHYs.
    destruct (negb _ || _ || _ || _) eqn:Hc.
    + split; [|done]. intros _ Hm. apply magic_check in Hm. congruence.
    + split.
      * intros Hthrow. exfalso. revert Hthrow.
        destruct (TypedArray_set _ _ 0) as [r1|e1] eqn:H1; cbn [bind].
        2:{ revert H1. unfold TypedArray_set. destruct (_ <? _)%nat; [|done].
            intros [= <-]. discriminate. }
        destruct (TypedArray_set r1 _ _) as [r2|e2] eqn:H2; cbn [bind].
        2:{ revert H2. unfold TypedArray_set. destruct (_ <? _)%nat; [|done].
            intros [= <-]. discriminate. }
        unfold TypedArray_set. destruct (_ <? _)%nat; discriminate.
      * intros Hm. exfalso. apply Hm, magic_check, Hc.
  - exact Hsplice.
  - intros Hsig Hlen.
    assert (Hm : magic_ok png).
    { unfold magic_ok. replace 4%nat with (4 `min` 8)%nat by done.
      rewrite <- take_take, Hsig. done. }
    rewrite (Hsplice Hm Hlen). f_equal.
    rewrite <- Hsig, !app_assoc. do 2 f_equal.
    rewrite <- (take_drop 8 (take 33 png)) at 1.
    rewrite take_take, skipn_firstn_comm. done.
Qed.

(** *** The table-driven CRC against the bit-by-bit definition *)

Lemma land_lxor_distr (a b c : Z) :
  Z.land (Z.lxor a b) c = Z.lxor (Z.land a c) (Z.land b c).
Proof.
  apply Z.bits_inj'. intros n Hn.
  rewrite !Z.lxor_spec, !Z.land_spec, !Z.lxor_spec.
  by destruct (Z.testbit a n), (Z.testbit b n), (Z.testbit c n).
Qed.

Lemma mod_pow2_lxor (a b n : Z) :
  0 <= n -> Z.lxor a b mod 2 ^ n = Z.lxor (a mod 2 ^ n) (b mod 2 ^ n).
Proof. intros Hn. rewrite <- !Z.land_ones by done. apply land_lxor_distr. Qed.

Lemma uint32_range (z : Z) : 0 <= uint32 z < 2 ^ 32.
Proof. apply Z.mod_pos_bound. lia. Qed.

Lemma uint32_small (z : Z) : 0 <= z < 2 ^ 32 -> uint32 z = z.
Proof. apply Z.mod_small. Qed.

Lemma uint32_int32 (z : Z) : uint32 (int32 z) = uint32 z.
Proof.
  unfold uint32, int32.
  rewrite Zminus_mod_idemp_l.
  f_equal. lia.
Qed.

Lemma int32_mod_256 (z : Z) : int32 z mod 256 = z mod 256.
Proof.
  rewrite <- (Z.mod_mod_divide (int32 z) (2 ^ 32) 256) by (exists (2 ^ 24); lia).
  fold (uint32 (int32 z)). rewrite uint32_int32. unfold uint32.
  apply Z.mod_mod_divide. exists (2 ^ 24); lia.
Qed.

Lemma uint32_xor (a b : Z) : uint32 (xor a b) = Z.lxor (uint32 a) (uint32 b).
Proof.
  unfold xor. unfold uint32 at 1. rewrite mod_pow2_lxor by lia.
  fold (uint32 (int32 a)) (uint32 (int32 b)). by rewrite !uint32_int32.
Qed.

Lemma and_byte (x : Z) : and x 0xff = x mod 256.
Proof.
  unfold and. change (int32 255) with (Z.ones 8).
  rewrite Z.land_ones by lia. apply int32_mod_256.
Qed.

Lemma and_bit (c : Z) : (and c 1 =? 0) = negb (Z.odd (uint32 c)).
Proof.
  unfold and. change (int32 1) with (Z.ones 1).
  rewrite Z.land_ones by lia. change (2 ^ 1) with 2.
  assert (H : int32 c mod 2 = uint32 c mod 2).
  { rewrite <- (Z.mod_mod_divide (int32 c) (2 ^ 32) 2) by (exists (2 ^ 31); lia).
    fold (uint32 (int32 c)). by rewrite uint32_int32. }
  rewrite H, Zmod_odd. by destruct (Z.odd (uint32 c)).
Qed.

Lemma ushr_spec (c n : Z) : 0 <= n < 32 -> ushr c n = Z.shiftr (uint32 c) n.
Proof. intros Hn. unfold ushr. by rewrite Z.mod_small. Qed.

Lemma shiftr_uint32_range (c n : Z) : 0 <= n -> 0 <= Z.shiftr (uint32 c) n < 2 ^ 32.
Proof.
  intros Hn. pose proof (uint32_range c) as Hc.
  rewrite Z.shiftr_div_pow2 by done.
  split; [apply Z.div_pos; lia|].
  apply Z.le_lt_trans with (uint32 c); [|lia].
  apply Z.div_le_upper_bound; [lia|]. nia.
Qed.

(** One round of the table initialisation computes one [crc_bit]. *)
Lemma crc_round_bit (c : Z) :
  uint32 (if negb (and c 1 =? 0) then xor 0xedb88320 (ushr c 1) else ushr c 1)
  = crc_bit (uint32 c).
Proof.
  rewrite and_bit, negb_involutive. unfold crc_bit.
  rewrite ushr_spec by lia.
  pose proof (shiftr_uint32_range c 1 ltac:(lia)) as Hr.
  destruct (Z.odd (uint32 c)).
  - rewrite uint32_xor, (uint32_small (Z.shiftr _ _)) by done.
    rewrite Z.lxor_comm. done.
  - by apply uint32_small.
Qed.

Lemma crc_rounds_iter (k : nat) (c : Z) :
  uint32 (crc_rounds k c) = Nat.iter k crc_bit (uint32 c).
Proof.
  revert c. induction k as [|k IH]; intros c; [done|].
  cbn [crc_rounds]. rewrite IH, crc_round_bit, Nat.iter_succ_r. done.
Qed.

Lemma table_get_iter (i : Z) :
  0 <= i < 256 -> table_get i = Nat.iter 8 crc_bit i.
Proof.
  intros Hi. unfold table_get, CRC_TABLE.
  destruct (Z.ltb_spec i 0); [lia|].
  rewrite list_lookup_fmap, lookup_seq_lt by lia.
  cbn [fmap option_fmap option_map default from_option Nat.add].
  rewrite Z2Nat.id by lia.
  rewrite crc_rounds_iter, uint32_small by lia. done.
Qed.

(** [crc_bit] is linear: bits above the lowest one only move down. *)
Lemma crc_bit_shifted (x h j : Z) :
  1 <= j ->
  crc_bit (Z.lxor x (Z.shiftl h j)) = Z.lxor (crc_bit x) (Z.shiftl h (j - 1)).
Proof.
  intros Hj. unfold crc_bit.
  assert (Hodd : Z.odd (Z.lxor x (Z.shiftl h j)) = Z.odd x).
  { rewrite <- !Z.bit0_odd, Z.lxor_spec, Z.shiftl_spec_low by lia.
    by rewrite xorb_false_r. }
  rewrite Hodd, Z.shiftr_lxor, Z.shiftr_shiftl_l by lia.
  destruct (Z.odd x); [|done].
  rewrite !Z.lxor_assoc. f_equal. apply Z.lxor_comm.
Qed.

Lemma crc_bits_shifted (k : nat) (x h j : Z) :
  Z.of_nat k <= j ->
  Nat.iter k crc_bit (Z.lxor x (Z.shiftl h j))
  = Z.lxor (Nat.iter k crc_bit x) (Z.shiftl h (j - Z.of_nat k)).
Proof.
  revert x j. induction k as [|k IH]; intros x j Hj.
  - cbn. by rewrite Z.sub_0_r.
  - rewrite !Nat.iter_succ_r, crc_bit_shifted, IH by lia.
    do 2 f_equal. lia.
Qed.

Lemma split_low_byte (u : Z) :
  u = Z.lxor (u mod 256) (Z.shiftl (Z.shiftr u 8) 8).
Proof.
  change 256 with (2 ^ 8). rewrite <- Z.land_ones by lia.
  rewrite <- Z.ldiff_ones_r by lia.
  apply Z.bits_inj'. intros n Hn.
  rewrite Z.lxor_spec, Z.land_spec, Z.ldiff_spec.
  by destruct (Z.testbit u n), (Z.testbit (Z.ones 8) n).
Qed.

(** One step of the table-driven loop computes one [crc_byte]. *)
Lemma crc32_step (c byte : Z) :
  0 <= byte < 256 ->
  uint32 (xor (table_get (and (xor c byte) 0xff)) (ushr c 8))
  = crc_byte (uint32 c) byte.
Proof.
  intros Hb.
  set (u := uint32 c).
  assert (Hidx : and (xor c byte) 0xff = Z.lxor (u mod 256) byte).
  { rewrite and_byte.
    rewrite <- (Z.mod_mod_divide (xor c byte) (2 ^ 32) 256) by (exists (2 ^ 24); lia).
    fold (uint32 (xor c byte)). rewrite uint32_xor. fold u.
    rewrite (uint32_small byte) by lia.
    change 256 with (2 ^ 8). rewrite mod_pow2_lxor by lia.
    f_equal. apply Z.mod_small. lia. }
  assert (Hrange : 0 <= Z.lxor (u mod 256) byte < 256).
  { rewrite <- (Z.mod_small byte 256) by lia.
    change 256 with (2 ^ 8). rewrite <- mod_pow2_lxor by lia.
    apply Z.mod_pos_bound. lia. }
  rewrite uint32_xor, Hidx, table_get_iter by done.
  rewrite ushr_spec by lia. fold u.
  rewrite (uint32_small (Z.shiftr u 8)) by (apply shiftr_uint32_range; lia).
  rewrite uint32_small.
  2:{ rewrite <- table_get_iter by done. unfold table_get.
      destruct (_ <? 0); [lia|].
      unfold CRC_TABLE. rewrite list_lookup_fmap.
      destruct (seq 0 256 !! _); cbn; [apply uint32_range | lia]. }
  unfold crc_byte.
  rewrite (split_low_byte u) at 3.
  rewrite Z.lxor_assoc, (Z.lxor_comm (Z.shiftl _ _) byte), <- Z.lxor_assoc.
  rewrite (crc_bits_shifted 8) by lia.
  change (8 - Z.of_nat 8) with 0. by rewrite Z.shiftl_0_r.
Qed.

Lemma crc32_fold (data : list Z) (c : Z) :
  Forall (fun b => 0 <= b < 256) data ->
  uint32 (fold_left (fun crc byte =>
                       xor (table_get (and (xor crc byte) 0xff)) (ushr crc 8))
                    data c)
  = fold_left crc_byte data (uint32 c).
Proof.
  intros Hdata. revert c.
  induction Hdata as [|b data Hb _ IH]; intros c; [done|].
  cbn [fold_left]. rewrite IH, crc32_step by done. done.
Qed.

(** The checksum the exporter computes is the CRC-32 of the format. *)
Lemma crc32_is_reference (data : list Z) :
  Forall (fun b => 0 <= b < 256) data -> crc32 data = crc32_reference data.
Proof.
  intros Hdata. unfold crc32, crc32_reference.
  rewrite ushr_spec, Z.shiftr_0_r, uint32_xor, crc32_fold by (done || lia).
  done.
Qed.

Lemma crc32_range (data : list Z) : 0 <= crc32 data < 2 ^ 32.
Proof.
  unfold crc32. rewrite ushr_spec, Z.shiftr_0_r by lia. apply uint32_range.
Qed.

(** *** The pHYs chunk *)

Lemma integer_value_truncate (x : number) (n : Z) :
  integer_value x = Some n -> truncate x = n.
Proof.
  unfold integer_value, truncate.
  destruct (Prim2SF x) as [s|s| |s m e]; try congruence.
  destruct (0 <=? e); [congruence|].
  destruct (_ =? 0); congruence.
Qed.

Lemma be32_value_be32 (d : Z) : 0 <= d < 2 ^ 32 -> be32_value (be32 d) = d.
Proof.
  intros Hd. unfold be32_value, be32. cbn [fold_left].
  change (2 ^ 24) with 16777216. change (2 ^ 16) with 65536. change (2 ^ 8) with 256.
  change (2 ^ 32) with 4294967296 in Hd.
  Z.div_mod_to_equations. lia.
Qed.

Lemma be32_bytes (d : Z) : Forall (fun b => 0 <= b < 256) (be32 d).
Proof. unfold be32. repeat constructor; apply Z.mod_pos_bound; lia. Qed.

(** C4, as stated, fails for a density that does not fit 32 bits: the
    field for 1e9 dpi holds 39370078740 modulo 2^32. *)
Lemma buildPHYsChunk_density_wraps :
  integer_value (dpiToPixelsPerMeter 1e9) = Some 39370078740 /\
  be32_value (take 4 (drop 8 (buildPHYsChunk 1e9))) = 715373076.
Proof. split; vm_compute; reflexivity. Qed.

(** C4 (amended): for every dpi the chunk is 21 bytes: the big-endian
    length 9, the tag "pHYs", the X density and the equal Y density as
    big-endian [ToUint32(round(dpi / 0.0254))], the unit 1, and the
    big-endian CRC-32 (reflected polynomial 0xEDB88320, initial and final
    value 0xFFFFFFFF) of the 13 bytes of tag and data.  The density field
    is round(dpi / 0.0254) itself whenever that is an integer in
    [0, 2^32), and its value modulo 2^32 otherwise; it is 11811 for 300
    dpi and 2835 for 72 dpi. *)
Theorem buildPHYsChunk_layout (dpi : number) :
  let density := ToUint32 (dpiToPixelsPerMeter dpi) in
  let body := [0x70; 0x48; 0x59; 0x73] ++ be32 density ++ be32 density ++ [1] in
  length (buildPHYsChunk dpi) = 21%nat /\
  length body = 13%nat /\
  buildPHYsChunk dpi = be32 9 ++ body ++ be32 (crc32_reference body) /\
  (forall n, integer_value (dpiToPixelsPerMeter dpi) = Some n -> 0 <= n < 2 ^ 32 ->
             density = n /\ be32_value (be32 density) = n) /\
  dpiToPixelsPerMeter 300 = 11811%float /\
  dpiToPixelsPerMeter 72 = 2835%float.
Proof.
  intros density body.
  assert (Hd : 0 <= density < 2 ^ 32) by (apply Z.mod_pos_bound; lia).
  split; [apply length_buildPHYsChunk|].
  split; [reflexivity|].
  split; [|split; [|split; reflexivity]].
  - unfold buildPHYsChunk. fold density.
    assert (Hbody : subarray
              (<[16%nat:=1]>
                 (setUint32
                    (setUint32
                       (<[7%nat:=115]>
                          (<[6%nat:=89]>
                             (<[5%nat:=72]>
                                (<[4%nat:=112]> (setUint32 (replicate 21 0) 0 9)))))
                       8 density) 12 density)) 4 17 = body).
    { unfold setUint32. rewrite !(uint32_small density) by done. reflexivity. }
    rewrite Hbody.
    unfold setUint32.
    rewrite (uint32_small (crc32 body)) by apply crc32_range.
    rewrite !(uint32_small density) by exact Hd.
    rewrite crc32_is_reference
      by (unfold body; repeat apply Forall_app_2; try apply be32_bytes;
          repeat constructor; lia).
    generalize (crc32_reference body). intros crc.
    reflexivity.
  - intros n Hn Hr.
    assert (density = n) as ->.
    { unfold density, ToUint32. rewrite (integer_value_truncate _ _ Hn).
      by apply Z.mod_small. }
    split; [done|]. by apply be32_value_be32.
Qed.

Lemma injectPHYs_splice_witness :
  injectPHYs signed_file 300 =
    Ok (PNG_SIGNATURE ++ take 25 (drop 8 signed_file) ++ buildPHYsChunk 300
          ++ drop 33 signed_file).
Proof.
  apply (proj2 (proj2 (injectPHYs_splice signed_file 300))); [reflexivity | cbn; lia].
Defined.

End PNGExporterFacts.

(** ** Tone mapper *)

Module ToneMapperFacts.
Import JS Binary64 ToneMapper FloatFacts Samples.

Section Pow.
Variable Math_pow : number -> number -> number.

Lemma gammaLut_entry (tm : t) (i : Z) :
  0 <= i <= LUT_SIZE ->
  lut_get (build_gammaLut Math_pow tm) i =
  ToUint8 (Math_round (Math_pow (of_Z i / of_Z LUT_SIZE) (invGamma tm) * maxVal tm)).
Proof.
  unfold LUT_SIZE. intros Hi. unfold lut_get, build_gammaLut.
  destruct (Z.ltb_spec i 0); [lia|].
  rewrite list_lookup_fmap, lookup_seq_lt by (unfold LUT_SIZE; lia).
  cbn [fmap option_fmap option_map default from_option Nat.add].
  rewrite Z2Nat.id by lia. done.
Qed.

(** The mapper [new ToneMapper({algorithm: 'clamp', gamma: 1, exposure: 0,
    outputDepth: 8})] constructs, given that [Math.pow(2, 0)] is 1. *)
Lemma new_clamp_gamma1 :
  Math_pow 2 0 = 1%float ->
  new Math_pow (clamp_mapper_options 1) = Ok (mk clamp 1 1 8 255).
Proof. intros H. unfold new, clamp_mapper_options. cbn. by rewrite H. Qed.

(** Position [4p + j] of an output built four values per pixel. *)
Lemma lookup_flat_map_4 {A} (f : A -> list Z) (l : list A) (p j : nat) :
  (forall x, length (f x) = 4%nat) -> (j < 4)%nat ->
  flat_map f l !! (4 * p + j)%nat = l !! p ≫= fun x => f x !! j.
Proof.
  intros Hf Hj. revert p. induction l as [|x l IH]; intros p; [done|].
  cbn [flat_map]. destruct p as [|p].
  - rewrite lookup_app_l by (rewrite Hf; lia). done.
  - rewrite lookup_app_r by (rewrite Hf; lia).
    rewrite Hf. replace (4 * S p + j - 4)%nat with (4 * p + j)%nat by lia.
    apply IH.
Qed.

(** C7: with [Math.pow(2, 0) = 1] and [Math.pow(v, 1) = v], the mapper
    built for algorithm clamp, gamma 1, exposure 0 and 8-bit output maps
    the buffer holding the single pixel (0.5, 0.25, 0.75, 1.0) -- of
    either channel width -- to exactly (128, 64, 191, 255); and for every
    mapper and buffer the alpha value of every pixel is
    round(clamp01(a) * maxVal) stored into the output array, whatever
    the exposure, the range-compression function, gamma and [Math.pow]. *)
Theorem map_clamp_gamma1_pixel (d : ColorBuffer.ColorDepth) :
  Math_pow 2 0 = 1%float ->
  (forall v, Math_pow v 1 = v) ->
  (exists tm,
     new Math_pow (clamp_mapper_options 1) = Ok tm /\
     map Math_pow tm (ColorBuffer.mk 1 1 d [0.5; 0.25; 0.75; 1]%float)
     = mkArray Uint8 [128; 64; 191; 255]) /\
  (forall (tm : t) (input : ColorBuffer.t) (p : nat),
     Z.of_nat p < ColorBuffer.width input * ColorBuffer.height input ->
     let a := get (ColorBuffer.data input) (Z.of_nat p * 4 + 3) in
     let k := kind (map Math_pow tm input) in
     elems (map Math_pow tm input) !! (4 * p + 3)%nat
     = Some (to_elem k (Math_round ((if lt a 0 then 0 else if gt a 1 then 1 else a)
                                    * maxVal tm)%float))).
Proof.
  intros Hpow0 Hpow1. split.
  - exists (mk clamp 1 1 8 255). split; [by apply new_clamp_gamma1|].
    unfold map. cbn [depth ColorBuffer.width ColorBuffer.height ColorBuffer.data].
    change (8 =? 8) with true. change (8 =? 16) with false. cbv iota.
    change (Z.to_nat (1 * 1)) with 1%nat.
    cbn [seq List.map flat_map app]. f_equal.
    unfold lut_channel.
    cbn [mapFn exposureMultiplier].
    repeat match goal with
    | |- context [lut_get _ (ToInt32 ?x)] =>
        let i := eval vm_compute in (ToInt32 x) in
        change (ToInt32 x) with i;
        rewrite (gammaLut_entry _ i) by (unfold LUT_SIZE; lia)
    end.
    cbn [invGamma maxVal]. rewrite !Hpow1.
    vm_compute. reflexivity.
  - intros tm input p Hp a k.
    assert (Hk : kind (map Math_pow tm input) = if depth tm =? 16 then Uint16 else Uint8)
      by (unfold map; by destruct (depth tm =? 8)).
    subst k. rewrite Hk.
    assert (Hlook : List.map (fun q : nat => Z.of_nat q * 4)
                      (seq 0 (Z.to_nat (ColorBuffer.width input * ColorBuffer.height input)))
                    !! p = Some (Z.of_nat p * 4)).
    { rewrite list_lookup_fmap, lookup_seq_lt by lia. done. }
    unfold map. destruct (depth tm =? 8); cbn [elems];
      rewrite (lookup_flat_map_4 _ _ p 3) by (done || lia);
      rewrite Hlook; done.
Qed.

Lemma lut_channel_table_value (tm : t) (s : number) :
  lut_channel tm (build_gammaLut Math_pow tm) s = table_value Math_pow tm s.
Proof.
  unfold lut_channel, table_value, grid_index.
  set (i := ToInt32 _).
  destruct (Z.leb_spec 0 i); destruct (Z.leb_spec i LUT_SIZE); cbn [andb].
  - by apply gammaLut_entry.
  - unfold lut_get. destruct (i <? 0); [done|].
    rewrite lookup_ge_None_2; [done|].
    unfold build_gammaLut. rewrite length_map, length_seq.
    unfold LUT_SIZE in *. lia.
  - unfold lut_get. destruct (Z.ltb_spec i 0); [done | lia].
  - unfold lut_get. destruct (Z.ltb_spec i 0); [done | lia].
Qed.

(** The two paths of [map].  With 8-bit output every colour value is
    the table entry at the grid point nearest to the clamped mapped value,
    round(pow(i / 4096, 1 / gamma) * 255) for
    i = ToInt32(clamp01(mapFn(v * exposure)) * 4096 + 0.5); with 16-bit
    output no table is used and every colour value is the direct
    computation ([mapValue], then [quantize]) stored into the output
    array. *)
Lemma map_table_path (tm : t) (input : ColorBuffer.t) (p j : nat) :
  let src := ColorBuffer.data input in
  let at_pj := elems (map Math_pow tm input) !! (4 * p + j)%nat in
  let v := get src (Z.of_nat p * 4 + Z.of_nat j) in
  (Z.of_nat p < ColorBuffer.width input * ColorBuffer.height input ->
   (j < 3)%nat -> depth tm = 8 ->
   kind (map Math_pow tm input) = Uint8 /\
   at_pj = Some (table_value Math_pow tm v)) /\
  (Z.of_nat p < ColorBuffer.width input * ColorBuffer.height input ->
   (j < 3)%nat -> depth tm = 16 ->
   kind (map Math_pow tm input) = Uint16 /\
   at_pj = Some (direct_channel Math_pow tm Uint16 v)).
Proof.
  intros src at_pj v.
  assert (Hlook : Z.of_nat p < ColorBuffer.width input * ColorBuffer.height input ->
            List.map (fun q : nat => Z.of_nat q * 4)
              (seq 0 (Z.to_nat (ColorBuffer.width input * ColorBuffer.height input)))
            !! p = Some (Z.of_nat p * 4)).
  { intros Hp. rewrite list_lookup_fmap, lookup_seq_lt by lia. done. }
  split; intros Hp Hj Hd; subst at_pj v src; unfold map; rewrite Hd;
    cbn [Z.eqb Pos.eqb kind elems]; (split; [done|]);
    rewrite (lookup_flat_map_4 _ _ p j) by (done || lia);
    rewrite (Hlook Hp); cbn [mbind option_bind];
    destruct j as [|[|[|j]]]; try lia; cbn [lookup list_lookup];
    rewrite ?Z.add_0_r, ?lut_channel_table_value; done.
Qed.

End Pow.

(** C5: the table path of [map] leaves the bound of 1 it is to keep to
    the direct computation.  With the range compression clamp, gamma 2
    and [Math.pow(v, 1/2)] the square root, the red value 0.0001 falls on
    grid point 0 of the table, whose entry is 0, so [map] yields 0, while
    the direct computation ([mapValue], then [quantize]) yields
    round(sqrt(0.0001) * 255) = 3.  The rest of the claim holds: with
    16-bit output no table is used, every colour value of [map] being the
    direct computation stored into the output array. *)
Theorem table_path_leaves_bound :
  (exists tm table direct,
     new pow_0_half_1 (clamp_mapper_options 2) = Ok tm /\
     depth tm = 8 /\
     grid_index tm 0.0001 = 0 /\
     elems (map pow_0_half_1 tm dark_pixel) !! 0%nat = Some table /\
     to_elem Uint8 (quantize tm (mapValue pow_0_half_1 tm 0.0001)) = direct /\
     table = 0 /\ direct = 3 /\ 1 < Z.abs (direct - table)) /\
  (forall Math_pow (tm : t) (input : ColorBuffer.t) (p j : nat),
     Z.of_nat p < ColorBuffer.width input * ColorBuffer.height input ->
     (j < 3)%nat -> depth tm = 16 ->
     kind (map Math_pow tm input) = Uint16 /\
     elems (map Math_pow tm input) !! (4 * p + j)%nat
     = Some (to_elem Uint16
               (quantize tm
                  (mapValue Math_pow tm
                     (get (ColorBuffer.data input) (Z.of_nat p * 4 + Z.of_nat j)))))).
Proof.
  split.
  - exists (mk clamp 1 0.5 8 255), 0, 3.
    repeat split; vm_compute; reflexivity.
  - intros Math_pow tm input p j Hp Hj Hd.
    exact (proj2 (map_table_path Math_pow tm input p j) Hp Hj Hd).
Qed.

Lemma map_table_path_witness :
  elems (map pow_0_half_1 (mk clamp 1 0.5 8 255) dark_pixel) !! 0%nat
  = Some (table_value pow_0_half_1 (mk clamp 1 0.5 8 255) 0.0001).
Proof.
  apply (proj1 (map_table_path pow_0_half_1 (mk clamp 1 0.5 8 255) dark_pixel 0 0));
    [cbn; lia | lia | reflexivity].
Defined.

Lemma map_clamp_gamma1_pixel_witness :
  map pow_0_1 (mk clamp 1 1 8 255) one_pixel = mkArray Uint8 [128; 64; 191; 255].
Proof.
  destruct (map_clamp_gamma1_pixel pow_0_1 ColorBuffer.D32)
    as [(tm & Hnew & Hmap) _]; [reflexivity | reflexivity |].
  rewrite (new_clamp_gamma1 pow_0_1 eq_refl) in Hnew.
  injection Hnew as <-. exact Hmap.
Defined.

(** *** Range of the built-in curves *)

Lemma zero_cases (v : number) (s : bool) :
  Prim2SF v = S754_zero s -> v = zero \/ v = neg_zero.
Proof.
  intros H. rewrite <- (SF2Prim_Prim2SF v), H. destruct s; [right | left]; reflexivity.
Qed.

(** The final clamp of [aces] and the body of [clamp]. *)
Lemma clamp_unit_range (m : number) :
  SFnonneg (Prim2SF m) = true ->
  in_unit_range (if lt m 0 then 0 else if gt m 1 then 1 else m)%float = true.
Proof.
  intros Hm. unfold lt, gt. rewrite ltb_0_nonneg by done.
  destruct (1 <? m)%float eqn:H1; [reflexivity|].
  unfold in_unit_range, le. rewrite leb_0_nonneg, Hm. cbn [andb].
  by apply leb_total.
Qed.

Lemma reinhard_unit_range (v : number) :
  Number_isFinite v = true -> le 0 v = true -> in_unit_range (reinhard v) = true.
Proof.
  unfold Number_isFinite, le. rewrite leb_0_nonneg. intros Hfin Hnn.
  unfold reinhard, lt. rewrite ltb_0_nonneg by done.
  pose proof (Prim2SF_valid v) as Hv.
  pose proof (Prim2SF_valid (1 + v)) as Hw.
  pose proof (Prim2SF_valid (v / (1 + v))) as Hq.
  pose proof (add_pos 1 v eq_refl) as Hpos.
  pose proof (div_nonneg v (1 + v)) as Hdiv.
  pose proof (add_spec 1 v) as Hadd.
  unfold in_unit_range, le. rewrite leb_0_nonneg, leb_spec.
  rewrite div_spec in *.
  destruct (Prim2SF v) as [s|s| |[] mv ev] eqn:Ev; try done.
  - destruct (zero_cases v s Ev) as [-> | ->]; reflexivity.
  - specialize (Hpos eq_refl). specialize (Hdiv eq_refl Hpos).
    destruct Hdiv as [-> | [Hinf _]]; [|by rewrite Hinf in Ev].
    cbn [andb]. change (Prim2SF 1) with SF_one in *.
    destruct (Prim2SF (1 + v)) as [?|[]| |[] mw ew] eqn:Ew; try done.
    apply SFdiv_le_one; try done.
    by apply SFadd_one_ge.
Qed.

Lemma aces_unit_range (v : number) :
  Number_isFinite v = true -> le 0 v = true ->
  in_unit_range (aces v) = true \/
  (aces_numerator v = infinity /\ aces_denominator v = infinity /\ aces v = nan).
Proof.
  unfold Number_isFinite, le. rewrite leb_0_nonneg. intros Hfin Hnn.
  destruct (Prim2SF v) as [s|s| |[] mv ev] eqn:Ev; try done.
  { left. destruct (zero_cases v s Ev) as [-> | ->]; reflexivity. }
  assert (Hv : SFpos (Prim2SF v) = true) by (by rewrite Ev).
  assert (Hnum : SFnonneg (Prim2SF (aces_numerator v)) = true).
  { apply mul_pos; [done|]. apply add_pos; [|done]. by apply mul_pos. }
  assert (Hden : SFpos (Prim2SF (aces_denominator v)) = true).
  { apply add_pos; [|done]. apply mul_pos; [done|].
    apply add_pos; [|done]. by apply mul_pos. }
  unfold aces, lt. rewrite ltb_0_nonneg by (by rewrite Ev). cbv zeta.
  fold (aces_numerator v) (aces_denominator v).
  destruct (div_nonneg _ _ Hnum Hden) as [Hm | [Hn Hd]].
  - left. by apply clamp_unit_range.
  - right. rewrite Hn, Hd. done.
Qed.

(** C8 at the input 1e200, a finite non-negative number: numerator and
    denominator of the ACES fit both overflow to Infinity, their
    quotient is NaN, and NaN passes both comparisons of the final
    clamp, so the result is not in [0,1].  Everything else the claim
    says holds: the three exact values, 0 for every negative input,
    [reinhard] within [0,1] on every finite non-negative input, and
    [aces] within [0,1] on every such input on which numerator and
    denominator do not both overflow (1e10 among them). *)
Theorem aces_overflow_is_NaN :
  (Number_isFinite 1e200 = true /\ le 0 1e200 = true /\
   aces_numerator 1e200 = infinity /\ aces_denominator 1e200 = infinity /\
   aces 1e200 = nan /\ in_unit_range (aces 1e200) = false) /\
  (reinhard 0 = 0 /\ reinhard 1 = 0.5 /\ aces 0 = 0)%float /\
  (forall v, lt v 0 = true -> reinhard v = 0%float /\ aces v = 0%float) /\
  (forall v, Number_isFinite v = true -> le 0 v = true ->
     in_unit_range (reinhard v) = true) /\
  (forall v, Number_isFinite v = true -> le 0 v = true ->
     in_unit_range (aces v) = true \/
     (aces_numerator v = infinity /\ aces_denominator v = infinity /\
      aces v = nan)) /\
  in_unit_range (reinhard 1e10) = true /\ in_unit_range (aces 1e10) = true.
Proof.
  split; [repeat split; vm_compute; reflexivity|].
  split; [repeat split; vm_compute; reflexivity|].
  split; [intros v Hv; unfold reinhard, aces; by rewrite Hv|].
  split; [exact reinhard_unit_range|].
  split; [exact aces_unit_range|].
  split; vm_compute; reflexivity.
Qed.

End ToneMapperFacts.

(** ** Checked pixel access *)

Module PixelFacts.
Import JS ColorBuffer ArrayFacts ColorBufferFacts.

Lemma offset_inv (b : t) (x y i : Z) :
  offset b x y = Ok i ->
  0 <= x < width b /\ 0 <= y < height b /\ i = (y * width b + x) * 4.
Proof.
  unfold offset.
  destruct (Z.ltb_spec x 0); [done|].
  destruct (Z.geb_spec x (width b)); [done|].
  destruct (Z.ltb_spec y 0); [done|].
  destruct (Z.geb_spec y (height b)); [done|].
  intros [= <-]. lia.
Qed.

Lemma offset_outside (b : t) (x y : Z) :
  ~ (0 <= x < width b /\ 0 <= y < height b) ->
  offset b x y = Throw (RangeError "Pixel out of bounds").
Proof.
  intros Hout. unfold offset.
  destruct (Z.ltb_spec x 0); [done|].
  destruct (Z.geb_spec x (width b)); [done|].
  destruct (Z.ltb_spec y 0); [done|].
  destruct (Z.geb_spec y (height b)); [done|].
  exfalso. apply Hout. lia.
Qed.

Lemma getPixel_outside (b : t) (x y : Z) :
  ~ (0 <= x < width b /\ 0 <= y < height b) ->
  getPixel b x y = Throw (RangeError "Pixel out of bounds").
Proof. intros H. unfold getPixel. by rewrite offset_outside. Qed.

(** A checked write is an unchecked [setPixel] of some four values at
    an in-bounds pixel. *)
Lemma checked_write_inv (b b' : t) (x y : Z) (r g bl a : number) (mode : BlendMode) :
  setPixel b x y r g bl a = Ok b' \/ blendPixel b x y r g bl a mode = Ok b' ->
  0 <= x < width b /\ 0 <= y < height b /\
  exists r' g' bl' a', b' = setPixelUnchecked b x y r' g' bl' a'.
Proof.
  intros [H|H].
  - unfold setPixel in H. destruct (offset b x y) as [i|e] eqn:Hi; [|done].
    apply offset_inv in Hi as (Hx & Hy & ->). cbn [bind] in H.
    injection H as <-. split; [done|]. split; [done|]. by exists r, g, bl, a.
  - unfold blendPixel in H. destruct (offset b x y) as [i|e] eqn:Hi; [|done].
    apply offset_inv in Hi as (Hx & Hy & ->). cbn [bind] in H.
    split; [done|]. split; [done|].
    destruct mode; cbv zeta in H;
      destruct (strict_eq _ 0); injection H as <-;
      by eexists _, _, _, _.
Qed.

(** X12: a successful [setPixel] or [blendPixel] keeps the dimensions, the
    depth and the size of the array, and changes no pixel but its own:
    [getPixel] at any other coordinates answers as before (also when it
    throws). *)
Theorem checked_write_frame (b b' : t) (x y : Z) (r g bl a : number)
    (mode : BlendMode) :
  setPixel b x y r g bl a = Ok b' \/ blendPixel b x y r g bl a mode = Ok b' ->
  width b' = width b /\ height b' = height b /\ depth b' = depth b /\
  length (data b') = length (data b) /\
  (wf b -> wf b') /\
  forall x' y', (x', y') <> (x, y) -> getPixel b' x' y' = getPixel b x' y'.
Proof.
  intros H. apply checked_write_inv in H as (Hx & Hy & r' & g' & bl' & a' & ->).
  split; [done|]. split; [done|]. split; [done|]. split; [|split].
  - unfold setPixelUnchecked, store. cbn [data with_data]. by rewrite !length_set.
  - apply wf_setPixelUnchecked.
  - intros x' y' Hne.
    destruct (Z.lt_ge_cases x' 0) as [Hlo|Hlo];
      [|destruct (Z.lt_ge_cases x' (width b)) as [Hhi|Hhi]].
    + rewrite !getPixel_outside; [done | lia |].
      unfold setPixelUnchecked. cbn [width height with_data]. lia.
    + apply getPixel_setPixelUnchecked_other; (done || lia).
    + rewrite !getPixel_outside; [done | lia |].
      unfold setPixelUnchecked. cbn [width height with_data]. lia.
Qed.

(** X11: the checked accessors succeed on every in-bounds pixel and throw the
    RangeError of the bounds check outside, whatever the colour and the
    blend mode. *)
Theorem checked_access_bounds (b : t) (x y : Z) (r g bl a : number)
    (mode : BlendMode) :
  let inside := 0 <= x < width b /\ 0 <= y < height b in
  let out_of_bounds {A} : result A := Throw (RangeError "Pixel out of bounds") in
  (inside ->
   (exists p, getPixel b x y = Ok p) /\
   (exists b', setPixel b x y r g bl a = Ok b') /\
   (exists b', blendPixel b x y r g bl a mode = Ok b')) /\
  (~ inside ->
   getPixel b x y = out_of_bounds /\
   setPixel b x y r g bl a = out_of_bounds /\
   blendPixel b x y r g bl a mode = out_of_bounds).
Proof.
  intros inside out_of_bounds. split.
  - intros [Hx Hy]. unfold getPixel, setPixel, blendPixel.
    rewrite offset_in_bounds by done. cbn [bind].
    split; [by eexists|]. split; [by eexists|].
    destruct mode; cbv zeta; destruct (strict_eq _ 0); by eexists.
  - intros Hout. unfold getPixel, setPixel, blendPixel.
    by rewrite offset_outside.
Qed.

End PixelFacts.

(** ** Canvas 2D bridge *)

Module Canvas2DBridgeFacts.
Import JS Canvas2DBridge TraceFacts.

Lemma validateRegion_Ok (r : Region) (W H : Z) :
  validateRegion r W H = Ok tt <->
  0 <= x r /\ 0 <= y r /\ 0 < width r /\ 0 < height r /\
  x r + width r <= W /\ y r + height r <= H.
Proof.
  unfold validateRegion.
  destruct (Z.ltb_spec (x r) 0), (Z.ltb_spec (y r) 0), (Z.leb_spec (width r) 0),
    (Z.leb_spec (height r) 0); cbn [orb]; try (split; [done | lia]).
  destruct (Z.gtb_spec (x r + width r) W), (Z.gtb_spec (y r + height r) H);
    cbn [orb]; split; first [done | lia].
Qed.

(** The starts of the tiles along one side: the multiples of 4096
    below the extent. *)
Lemma tile_starts_spec (extent s : Z) :
  In s (tile_starts extent) <-> exists i, 0 <= i /\ s = i * MAX_TILE_SIZE /\ s < extent.
Proof.
  unfold tile_starts, MAX_TILE_SIZE. rewrite in_map_iff. split.
  - intros (i & <- & Hi%in_seq). exists (Z.of_nat i).
    split; [lia|]. split; [done|].
    assert (Z.of_nat i < (extent + 4096 - 1) / 4096) by lia.
    Z.div_mod_to_equations. lia.
  - intros (i & Hi & -> & Hlt). exists (Z.to_nat i).
    split; [lia|]. apply in_seq.
    assert (i < (extent + 4096 - 1) / 4096); [|lia].
    Z.div_mod_to_equations. lia.
Qed.

Lemma in_tiles (r : Region) (t : tile) :
  In t (tiles r) <->
  (width r <= MAX_TILE_SIZE /\ height r <= MAX_TILE_SIZE /\
   t = mkTile (x r) (y r) (width r) (height r)) \/
  (~ (width r <= MAX_TILE_SIZE /\ height r <= MAX_TILE_SIZE) /\
   exists i j, 0 <= i /\ 0 <= j /\
     i * MAX_TILE_SIZE < width r /\ j * MAX_TILE_SIZE < height r /\
     t = mkTile (x r + i * MAX_TILE_SIZE) (y r + j * MAX_TILE_SIZE)
           (Z.min MAX_TILE_SIZE (width r - i * MAX_TILE_SIZE))
           (Z.min MAX_TILE_SIZE (height r - j * MAX_TILE_SIZE))).
Proof.
  unfold tiles.
  destruct (Z.leb_spec (width r) MAX_TILE_SIZE) as [Hw | Hw]; cbn [andb].
  - destruct (Z.leb_spec (height r) MAX_TILE_SIZE) as [Hh | Hh].
    + cbn [In]. split.
      * intros [<- | []]. left. done.
      * intros [(_ & _ & ->) | (Hn & _)]; [by left | lia].
    + rewrite in_flat_map. split.
      * intros (ty & (j & Hj & -> & Hlt)%tile_starts_spec & Hin).
        apply in_map_iff in Hin as (tx & <- & (i & Hi & -> & Hlt')%tile_starts_spec).
        right. split; [lia|]. exists i, j. done.
      * intros [(_ & ? & _) | (_ & i & j & Hi & Hj & Hlt & Hlt' & ->)]; [lia|].
        exists (j * MAX_TILE_SIZE). split; [apply tile_starts_spec; eauto|].
        apply in_map_iff. exists (i * MAX_TILE_SIZE).
        split; [done|]. apply tile_starts_spec. eauto.
  - rewrite in_flat_map. split.
    + intros (ty & (j & Hj & -> & Hlt)%tile_starts_spec & Hin).
      apply in_map_iff in Hin as (tx & <- & (i & Hi & -> & Hlt')%tile_starts_spec).
      right. split; [lia|]. exists i, j. done.
    + intros [(? & _) | (_ & i & j & Hi & Hj & Hlt & Hlt' & ->)]; [lia|].
      exists (j * MAX_TILE_SIZE). split; [apply tile_starts_spec; eauto|].
      apply in_map_iff. exists (i * MAX_TILE_SIZE).
      split; [done|]. apply tile_starts_spec. eauto.
Qed.

Lemma NoDup_tile_starts (extent : Z) : NoDup (tile_starts extent).
Proof.
  unfold tile_starts. apply NoDup_fmap_2_strong; [|apply NoDup_seq].
  intros i j _ _ H. unfold MAX_TILE_SIZE in H. lia.
Qed.

Lemma NoDup_grid {A B C} (f : A -> B -> C) (la : list A) (lb : list B) :
  (forall a b a' b', f a b = f a' b' -> a = a' /\ b = b') ->
  NoDup la -> NoDup lb ->
  NoDup (flat_map (fun a => List.map (f a) lb) la).
Proof.
  intros Hinj Hla Hlb. induction Hla as [|a la Hnotin Hla IH]; cbn [flat_map].
  - constructor.
  - apply NoDup_app. split; [|split; [|exact IH]].
    + apply (NoDup_fmap_2_strong (f a)); [|done].
      intros b b' _ _ H. by destruct (Hinj _ _ _ _ H).
    + intros c Hc Hc'.
      apply list_elem_of_In, in_map_iff in Hc as (b & <- & _).
      apply list_elem_of_In, in_flat_map in Hc' as (a' & Ha' & Hin).
      apply in_map_iff in Hin as (b' & Heq & _).
      destruct (Hinj _ _ _ _ Heq) as [-> _].
      apply Hnotin. by apply list_elem_of_In.
Qed.

(** No tile is drawn twice. *)
Lemma NoDup_tiles (r : Region) : NoDup (tiles r).
Proof.
  unfold tiles. destruct (_ && _); [apply NoDup_singleton|].
  apply (NoDup_grid
           (fun ty tx => mkTile (x r + tx) (y r + ty)
                           (Z.min MAX_TILE_SIZE (width r - tx))
                           (Z.min MAX_TILE_SIZE (height r - ty))));
    [|apply NoDup_tile_starts..].
  intros ty tx ty' tx' [= H1 H2 _ _]. lia.
Qed.

(** X13: the tiles of a region tile it: each is non-empty, at most 4096
    pixels a side and inside the region, no tile occurs twice, and
    every pixel of the region lies in exactly one of them. *)
Theorem tiles_partition (r : Region) :
  0 < width r -> 0 < height r ->
  NoDup (tiles r) /\
  (forall t, In t (tiles r) ->
     0 < tileW t <= MAX_TILE_SIZE /\ 0 < tileH t <= MAX_TILE_SIZE /\
     x r <= tileX t /\ tileX t + tileW t <= x r + width r /\
     y r <= tileY t /\ tileY t + tileH t <= y r + height r) /\
  (forall px py,
     x r <= px < x r + width r -> y r <= py < y r + height r ->
     exists t,
       In t (tiles r) /\
       (tileX t <= px < tileX t + tileW t /\ tileY t <= py < tileY t + tileH t) /\
       forall t', In t' (tiles r) ->
         tileX t' <= px < tileX t' + tileW t' ->
         tileY t' <= py < tileY t' + tileH t' -> t' = t).
Proof.
  intros Hw Hh. split; [apply NoDup_tiles|]. split.
  - intros t [(Hw' & Hh' & ->) | (_ & i & j & Hi & Hj & Hlt & Hlt' & ->)]%in_tiles;
      cbn [tileX tileY tileW tileH]; unfold MAX_TILE_SIZE in *; lia.
  - intros px py Hpx Hpy.
    destruct (Z.le_gt_cases (width r) MAX_TILE_SIZE) as [Hw' | Hw'];
      [destruct (Z.le_gt_cases (height r) MAX_TILE_SIZE) as [Hh' | Hh']|].
    + exists (mkTile (x r) (y r) (width r) (height r)).
      split; [apply in_tiles; by left|]. split; [done|].
      intros t' [(_ & _ & ->) | (Hn & _)]%in_tiles; [done | lia].
    + set (i := (px - x r) / MAX_TILE_SIZE). set (j := (py - y r) / MAX_TILE_SIZE).
      assert (Hij : 0 <= i /\ i * MAX_TILE_SIZE <= px - x r < i * MAX_TILE_SIZE + MAX_TILE_SIZE
                    /\ 0 <= j /\ j * MAX_TILE_SIZE <= py - y r < j * MAX_TILE_SIZE + MAX_TILE_SIZE).
      { unfold i, j, MAX_TILE_SIZE. Z.div_mod_to_equations. lia. }
      eexists. split.
      { apply in_tiles. right. split; [lia|]. exists i, j.
        repeat split; try done; lia. }
      cbn [tileX tileY tileW tileH]. split; [unfold MAX_TILE_SIZE in *; lia|].
      intros t' [(? & ? & _) | (_ & i' & j' & Hi' & Hj' & Hlt & Hlt' & ->)]%in_tiles;
        [lia|].
      cbn [tileX tileY tileW tileH]. intros Hx' Hy'.
      assert (i' = i /\ j' = j) as [-> ->]; [|done].
      unfold MAX_TILE_SIZE in *. lia.
    + set (i := (px - x r) / MAX_TILE_SIZE). set (j := (py - y r) / MAX_TILE_SIZE).
      assert (Hij : 0 <= i /\ i * MAX_TILE_SIZE <= px - x r < i * MAX_TILE_SIZE + MAX_TILE_SIZE
                    /\ 0 <= j /\ j * MAX_TILE_SIZE <= py - y r < j * MAX_TILE_SIZE + MAX_TILE_SIZE).
      { unfold i, j, MAX_TILE_SIZE. Z.div_mod_to_equations. lia. }
      eexists. split.
      { apply in_tiles. right. split; [lia|]. exists i, j.
        repeat split; try done; lia. }
      cbn [tileX tileY tileW tileH]. split; [unfold MAX_TILE_SIZE in *; lia|].
      intros t' [(? & ? & _) | (_ & i' & j' & Hi' & Hj' & Hlt & Hlt' & ->)]%in_tiles;
        [lia|].
      cbn [tileX tileY tileW tileH]. intros Hx' Hy'.
      assert (i' = i /\ j' = j) as [-> ->]; [|done].
      unfold MAX_TILE_SIZE in *. lia.
Qed.

(** A [blend] row whose source pixels are all fully transparent leaves
    the data as it is. *)
Lemma blendRow_loop_transparent (k : float_kind) (mode : ColorBuffer.BlendMode)
    (floats : list number) (n : nat) (p dstIdx : Z) (d : list number) :
  (forall q, p <= q < p + Z.of_nat n -> strict_eq (get floats (q * 4 + 3)) 0 = true) ->
  ColorBuffer.blendRow_loop k mode floats n p dstIdx d = d.
Proof.
  revert p dstIdx. induction n as [|n IH]; intros p dstIdx Hq; [done|].
  cbn [ColorBuffer.blendRow_loop]. rewrite (Hq p) by lia. apply IH.
  intros q Hq'. apply Hq. lia.
Qed.

Section Host.
Variable render : tile -> option (list Z).

Lemma drawTile_trace (buffer : ColorBuffer.t) (t : tile) (mode : Mode)
    (blendMode : ColorBuffer.BlendMode) :
  fst (drawTile render buffer t mode blendMode) = [t].
Proof.
  unfold drawTile. rewrite fst_bindM. cbn [emit fst snd].
  destruct (render t); cbn; done.
Qed.

Lemma drawTiles_trace (ts : list tile) (buffer : ColorBuffer.t) (mode : Mode)
    (blendMode : ColorBuffer.BlendMode) :
  (exists rest, ts = fst (drawTiles render buffer ts mode blendMode) ++ rest) /\
  (forall b', snd (drawTiles render buffer ts mode blendMode) = Ok b' ->
     fst (drawTiles render buffer ts mode blendMode) = ts).
Proof.
  revert buffer. induction ts as [|t ts IH]; intros buffer.
  - cbn. split; [by exists [] | done].
  - cbn [drawTiles]. rewrite fst_bindM, snd_bindM, drawTile_trace.
    destruct (snd (drawTile render buffer t mode blendMode)) as [b1|e].
    + destruct (IH b1) as [[rest Hrest] Hok]. split.
      * exists rest. cbn [app]. by rewrite <- Hrest.
      * intros b' Hb'. cbn [app]. by rewrite (Hok b' Hb').
    + split; [by exists ts | done].
Qed.

(** Drawing one more tile onto the outcome of the tiles before it. *)
#[local] Abbreviation draw_next mode blendMode :=
  (fun (acc : result ColorBuffer.t) (t : tile) =>
     bind acc (fun b => snd (drawTile render b t mode blendMode))).

Lemma draw_next_Throw (ts : list tile) (mode : Mode)
    (blendMode : ColorBuffer.BlendMode) (e : exn) :
  fold_left (draw_next mode blendMode) ts (Throw e) = Throw e.
Proof. induction ts as [|t ts IH]; [done | exact IH]. Qed.

Lemma drawTiles_fold (ts : list tile) (buffer : ColorBuffer.t) (mode : Mode)
    (blendMode : ColorBuffer.BlendMode) :
  snd (drawTiles render buffer ts mode blendMode) =
  fold_left (draw_next mode blendMode) ts (Ok buffer).
Proof.
  revert buffer. induction ts as [|t ts IH]; intros buffer; [done|].
  cbn [drawTiles fold_left bind]. rewrite snd_bindM.
  destruct (snd (drawTile render buffer t mode blendMode)) as [b1|e].
  - apply IH.
  - by rewrite draw_next_Throw.
Qed.

Lemma drawTiles_Throw (ts : list tile) (buffer : ColorBuffer.t) (mode : Mode)
    (blendMode : ColorBuffer.BlendMode) (e : exn) :
  snd (drawTiles render buffer ts mode blendMode) = Throw e ->
  exists drawn t rest b,
    ts = drawn ++ t :: rest /\
    fold_left (draw_next mode blendMode) drawn (Ok buffer) = Ok b /\
    snd (drawTile render b t mode blendMode) = Throw e /\
    fst (drawTiles render buffer ts mode blendMode) = drawn ++ [t].
Proof.
  revert buffer. induction ts as [|t ts IH]; intros buffer; [done|].
  cbn [drawTiles]. rewrite fst_bindM, snd_bindM, drawTile_trace.
  destruct (snd (drawTile render buffer t mode blendMode)) as [b1|e1] eqn:Ht.
  - intros Hrest.
    destruct (IH b1 Hrest) as (drawn & t' & rest & b & -> & Hfold & Hfail & Htrace).
    exists (t :: drawn), t', rest, b. split; [done|]. split.
    { cbn [fold_left bind]. by rewrite Ht. }
    split; [done|]. by rewrite Htrace.
  - intros [= ->]. exists [], t, ts, buffer. by rewrite Ht.
Qed.

(** X14: [drawWith2D] draws nothing when [validateRegion] rejects the
    region.  Otherwise it draws the tiles of the region one after the
    other, each onto the buffer the tiles before it left: its outcome is
    that of drawing them all in order; when it returns, every tile has
    been drawn once, in order; when it throws, the tiles before the one
    that failed were drawn, that one was attempted, and no tile after
    it. *)
Theorem drawWith2D_draws_tiles (buffer : ColorBuffer.t) (options : DrawWith2DOptions) :
  let target :=
    default (mkRegion 0 0 (ColorBuffer.width buffer) (ColorBuffer.height buffer))
            (region options) in
  let mode := default overwrite (mode options) in
  let blendMode := default ColorBuffer.normal (blendMode options) in
  let run := drawWith2D render buffer options in
  (forall e,
     validateRegion target (ColorBuffer.width buffer) (ColorBuffer.height buffer)
     = Throw e ->
     run = ([], Throw e) /\ exists msg, e = RangeError msg) /\
  (validateRegion target (ColorBuffer.width buffer) (ColorBuffer.height buffer)
   = Ok tt ->
   snd run = fold_left (draw_next mode blendMode) (tiles target) (Ok buffer) /\
   (forall b', snd run = Ok b' -> fst run = tiles target) /\
   (forall e, snd run = Throw e ->
      exists drawn t rest b,
        tiles target = drawn ++ t :: rest /\
        fold_left (draw_next mode blendMode) drawn (Ok buffer) = Ok b /\
        snd (drawTile render b t mode blendMode) = Throw e /\
        fst run = drawn ++ [t])).
Proof.
  intros target mode blendMode run. subst run. unfold drawWith2D.
  fold target mode blendMode. split.
  - intros e He. rewrite He. split; [done|].
    unfold validateRegion in He.
    destruct (_ || _ || _ || _); [injection He as <-; by eexists|].
    destruct (_ || _); [injection He as <-; by eexists | done].
  - intros Hok. rewrite Hok. cbn [bindM lift].
    destruct (drawTiles render buffer (tiles target) mode blendMode)
      as [trace outcome] eqn:Hrun.
    cbn [fst snd app].
    pose proof (drawTiles_fold (tiles target) buffer mode blendMode) as Hfold.
    pose proof (drawTiles_trace (tiles target) buffer mode blendMode) as [_ Hall].
    pose proof (drawTiles_Throw (tiles target) buffer mode blendMode) as Hfail.
    rewrite Hrun in Hfold, Hall, Hfail. cbn [fst snd] in Hfold, Hall, Hfail.
    split; [done|]. split; [done|]. exact Hfail.
Qed.

End Host.

End Canvas2DBridgeFacts.

Module DrawTileFacts.
Import JS ColorBuffer Canvas2DBridge ArrayFacts TypedArrayFacts ColorBufferFacts
  RegionFacts Canvas2DBridgeFacts.

Lemma length_rowFloats (k : float_kind) (pixels : list Z) (rowStart tileW : Z) :
  0 <= tileW ->
  Z.of_nat (length (rowFloats k pixels rowStart tileW)) = tileW * 4.
Proof. intros H. unfold rowFloats. rewrite length_map, length_seqZ. lia. Qed.

Lemma get_rowFloats (k : float_kind) (pixels : list Z) (rowStart tileW i : Z) :
  0 <= i < tileW * 4 ->
  get (rowFloats k pixels rowStart tileW) i =
  element k (sample pixels (rowStart + i) * inv255)%float.
Proof.
  intros Hi. apply get_lookup; [lia|]. unfold rowFloats.
  rewrite list_lookup_fmap, lookup_seqZ_lt by lia. cbn [fmap option_fmap option_map].
  replace (0 + Z.of_nat (Z.to_nat i)) with i by lia. done.
Qed.

Lemma drawTile_rows_overwrite_spec (pixels : list Z) (tX tY tW : Z)
    (bm : BlendMode) (n : nat) (row : Z) (b : t) :
  wf b -> 0 <= tX -> 0 <= tY -> 0 < tW -> tX + tW <= ColorBuffer.width b ->
  0 <= row -> tY + row + Z.of_nat n <= ColorBuffer.height b ->
  exists d',
    drawTile_rows pixels tX tY tW overwrite bm n row b = Ok (with_data b d') /\
    length d' = length (data b) /\
    forall r c, 0 <= c < ColorBuffer.width b * 4 ->
      get d' (r * (ColorBuffer.width b * 4) + c) =
      if (tY + row <=? r) && (r <? tY + row + Z.of_nat n)
         && (tX * 4 <=? c) && (c <? tX * 4 + tW * 4)
      then element (kind_of (depth b))
             (element (kind_of (depth b))
                (sample pixels ((r - tY) * tW * 4 + (c - tX * 4)) * inv255)%float)
      else get (data b) (r * (ColorBuffer.width b * 4) + c).
Proof.
  intros Hwf HtX HtY HtW Hfit. revert row b Hwf Hfit.
  induction n as [|n IH]; intros row b Hwf Hfit Hrow Hn.
  - exists (data b). split; [by destruct b|]. split; [done|]. intros r c Hc.
    destruct (Z.leb_spec (tY + row) r), (Z.ltb_spec r (tY + row + Z.of_nat 0));
      try done; lia.
  - pose proof Hwf as (HW & HH & Hlen).
    cbn [drawTile_rows]. unfold setRowUnchecked.
    set (k := kind_of (depth b)).
    set (floats := rowFloats k pixels (row * tW * 4) tW).
    pose proof (length_rowFloats k pixels (row * tW * 4) tW ltac:(lia)) as Hfl.
    fold floats in Hfl.
    pose proof (length_float_subarray floats 0 (tW * 4) ltac:(lia) ltac:(lia)) as Hsl.
    destruct (float_set_row k (data b) (float_subarray floats 0 (tW * 4))
                (ColorBuffer.width b * 4) (tY + row) (tX * 4))
      as (d1 & Hset & Hl1 & Hg1); [lia | lia | lia | nia |].
    replace (((tY + row) * ColorBuffer.width b + tX) * 4)
      with ((tY + row) * (ColorBuffer.width b * 4) + tX * 4) by lia.
    rewrite Hset. cbn [bind].
    destruct (IH (row + 1) (with_data b d1)) as (d' & Hloop & Hl' & Hg').
    { unfold wf. cbn [with_data ColorBuffer.width ColorBuffer.height data]. lia. }
    { done. } { lia. } { cbn [with_data ColorBuffer.height]. lia. }
    cbn [with_data ColorBuffer.width ColorBuffer.height depth data] in *.
    exists d'. split; [done|]. split; [lia|].
    intros r c Hc. rewrite (Hg' r c Hc), (Hg1 r c Hc). fold k.
    destruct (Z.eqb_spec r (tY + row)) as [-> | Hne].
    + destruct (Z.leb_spec (tY + (row + 1)) (tY + row)); [lia|].
      destruct (Z.leb_spec (tY + row) (tY + row)); [|lia].
      destruct (Z.ltb_spec (tY + row) (tY + row + Z.of_nat (S n))); [|lia].
      cbn [andb].
      destruct (Z.leb_spec (tX * 4) c); cbn [andb]; [|done].
      rewrite Hsl. replace (tX * 4 + (tW * 4 - 0)) with (tX * 4 + tW * 4) by lia.
      destruct (Z.ltb_spec c (tX * 4 + tW * 4)); [|done].
      rewrite get_float_subarray by lia. unfold floats.
      rewrite get_rowFloats by lia. do 4 f_equal. lia.
    + cbn [andb].
      destruct (Z.leb_spec (tY + (row + 1)) r), (Z.leb_spec (tY + row) r); try lia;
        cbn [andb]; [|done].
      destruct (Z.ltb_spec r (tY + (row + 1) + Z.of_nat n)),
        (Z.ltb_spec r (tY + row + Z.of_nat (S n))); try lia; done.
Qed.

(** X15: the writes of one tile in overwrite mode: every pixel of the tile
    receives the four bytes read back for it, each times 1/255 and
    stored through the row array and the buffer; no pixel outside the
    tile changes. *)
Theorem drawTile_rows_overwrite (pixels : list Z) (tX tY tW tH : Z)
    (bm : BlendMode) (b : t) :
  wf b -> 0 <= tX -> 0 <= tY -> 0 < tW -> 0 < tH ->
  tX + tW <= ColorBuffer.width b -> tY + tH <= ColorBuffer.height b ->
  let store v := element (kind_of (depth b)) (element (kind_of (depth b)) v) in
  exists b',
    drawTile_rows pixels tX tY tW overwrite bm (Z.to_nat tH) 0 b = Ok b' /\
    wf b' /\ ColorBuffer.width b' = ColorBuffer.width b /\
    ColorBuffer.height b' = ColorBuffer.height b /\ depth b' = depth b /\
    (forall col row, 0 <= col < tW -> 0 <= row < tH ->
       let i := (row * tW + col) * 4 in
       getPixel b' (tX + col) (tY + row) =
       Ok (store (sample pixels i * inv255)%float,
           store (sample pixels (i + 1) * inv255)%float,
           store (sample pixels (i + 2) * inv255)%float,
           store (sample pixels (i + 3) * inv255)%float)) /\
    (forall x' y',
       0 <= x' < ColorBuffer.width b -> 0 <= y' < ColorBuffer.height b ->
       ~ (tX <= x' < tX + tW /\ tY <= y' < tY + tH) ->
       getPixel b' x' y' = getPixel b x' y').
Proof.
  intros Hwf HtX HtY HtW HtH HfitX HfitY store.
  pose proof Hwf as (HW & HH & Hlen).
  destruct (drawTile_rows_overwrite_spec pixels tX tY tW bm (Z.to_nat tH) 0 b)
    as (d' & Hrows & Hl' & Hg'); try done; try lia.
  exists (with_data b d'). split; [done|].
  split; [unfold wf; cbn [with_data ColorBuffer.width ColorBuffer.height data]; lia|].
  cbn [with_data ColorBuffer.width ColorBuffer.height depth]. do 3 (split; [done|]).
  split.
  - intros col row Hcol Hrow. cbv zeta.
    rewrite getPixel_in_bounds by (cbn; lia).
    cbn [with_data data ColorBuffer.width].
    rewrite !Hg' by lia.
    repeat match goal with
    | |- context [?a <=? ?c] => destruct (Z.leb_spec a c); [|lia]
    | |- context [?c <? ?a] => destruct (Z.ltb_spec c a); [|lia]
    end.
    cbn [andb]. unfold store.
    replace ((tY + row - tY) * tW * 4 + ((tX + col) * 4 + 0 - tX * 4))
      with ((row * tW + col) * 4) by lia.
    replace ((tY + row - tY) * tW * 4 + ((tX + col) * 4 + 1 - tX * 4))
      with ((row * tW + col) * 4 + 1) by lia.
    replace ((tY + row - tY) * tW * 4 + ((tX + col) * 4 + 2 - tX * 4))
      with ((row * tW + col) * 4 + 2) by lia.
    replace ((tY + row - tY) * tW * 4 + ((tX + col) * 4 + 3 - tX * 4))
      with ((row * tW + col) * 4 + 3) by lia.
    done.
  - intros x' y' Hx' Hy' Hout.
    rewrite (getPixel_in_bounds b) by lia.
    rewrite getPixel_in_bounds by (cbn; lia).
    cbn [with_data data ColorBuffer.width].
    rewrite !Hg' by lia.
    assert (Hcase : forall ch, 0 <= ch < 4 ->
      (tY + 0 <=? y') && (y' <? tY + 0 + Z.of_nat (Z.to_nat tH))
      && (tX * 4 <=? x' * 4 + ch) && (x' * 4 + ch <? tX * 4 + tW * 4) = false).
    { intros ch Hch.
      destruct (Z.leb_spec (tY + 0) y'); [|done].
      destruct (Z.ltb_spec y' (tY + 0 + Z.of_nat (Z.to_nat tH))); [|done].
      destruct (Z.leb_spec (tX * 4) (x' * 4 + ch)); [|done].
      destruct (Z.ltb_spec (x' * 4 + ch) (tX * 4 + tW * 4)); [|done].
      lia. }
    rewrite !Hcase by lia. done.
Qed.

(** X16: in blend mode a tile whose pixels all have alpha byte 0 leaves the
    buffer exactly as it was. *)
Theorem drawTile_rows_blend_transparent (pixels : list Z) (tX tY tW tH : Z)
    (bm : BlendMode) (b : t) :
  0 <= tW -> 0 <= tH ->
  (forall p, 0 <= p < tW * tH -> pixels !! Z.to_nat (p * 4 + 3) = Some 0) ->
  drawTile_rows pixels tX tY tW blend bm (Z.to_nat tH) 0 b = Ok b.
Proof.
  intros HtW HtH Hzero.
  assert (Hrows : forall (n : nat) (row : Z),
    0 <= row -> row + Z.of_nat n <= tH ->
    drawTile_rows pixels tX tY tW blend bm n row b = Ok b).
  { induction n as [|n IH]; intros row Hrow Hn; [done|].
    cbn [drawTile_rows bind]. unfold blendRowUnchecked.
    rewrite blendRow_loop_transparent.
    - replace (with_data b (data b)) with b by (by destruct b). apply IH; lia.
    - intros q Hq. rewrite get_rowFloats by lia.
      unfold sample. destruct (Z.ltb_spec (row * tW * 4 + (q * 4 + 3)) 0); [nia|].
      replace (row * tW * 4 + (q * 4 + 3)) with ((row * tW + q) * 4 + 3) by lia.
      rewrite Hzero by nia. by destruct (kind_of (depth b)). }
  apply Hrows; lia.
Qed.

(** X17: every 8-bit sample converts to a number in [0,1]: 0 to 0, 255 to 1,
    and a larger sample to a larger number. *)
Theorem sample_conversion :
  (of_Z 0 * inv255 = 0)%float /\ (of_Z 255 * inv255 = 1)%float /\
  forallb (fun p => ToneMapper.in_unit_range (of_Z p * inv255)%float) (seqZ 0 256)
    = true /\
  forallb (fun p => lt (of_Z p * inv255) (of_Z (p + 1) * inv255)) (seqZ 0 255) = true.
Proof. repeat split; vm_compute; reflexivity. Qed.

End DrawTileFacts.

(** ** Paper sizes and the canvas constructor *)

Module PaperSizeFacts.
Import JS PaperSize.

(** X18: [resolvePaperSize]: every predefined size resolves, in portrait to
    the registry entry, whose width is below its height, in landscape
    to the entry with width and height exchanged; custom dimensions
    are rejected exactly when one of them is [<= 0]; and resolving a
    landscape result in landscape again gives the dimensions back. *)
Theorem resolvePaperSize_orientation :
  (forall key,
     resolvePaperSize (Key key) portrait = Ok (PAPER_SIZES key) /\
     resolvePaperSize (Key key) landscape =
       Ok (mkPaper (heightMM (PAPER_SIZES key)) (widthMM (PAPER_SIZES key))) /\
     lt (widthMM (PAPER_SIZES key)) (heightMM (PAPER_SIZES key)) = true) /\
  (forall dims o,
     resolvePaperSize (Custom dims) o =
       Throw (RangeError "Paper dimensions must be positive") <->
     le (widthMM dims) 0 = true \/ le (heightMM dims) 0 = true) /\
  (forall size dims,
     resolvePaperSize size landscape = Ok dims ->
     resolvePaperSize (Custom dims) landscape = resolvePaperSize size portrait).
Proof.
  split; [|split].
  - intros key. by destruct key.
  - intros dims o. unfold resolvePaperSize.
    destruct (le (widthMM dims) 0), (le (heightMM dims) 0); cbn [orb];
      destruct o; split; first [done | by intros [|] | by auto ].
  - intros size dims. unfold resolvePaperSize.
    set (d := match size with Key key => PAPER_SIZES key | Custom d => d end).
    destruct (le (widthMM d) 0) eqn:Hw, (le (heightMM d) 0) eqn:Hh; cbn [orb];
      try done.
    intros [= <-]. cbn [widthMM heightMM]. rewrite Hw, Hh. cbn [orb].
    by destruct d.
Qed.

End PaperSizeFacts.

Module HDCanvasFacts.
Import JS PaperSize HDCanvas FloatFacts.

Lemma ColorBuffer_new_inv (w h : Z) (d : ColorBuffer.ColorDepth) (b : ColorBuffer.t) :
  ColorBuffer.new w h d = Ok b ->
  0 < w /\ 0 < h /\ b = ColorBuffer.mk w h d (replicate (Z.to_nat (w * h * 4)) zero).
Proof.
  unfold ColorBuffer.new, ColorBuffer.construct, ColorBuffer.allocate.
  destruct (Z.leb_spec w 0); [done|]. destruct (Z.leb_spec h 0); [done|].
  by intros [= <-].
Qed.

Lemma new_ColorBuffer_inv (width height : number) (d : ColorBuffer.ColorDepth)
    (b : ColorBuffer.t) :
  new_ColorBuffer width height d = Ok b ->
  exists w h, integer_value width = Some w /\ integer_value height = Some h /\
    0 < w /\ 0 < h /\
    b = ColorBuffer.mk w h d (replicate (Z.to_nat (w * h * 4)) zero).
Proof.
  unfold new_ColorBuffer.
  destruct (integer_value width) as [w|]; [|done].
  destruct (Z.leb_spec w 0); [done|].
  destruct (integer_value height) as [h|]; [|done].
  intros (Hw & Hh & ->)%ColorBuffer_new_inv. by exists w, h.
Qed.

Lemma new_ColorBuffer_Ok (width height : number) (d : ColorBuffer.ColorDepth) (w h : Z) :
  integer_value width = Some w -> integer_value height = Some h -> 0 < w -> 0 < h ->
  new_ColorBuffer width height d =
  Ok (ColorBuffer.mk w h d (replicate (Z.to_nat (w * h * 4)) zero)).
Proof.
  intros Hw Hh Hw0 Hh0.
  unfold new_ColorBuffer, ColorBuffer.new, ColorBuffer.construct, ColorBuffer.allocate.
  rewrite Hw, Hh.
  destruct (Z.leb_spec w 0); [lia|]. destruct (Z.leb_spec h 0); [lia|]. done.
Qed.

Lemma integer_value_nan_mul (a dpi : number) :
  Prim2SF dpi = S754_nan -> integer_value (Math_round (a * dpi)) = None.
Proof.
  intros Hnan.
  assert (Hm : Prim2SF (a * dpi) = S754_nan).
  { rewrite mul_spec, Hnan. by destruct (Prim2SF a). }
  unfold Math_round. rewrite Hm. unfold integer_value. by rewrite Hm.
Qed.

Lemma positive_number (x : number) :
  le x 0 = false -> Prim2SF x <> S754_nan -> gt x 0 = true.
Proof.
  unfold le, gt. rewrite leb_spec, ltb_spec.
  change (Prim2SF 0) with (S754_zero false).
  by destruct (Prim2SF x) as [[]|[]| |[] m e].
Qed.

Lemma new_inv (options : HDCanvasOptions) (c : t) :
  new options = Ok c ->
  let dpi := default 300%float (dpi options) in
  exists paper w h,
    le dpi 0 = false /\
    resolvePaperSize (paperSize options)
      (default portrait (orientation options)) = Ok paper /\
    integer_value (Math_round (widthMM paper / MM_PER_INCH * dpi)) = Some w /\
    integer_value (Math_round (heightMM paper / MM_PER_INCH * dpi)) = Some h /\
    0 < w /\ 0 < h /\
    c = mk (Math_round (widthMM paper / MM_PER_INCH * dpi))
           (Math_round (heightMM paper / MM_PER_INCH * dpi)) dpi
           (default ColorBuffer.D32 (colorDepth options))
           (ColorBuffer.mk w h (default ColorBuffer.D32 (colorDepth options))
              (replicate (Z.to_nat (w * h * 4)) zero))
           paper.
Proof.
  intros Hnew dpi. unfold new in Hnew. fold dpi in Hnew.
  destruct (le dpi 0) eqn:Hdpi; [done|].
  destruct (resolvePaperSize _ _) as [paper|e]; [|done]. cbn [bind] in Hnew.
  unfold sizeToPx in Hnew. rewrite Hdpi in Hnew.
  cbn [bind PaperSize.width PaperSize.height] in Hnew.
  destruct (new_ColorBuffer _ _ _) as [b|e] eqn:Hb; [|done].
  cbn [bind] in Hnew. injection Hnew as <-.
  apply new_ColorBuffer_inv in Hb as (w & h & Hw & Hh & Hw0 & Hh0 & ->).
  exists paper, w, h. done.
Qed.

(** X19: a constructed canvas: the resolution is positive, the pixel size
    is the paper size at that resolution, rounded, and it is the size
    of the buffer, which is allocated transparent black at the
    requested colour depth. *)
Theorem new_canvas (options : HDCanvasOptions) (c : t) :
  new options = Ok c ->
  gt (canvas_dpi c) 0 = true /\
  sizeToPx (paperMM c) (canvas_dpi c) = Ok (mkPixels (widthPx c) (heightPx c)) /\
  integer_value (widthPx c) = Some (ColorBuffer.width (buffer c)) /\
  integer_value (heightPx c) = Some (ColorBuffer.height (buffer c)) /\
  ColorBuffer.wf (buffer c) /\
  ColorBuffer.depth (buffer c) = default ColorBuffer.D32 (colorDepth options) /\
  memoryBytes c =
    ColorBuffer.width (buffer c) * ColorBuffer.height (buffer c) * 4
    * match ColorBuffer.depth (buffer c) with
      | ColorBuffer.D32 => 4 | ColorBuffer.D64 => 8 end /\
  forall x y,
    0 <= x < ColorBuffer.width (buffer c) -> 0 <= y < ColorBuffer.height (buffer c) ->
    ColorBuffer.getPixel (buffer c) x y = Ok (0, 0, 0, 0)%float.
Proof.
  intros Hnew. apply new_inv in Hnew. cbv zeta in Hnew.
  destruct Hnew as (paper & w & h & Hdpi & Hres & Hw & Hh & Hw0 & Hh0 & ->).
  cbn [canvas_dpi paperMM widthPx heightPx buffer ColorBuffer.width ColorBuffer.height
       ColorBuffer.depth].
  split.
  { apply positive_number; [done|]. intros Hnan.
    by rewrite (integer_value_nan_mul _ _ Hnan) in Hw. }
  split; [unfold sizeToPx; by rewrite Hdpi|].
  do 2 (split; [done|]).
  assert (Hwf : ColorBuffer.wf
            (ColorBuffer.mk w h (default ColorBuffer.D32 (colorDepth options))
               (replicate (Z.to_nat (w * h * 4)) zero))).
  { unfold ColorBuffer.wf. cbn [ColorBuffer.width ColorBuffer.height ColorBuffer.data].
    rewrite length_replicate. lia. }
  split; [done|]. split; [done|]. split.
  { unfold memoryBytes, ColorBuffer.byteLength.
    cbn [buffer ColorBuffer.data ColorBuffer.depth]. rewrite length_replicate. lia. }
  intros x y Hx Hy. unfold ColorBuffer.getPixel.
  rewrite ColorBufferFacts.offset_in_bounds by (cbn; lia).
  cbn [bind ColorBuffer.data ColorBuffer.width].
  rewrite !BufferFacts.get_replicate_zero by nia. done.
Qed.

(** X20: the constructor rejects a resolution that is not positive before
    anything else, and one that is not a number when it sizes the
    buffer. *)
Theorem new_rejects_bad_dpi (options : HDCanvasOptions) (d : number) :
  dpi options = Some d ->
  (le d 0 = true -> new options = Throw (RangeError "DPI must be positive")) /\
  (Prim2SF d = S754_nan -> forall c, new options <> Ok c).
Proof.
  intros Hd. split.
  - intros Hle. unfold new. rewrite Hd. cbn [default from_option id]. cbv zeta.
    by rewrite Hle.
  - intros Hnan c Hnew. apply new_inv in Hnew. cbv zeta in Hnew.
    rewrite Hd in Hnew. cbn [default from_option id] in Hnew.
    destruct Hnew as (paper & w & h & _ & _ & Hw & _).
    by rewrite (integer_value_nan_mul _ _ Hnan) in Hw.
Qed.

(** X21: a landscape canvas is the portrait canvas of the same paper with
    width and height exchanged; both occupy the same memory. *)
Theorem new_landscape (size : size_input) (d : option number)
    (depth : option ColorBuffer.ColorDepth) (c : t) :
  new (mkOptions size d depth (Some landscape)) = Ok c ->
  exists c',
    new (mkOptions size d depth (Some portrait)) = Ok c' /\
    widthPx c = heightPx c' /\ heightPx c = widthPx c' /\
    ColorBuffer.width (buffer c) = ColorBuffer.height (buffer c') /\
    ColorBuffer.height (buffer c) = ColorBuffer.width (buffer c') /\
    memoryBytes c = memoryBytes c'.
Proof.
  intros Hnew. apply new_inv in Hnew. cbv zeta in Hnew.
  cbn [dpi paperSize orientation colorDepth default from_option id] in Hnew.
  destruct Hnew as (paper & w & h & Hdpi & Hres & Hw & Hh & Hw0 & Hh0 & ->).
  unfold resolvePaperSize in Hres.
  set (dims := match size with Key key => PAPER_SIZES key | Custom dims => dims end)
    in Hres.
  destruct (le (widthMM dims) 0 || le (heightMM dims) 0) eqn:Hpos; [done|].
  injection Hres as <-. cbn [widthMM heightMM] in *.
  unfold new. cbn [dpi paperSize orientation colorDepth default from_option id].
  cbv zeta.
  rewrite Hdpi. unfold resolvePaperSize. fold dims. rewrite Hpos. cbn [bind].
  unfold sizeToPx. rewrite Hdpi. cbn [bind PaperSize.width PaperSize.height].
  rewrite (new_ColorBuffer_Ok _ _ _ h w) by done. cbn [bind].
  eexists. split; [done|].
  cbn [widthPx heightPx buffer ColorBuffer.width ColorBuffer.height].
  do 4 (split; [done|]).
  unfold memoryBytes, ColorBuffer.byteLength.
  cbn [buffer ColorBuffer.data ColorBuffer.depth]. rewrite !length_replicate.
  f_equal. lia.
Qed.



End HDCanvasFacts.

(** ** Tone mapper output *)

Module ToneMapperMoreFacts.
Import JS Binary64 ToneMapper FloatFacts ToneMapperFacts.

(** Of two numbers, neither NaN, one is at most the other. *)
Lemma leb_of_not_ltb (x y : number) :
  Prim2SF x <> S754_nan -> Prim2SF y <> S754_nan ->
  (y <? x)%float = false -> (x <=? y)%float = true.
Proof.
  rewrite ltb_spec, leb_spec. unfold SFltb, SFleb.
  rewrite (SFcompare_antisym (Prim2SF x) (Prim2SF y)).
  destruct (Prim2SF x) as [[]|[]| |[] mx ex], (Prim2SF y) as [[]|[]| |[] my ey];
    try done; intros _ _; cbn [SFcompare option_map];
    by destruct (ex ?= ey), (Pos.compare_cont Eq mx my).
Qed.

Lemma ltb_of_leb (x y : number) :
  (x <=? y)%float = true -> (y <? x)%float = false.
Proof.
  rewrite ltb_spec, leb_spec. unfold SFltb, SFleb.
  rewrite (SFcompare_antisym (Prim2SF x) (Prim2SF y)).
  by destruct (SFcompare (Prim2SF x) (Prim2SF y)) as [[]|].
Qed.

Lemma leb_not_nan (x y : number) :
  (x <=? y)%float = true -> Prim2SF x <> S754_nan /\ Prim2SF y <> S754_nan.
Proof.
  rewrite leb_spec. unfold SFleb.
  by destruct (Prim2SF x) as [[]|[]| |[] mx ex], (Prim2SF y) as [[]|[]| |[] my ey].
Qed.

Lemma clamp_inside (v : number) : in_unit_range v = true -> clamp v = v.
Proof.
  unfold in_unit_range, le, clamp, lt, gt. intros [H0 H1]%andb_true_iff.
  by rewrite (ltb_of_leb _ _ H0), (ltb_of_leb _ _ H1).
Qed.

Lemma clamp_range (v : number) :
  Prim2SF v <> S754_nan -> in_unit_range (clamp v) = true.
Proof.
  intros Hv. unfold clamp, lt, gt.
  destruct (v <? 0)%float eqn:H0; [reflexivity|].
  destruct (1 <? v)%float eqn:H1; [reflexivity|].
  unfold in_unit_range, le.
  rewrite (leb_of_not_ltb 0 v), (leb_of_not_ltb v 1); done.
Qed.

Lemma clamp_nan (v : number) : Prim2SF v = S754_nan -> clamp v = v.
Proof.
  intros Hnan. unfold clamp, lt, gt. rewrite !ltb_spec, Hnan.
  change (Prim2SF 0) with (S754_zero false). change (Prim2SF 1) with SF_one.
  done.
Qed.

(** X23: [clamp] maps every number that is not NaN into [0,1], leaves the numbers
    of [0,1] as they are, returns NaN for NaN, and clamping twice is the
    same as clamping once. *)
Theorem clamp_unit (v : number) :
  (Prim2SF v <> S754_nan -> in_unit_range (clamp v) = true) /\
  (in_unit_range v = true -> clamp v = v) /\
  (Prim2SF v = S754_nan -> clamp v = v) /\
  clamp (clamp v) = clamp v.
Proof.
  split; [apply clamp_range|]. split; [apply clamp_inside|].
  split; [apply clamp_nan|].
  destruct (Prim2SF v) eqn:Hv;
    try (apply clamp_inside, clamp_range; rewrite Hv; discriminate).
  by rewrite !(clamp_nan v Hv).
Qed.

(** *** Shape of the quantized output *)

Lemma to_elem_range (k : int_kind) (v : number) :
  0 <= to_elem k v < (match k with Uint8 => 2 ^ 8 | Uint16 => 2 ^ 16 end).
Proof. destruct k; apply Z.mod_pos_bound; lia. Qed.

Lemma length_flat_map_4 {A} (f : A -> list Z) (l : list A) :
  (forall x, length (f x) = 4%nat) -> length (flat_map f l) = (4 * length l)%nat.
Proof.
  intros Hf. induction l as [|x l IH]; [done|].
  cbn [flat_map]. rewrite length_app, Hf, IH. cbn [length]. lia.
Qed.

Lemma Forall_flat_map_4 {A} (P : Z -> Prop) (f : A -> list Z) (l : list A) :
  (forall x, Forall P (f x)) -> Forall P (flat_map f l).
Proof.
  intros Hf. induction l as [|x l IH]; [constructor|].
  cbn [flat_map]. apply Forall_app_2; [apply Hf | apply IH].
Qed.

Section Pow.
Variable Math_pow : number -> number -> number.

Lemma lut_get_range (tm : t) (i : Z) :
  0 <= lut_get (build_gammaLut Math_pow tm) i < 2 ^ 8.
Proof.
  unfold lut_get. destruct (i <? 0); [lia|].
  destruct (build_gammaLut Math_pow tm !! Z.to_nat i) as [z|] eqn:Hz;
    cbn [default from_option id]; [|lia].
  unfold build_gammaLut in Hz. rewrite list_lookup_fmap in Hz.
  destruct (seq 0 (Z.to_nat (LUT_SIZE + 1)) !! Z.to_nat i); [|discriminate].
  injection Hz as <-. apply Z.mod_pos_bound. lia.
Qed.

Lemma new_depth_cases (o : ToneMapOptions) (tm : t) :
  new Math_pow o = Ok tm ->
  (depth tm = 8 /\ maxVal tm = 255%float) \/ (depth tm = 16 /\ maxVal tm = 65535%float).
Proof.
  unfold new.
  destruct (match algorithm o with Named _ => _ | Custom _ => _ end) as [fn|e];
    cbn [bind]; [|discriminate].
  destruct (le _ _); [discriminate|].
  destruct (Z.eqb_spec (default 8 (outputDepth o)) 8) as [H8|H8];
    destruct (Z.eqb_spec (default 8 (outputDepth o)) 16) as [H16|H16];
    cbn [negb andb]; try discriminate; intros [= <-]; cbn [depth maxVal];
    [lia | by left | by right].
Qed.

(** X24: the constructor lets through no depth but 8 and 16; and for
    every mapper of depth 8 or 16 whose range-compression function
    returns a number on every number (the three registered functions do),
    whatever the buffer holds, the output of [map] is a [Uint8Array] for
    depth 8 and a [Uint16Array] for depth 16, has four values for each of
    the width * height pixels, and every value lies in the range of the
    output depth. *)
Theorem map_output (tm : t) (input : ColorBuffer.t) :
  depth tm = 8 \/ depth tm = 16 ->
  let out := map Math_pow tm input in
  (forall o tm', new Math_pow o = Ok tm' -> depth tm' = 8 \/ depth tm' = 16) /\
  (depth tm = 8 /\ kind out = Uint8 \/ depth tm = 16 /\ kind out = Uint16) /\
  length (elems out)
  = (4 * Z.to_nat (ColorBuffer.width input * ColorBuffer.height input))%nat /\
  Forall (fun z => 0 <= z < 2 ^ depth tm) (elems out).
Proof.
  intros Hdepth out. subst out. split.
  { intros o tm' Hnew. destruct (new_depth_cases o tm' Hnew) as [[Hd _]|[Hd _]]; auto. }
  destruct Hdepth as [Hd|Hd]; unfold map; rewrite Hd;
    cbn [Z.eqb Pos.eqb kind elems].
  - split; [by left|]. split.
    + rewrite length_flat_map_4 by done. by rewrite length_map, length_seq.
    + apply Forall_flat_map_4. intros i.
      repeat constructor; try apply lut_get_range; apply (to_elem_range Uint8).
  - split; [by right|]. split.
    + rewrite length_flat_map_4 by done. by rewrite length_map, length_seq.
    + apply Forall_flat_map_4. intros i.
      repeat constructor; apply (to_elem_range Uint16).
Qed.

End Pow.

End ToneMapperMoreFacts.

(** ** PNG export *)

Module PNGExportFacts.
Import JS PNGExporter PNGExporterFacts TraceFacts.

(** X25: the table-driven checksum is the CRC-32 of the format on every byte
    sequence, and an unsigned 32-bit value. *)
Theorem crc32_table_driven (data : list Z) :
  Forall (fun b => 0 <= b < 256) data ->
  crc32 data = crc32_reference data /\ 0 <= crc32 data < 2 ^ 32.
Proof.
  intros Hdata. split; [by apply crc32_is_reference | apply crc32_range].
Qed.

Lemma injectPHYs_Ok (png : list Z) (dpi : number) :
  magic_ok png -> (33 <= length png)%nat ->
  injectPHYs png dpi = Ok (take 33 png ++ buildPHYsChunk dpi ++ drop 33 png).
Proof.
  intros Hm Hlen. unfold injectPHYs.
  rewrite (proj2 (magic_check png) Hm).
  pose proof (length_buildPHYsChunk dpi) as Hphys.
  set (phys := buildPHYsChunk dpi) in *.
  unfold subarray, IHDR_END. rewrite Hphys, drop_0.
  change (8 + 25 - 0)%nat with 33%nat. change (8 + 25 + 21)%nat with 54%nat.
  change (8 + 25)%nat with 33%nat.
  rewrite (take_ge (drop _ png)) by (rewrite length_drop; lia).
  assert (Ht : length (take 33 png) = 33%nat) by (rewrite length_take; lia).
  rewrite TypedArray_set_Ok; cycle 1.
  { rewrite length_replicate, Ht. lia. }
  rewrite take_0, Ht, drop_replicate. cbn [bind app].
  rewrite TypedArray_set_Ok; cycle 1.
  { rewrite length_app, length_replicate, Ht. lia. }
  cbn [bind].
  rewrite take_app_length' by done.
  rewrite drop_app_ge by lia.
  rewrite Ht, drop_replicate, Hphys.
  rewrite TypedArray_set_Ok; cycle 1.
  { rewrite !length_app, length_replicate, Ht, length_drop. lia. }
  f_equal.
  rewrite (app_assoc (take 33 png) phys).
  rewrite take_app_length' by (rewrite length_app, Ht; lia).
  rewrite (drop_ge (_ ++ _))
    by (rewrite !length_app, length_replicate, Ht, length_drop; lia).
  by rewrite app_nil_r, <- app_assoc.
Qed.

Lemma injectPHYs_short (png : list Z) (dpi : number) :
  magic_ok png -> (length png < 33)%nat ->
  injectPHYs png dpi = Throw (RangeError "offset is out of bounds").
Proof.
  intros Hm Hlen. unfold injectPHYs.
  rewrite (proj2 (magic_check png) Hm).
  pose proof (length_buildPHYsChunk dpi) as Hphys.
  set (phys := buildPHYsChunk dpi) in *.
  unfold subarray, IHDR_END. rewrite Hphys, drop_0.
  rewrite (take_ge png) by lia.
  rewrite TypedArray_set_Ok by (rewrite length_replicate; lia).
  cbn [bind]. unfold TypedArray_set at 1.
  rewrite take_0, !length_app, length_drop, length_replicate, Hphys. cbn [length].
  destruct (Nat.ltb_spec (0 + (length png + (length png + 21 - (0 + length png))))
              (8 + 25 + 21)); [done | lia].
Qed.

Lemma magic_ok_dec (png : list Z) : magic_ok png \/ ~ magic_ok png.
Proof.
  destruct (negb (bool_decide (png !! 0%nat = Some 0x89))
            || negb (bool_decide (png !! 1%nat = Some 0x50))
            || negb (bool_decide (png !! 2%nat = Some 0x4e))
            || negb (bool_decide (png !! 3%nat = Some 0x47))) eqn:Hc.
  - right. intros Hm. apply magic_check in Hm. congruence.
  - left. by apply magic_check.
Qed.

Lemma injectPHYs_no_magic (png : list Z) (dpi : number) :
  ~ magic_ok png -> injectPHYs png dpi = Throw (Error "Not a valid PNG file").
Proof.
  intros Hm. unfold injectPHYs.
  destruct (negb _ || _ || _ || _) eqn:Hc; [done|].
  exfalso. by apply Hm, magic_check.
Qed.

(** X26: the three outcomes of [injectPHYs]: without the four magic bytes it
    throws 'Not a valid PNG file'; with them but fewer than the 33 bytes
    of signature and header chunk, the typed-array copy throws a
    RangeError; otherwise the output is 21 bytes longer than the input
    and starts with the same 33 bytes. *)
Theorem injectPHYs_outcome (png : list Z) (dpi : number) :
  match injectPHYs png dpi with
  | Ok out =>
      magic_ok png /\ (33 <= length png)%nat /\
      length out = (length png + 21)%nat /\
      take 33 out = take 33 png /\ drop 54 out = drop 33 png
  | Throw e =>
      (e = Error "Not a valid PNG file" /\ ~ magic_ok png) \/
      (e = RangeError "offset is out of bounds" /\
       magic_ok png /\ (length png < 33)%nat)
  end.
Proof.
  destruct (magic_ok_dec png) as [Hm|Hm].
  - destruct (Nat.le_gt_cases 33 (length png)) as [Hlen|Hlen].
    + rewrite (injectPHYs_Ok png dpi Hm Hlen).
      assert (Ht : length (take 33 png) = 33%nat) by (rewrite length_take; lia).
      split; [done|]. split; [done|]. split; [|split].
      * rewrite !length_app, Ht, length_buildPHYsChunk, length_drop. lia.
      * by rewrite take_app_length' by done.
      * rewrite app_assoc.
        rewrite drop_app_length'
          by (rewrite length_app, Ht, length_buildPHYsChunk; lia).
        done.
    + rewrite (injectPHYs_short png dpi Hm) by lia. by right.
  - rewrite (injectPHYs_no_magic png dpi Hm). by left.
Qed.

Section Host.
Variable encode : encode_call -> result (list Z).
Variable Number_toString : number -> string.

#[local] Abbreviation export := (PNGExporter.export encode Number_toString).

Lemma export_valid (data : ToneMapper.int_array) (o : PNGExportOptions) :
  valid_arguments data o ->
  export data o =
    let call := mkCall (width o) (height o) data (default 8 (depth o)) 4 in
    bindM (emit call) (fun _ =>
    bindM (lift (encode call)) (fun pngBytes =>
    bindM (lift (injectPHYs pngBytes (dpi o))) (fun pngWithDpi =>
    ret (mkResult pngWithDpi "image/png"
           (ExportPipeline.generateFilename Number_toString
              (of_Z (width o)) (of_Z (height o)) (dpi o) None))))).
Proof.
  intros (Hw & Hh & Hdpi & Hlen & H16 & H8). unfold PNGExporter.export.
  destruct (Z.leb_spec (width o) 0); [lia|].
  destruct (Z.leb_spec (height o) 0); [lia|]. cbn [orb].
  rewrite Hdpi, Hlen, Z.eqb_refl. cbn [negb].
  unfold ToneMapper.instanceof_Uint16Array, ToneMapper.instanceof_Uint8Array.
  destruct (Z.eqb_spec (default 8 (depth o)) 16) as [E16|E16].
  { rewrite (H16 E16). cbn [negb andb].
    destruct (Z.eqb_spec (default 8 (depth o)) 8); [lia|]. done. }
  cbn [andb].
  destruct (Z.eqb_spec (default 8 (depth o)) 8) as [E8|E8]; [|done].
  rewrite (H8 E8). done.
Qed.

Lemma export_invalid (data : ToneMapper.int_array) (o : PNGExportOptions) :
  ~ valid_arguments data o ->
  exists msg, export data o = ([], Throw (Error msg)).
Proof.
  intros Hbad. unfold PNGExporter.export.
  destruct (Z.leb_spec (width o) 0); [by eexists|].
  destruct (Z.leb_spec (height o) 0); [by eexists|]. cbn [orb].
  destruct (le (dpi o) 0) eqn:Hdpi; [by eexists|].
  destruct (Z.eqb_spec (Z.of_nat (length (ToneMapper.elems data)))
              (width o * height o * 4)) as [Hlen|Hlen]; [|by eexists].
  cbn [negb].
  unfold ToneMapper.instanceof_Uint16Array, ToneMapper.instanceof_Uint8Array.
  destruct (Z.eqb_spec (default 8 (depth o)) 16) as [E16|E16];
    destruct (Z.eqb_spec (default 8 (depth o)) 8) as [E8|E8];
    destruct (ToneMapper.kind data) eqn:Hk; cbn [negb andb];
    try (by eexists); exfalso; apply Hbad; unfold valid_arguments;
    rewrite Hk; repeat split; (done || lia).
Qed.

Lemma valid_arguments_dec (data : ToneMapper.int_array) (o : PNGExportOptions) :
  valid_arguments data o \/ ~ valid_arguments data o.
Proof.
  unfold valid_arguments.
  destruct (Z.lt_ge_cases 0 (width o)); [|right; lia].
  destruct (Z.lt_ge_cases 0 (height o)); [|right; lia].
  destruct (le (dpi o) 0); [right; intros (_ & _ & ? & _); done|].
  destruct (Z.eq_dec (Z.of_nat (length (ToneMapper.elems data)))
              (width o * height o * 4)); [|right; tauto].
  destruct (Z.eq_dec (default 8 (depth o)) 16) as [E16|E16];
    destruct (Z.eq_dec (default 8 (depth o)) 8) as [E8|E8];
    destruct (ToneMapper.kind data) eqn:Hk;
    try (left; repeat split; (done || lia));
    right; intros (_ & _ & _ & _ & H16 & H8);
    try (specialize (H16 E16)); try (specialize (H8 E8)); done.
Qed.

(** X27: [export] calls the encoder exactly when its arguments are valid, once,
    with the samples, dimensions and depth it was given and four channels;
    invalid arguments are rejected with an Error before any call. *)
Theorem export_validates_first (data : ToneMapper.int_array) (o : PNGExportOptions) :
  (valid_arguments data o ->
   fst (export data o) = [mkCall (width o) (height o) data (default 8 (depth o)) 4]) /\
  (~ valid_arguments data o ->
   fst (export data o) = [] /\ exists msg, snd (export data o) = Throw (Error msg)).
Proof.
  split.
  - intros Hv. rewrite (export_valid data o Hv). cbv zeta.
    cbn [bindM emit lift].
    destruct (encode _) as [png|e]; cbn; [|done].
    destruct (injectPHYs png _); done.
  - intros Hbad. destruct (export_invalid data o Hbad) as [msg ->].
    split; [done | by exists msg].
Qed.

(** X28: a successful [export] had valid arguments and an encoder output that
    begins with the PNG magic and holds at least 33 bytes; its data are
    the encoder's bytes with the pHYs chunk for the requested dpi
    inserted after byte 33, its type is image/png, and its file name is
    what [generateFilename] gives for these dimensions and dpi with the
    default prefix. *)
Theorem export_result (data : ToneMapper.int_array) (o : PNGExportOptions)
    (r : PNGExportResult) :
  snd (export data o) = Ok r ->
  valid_arguments data o /\
  (exists png,
     encode (mkCall (width o) (height o) data (default 8 (depth o)) 4) = Ok png /\
     magic_ok png /\ (33 <= length png)%nat /\
     PNGExporter.data r = take 33 png ++ buildPHYsChunk (dpi o) ++ drop 33 png) /\
  mimeType r = "image/png" /\
  filename r = ExportPipeline.generateFilename Number_toString
                 (of_Z (width o)) (of_Z (height o)) (dpi o) None.
Proof.
  intros Hok.
  destruct (valid_arguments_dec data o) as [Hv|Hbad]; cycle 1.
  { destruct (export_invalid data o Hbad) as [msg Hmsg].
    rewrite Hmsg in Hok. discriminate. }
  split; [done|]. revert Hok. rewrite (export_valid data o Hv). cbv zeta.
  cbn [bindM emit lift].
  destruct (encode _) as [png|e]; cbn [bindM lift app snd]; [|discriminate].
  destruct (magic_ok_dec png) as [Hm|Hm];
    [|rewrite (injectPHYs_no_magic png _ Hm); discriminate].
  destruct (Nat.le_gt_cases 33 (length png)) as [Hlen|Hlen];
    [|rewrite (injectPHYs_short png _ Hm) by lia; discriminate].
  rewrite (injectPHYs_Ok png _ Hm Hlen). cbn [bindM lift ret app snd].
  intros [= <-]. cbn [PNGExporter.data mimeType filename].
  split; [|done]. by exists png.
Qed.

End Host.

End PNGExportFacts.

(** ** Export pipeline failures and the export facade *)

Module ExportFailureFacts.
Import JS ExportPipeline Samples TraceFacts ExportPipelineFacts.

Section Host.
Variable Math_pow : number -> number -> number.
Variable encode : PNGExporter.encode_call -> result (list Z).
Variable Number_toString : number -> string.
Variable ExportProgressFn : Type.
Variable invoke : ExportProgressFn -> number -> result unit.

#[local] Abbreviation event := (event ExportProgressFn).
#[local] Abbreviation exportBuffer :=
  (exportBuffer Math_pow encode Number_toString ExportProgressFn invoke).

(** X29: the events of an [exportBuffer] run with a progress callback are
    an initial part of: report 0, report 50, one encoder call, report 90,
    report 100 -- all of it when the run returns.  An unsupported format
    fails before any event.  A report whose callback throws is the last
    event, and the run fails with what the callback threw.  A failed run
    has reported 100 only when the callback threw at 100. *)
Theorem exportBuffer_event_order (buffer : ColorBuffer.t)
    (options : ExportPipelineOptions ExportProgressFn) (cb : ExportProgressFn) :
  onProgress _ options = Some cb ->
  let run := exportBuffer buffer options in
  let report := Progress _ cb in
  (default "png" (format (base _ options)) <> "png" ->
   run = ([], Throw (Error "Unsupported export format"))) /\
  (exists call,
     let full :=
       [report 0; report 50; Encode _ call; report 90; report 100]%float in
     fst run `prefix_of` full /\
     (forall blob, snd run = Ok blob -> fst run = full) /\
     (forall e, snd run = Throw e -> In (report 100%float) (fst run) ->
        fst run = full /\ invoke cb 100 = Throw e)) /\
  (forall p e, In (report p) (fst run) -> invoke cb p = Throw e ->
     snd run = Throw e /\ last (fst run) = Some (report p)).
Proof.
  intros Hcb run report. subst run.
  set (dummy := PNGExporter.mkCall 0 0 (ToneMapper.mkArray ToneMapper.Uint8 []) 0 0).
  unfold ExportPipeline.exportBuffer. rewrite Hcb.
  destruct (String.eqb_spec (default "png" (format (base _ options))) "png")
    as [Hf|Hf]; cbn [negb].
  2:{ split; [done|]. split; [|by intros p e []].
      exists dummy. cbn [fst snd]. split; [by eexists|]. split; [done|].
      by intros e _ []. }
  split; [done|].
  cbn [ExportPipeline.call_onProgress emit bindM lift app].
  fold report.
  destruct (invoke cb 0) as [[]|e0] eqn:H0.
  2:{ cbn [fst snd]. split.
      - exists dummy. split; [by eexists|]. split; [done|].
        intros e _ [[=]|[]].
      - intros p e [[= <-]|[]] Hp. split; [congruence | done]. }
  destruct (ToneMapper.new _ _) as [tm|en] eqn:Hnew.
  2:{ cbn [fst snd]. split.
      - exists dummy. split; [by eexists|]. split; [done|].
        intros e _ [[=]|[]].
      - intros p e [[= <-]|[]] Hp. congruence. }
  cbn [ExportPipeline.call_onProgress emit bindM lift app].
  fold report.
  destruct (invoke cb 50) as [[]|e50] eqn:H50.
  2:{ cbn [fst snd]. split.
      - exists dummy. split; [by eexists|]. split; [done|].
        intros e _ [[=]|[[=]|[]]].
      - intros p e [[= <-]|[[= <-]|[]]] Hp; [congruence|].
        split; [congruence | done]. }
  pose proof (export_calls encode Number_toString
                (ToneMapper.map Math_pow tm buffer)
                (PNGExporter.mkOptions (ColorBuffer.width buffer)
                   (ColorBuffer.height buffer) (dpi _ options) (Some 8))) as Hcalls.
  pose proof (export_calls_Ok encode Number_toString
                (ToneMapper.map Math_pow tm buffer)
                (PNGExporter.mkOptions (ColorBuffer.width buffer)
                   (ColorBuffer.height buffer) (dpi _ options) (Some 8))) as Hok.
  cbn [PNGExporter.width PNGExporter.height PNGExporter.depth default from_option id]
    in Hcalls, Hok.
  set (call := PNGExporter.mkCall (ColorBuffer.width buffer)
                 (ColorBuffer.height buffer) (ToneMapper.map Math_pow tm buffer) 8 4)
    in *.
  destruct (PNGExporter.export _ _ _ _) as [t [r|ee]];
    cbn [map_events fst snd bindM ret] in *.
  2:{ split.
      - exists call. split.
        + destruct Hcalls as [-> | ->]; by eexists.
        + split; [done|]. intros e _ Hin. exfalso.
          destruct Hcalls as [-> | ->]; cbn in Hin;
            repeat destruct Hin as [Hin|Hin]; done.
      - intros p e Hin Hp. exfalso.
        destruct Hcalls as [-> | ->]; cbn in Hin;
          repeat destruct Hin as [Hin|Hin]; try done;
          injection Hin as <-; congruence. }
  rewrite (Hok r eq_refl). cbn [List.map app].
  cbn [ExportPipeline.call_onProgress emit bindM lift app].
  fold report.
  destruct (invoke cb 90) as [[]|e90] eqn:H90.
  2:{ cbn [fst snd]. split.
      - exists call. split; [by eexists|]. split; [done|].
        intros e _ Hin. exfalso. cbn in Hin.
        repeat destruct Hin as [Hin|Hin]; done.
      - intros p e Hin Hp. cbn in Hin.
        repeat destruct Hin as [Hin|Hin]; try done;
          injection Hin as <-; try congruence.
        split; [congruence | done]. }
  cbn [ExportPipeline.call_onProgress emit bindM lift ret app].
  fold report.
  destruct (invoke cb 100) as [[]|e100] eqn:H100; cbn [fst snd].
  - split.
    + exists call. split; [by exists []|]. split; [done|]. by intros e [=].
    + intros p e Hin Hp. cbn in Hin.
      repeat destruct Hin as [Hin|Hin]; try done;
        injection Hin as <-; congruence.
  - split.
    + exists call. split; [by exists []|]. split; [done|].
      intros e [= <-] _. done.
    + intros p e Hin Hp. cbn in Hin.
      repeat destruct Hin as [Hin|Hin]; try done;
        injection Hin as <-; try congruence.
      split; [congruence | done].
Qed.

(** X30: [HDCanvas.export] throws until an export function is registered;
    after [attachExportPipeline] it runs [exportBuffer] on the canvas's own
    buffer with the canvas's dpi and the given progress callback; after
    [destroy] it throws again. *)
Theorem export_lifecycle (canvas : HDCanvas ExportProgressFn)
    (cb : option ExportProgressFn) (o : ExportOptions) :
  let attached :=
    attachExportPipeline Math_pow encode Number_toString _ invoke canvas cb in
  (exportFn _ canvas = None ->
   export _ canvas o = ([], Throw (Error "No export function registered"))) /\
  export _ attached o
  = exportBuffer (buffer _ canvas) (mkPipelineOptions _ o (canvas_dpi _ canvas) cb) /\
  export _ (destroy _ attached) o
  = ([], Throw (Error "No export function registered")) /\
  buffer _ (destroy _ attached) = buffer _ canvas.
Proof.
  intros attached. split; [|done].
  intros Hnone. unfold export. by rewrite Hnone.
Qed.

End Host.

End ExportFailureFacts.

(** ** Instances *)

Module ExtraWitnesses.
Import JS Samples.

Lemma checked_write_frame_witness :
  ColorBuffer.getPixel (ColorBuffer.setPixelUnchecked quad 0 0 9 9 9 1) 1 1
  = ColorBuffer.getPixel quad 1 1.
Proof.
  apply (PixelFacts.checked_write_frame quad
           (ColorBuffer.setPixelUnchecked quad 0 0 9 9 9 1) 0 0 9 9 9 1
           ColorBuffer.normal);
    [left; reflexivity | discriminate].
Defined.

Lemma tiles_partition_witness : NoDup (Canvas2DBridge.tiles wide_region).
Proof.
  apply (Canvas2DBridgeFacts.tiles_partition wide_region); reflexivity.
Defined.

Lemma drawWith2D_draws_tiles_witness :
  snd (Canvas2DBridge.drawWith2D white_canvas long_strip
         (Canvas2DBridge.mkOptions None None None))
  = fold_left
      (fun acc t =>
         bind acc (fun b =>
           snd (Canvas2DBridge.drawTile white_canvas b t Canvas2DBridge.overwrite
                  ColorBuffer.normal)))
      [Canvas2DBridge.mkTile 0 0 4096 1; Canvas2DBridge.mkTile 4096 0 1 1]
      (Ok long_strip).
Proof.
  exact (proj1 (proj2 (Canvas2DBridgeFacts.drawWith2D_draws_tiles white_canvas
                         long_strip (Canvas2DBridge.mkOptions None None None))
                  eq_refl)).
Defined.

Lemma drawTile_rows_overwrite_witness :
  exists b',
    Canvas2DBridge.drawTile_rows tile_bytes 0 0 2 Canvas2DBridge.overwrite
      ColorBuffer.normal 2 0 quad = Ok b' /\
    ColorBuffer.wf b'.
Proof.
  destruct (DrawTileFacts.drawTile_rows_overwrite tile_bytes 0 0 2 2
              ColorBuffer.normal quad)
    as (b' & Hrun & Hwf & _);
    [exact BufferWitnesses.wf_quad | cbn; lia ..|].
  exists b'. split; [exact Hrun | exact Hwf].
Defined.

Lemma drawTile_rows_blend_transparent_witness :
  Canvas2DBridge.drawTile_rows transparent_bytes 0 0 2 Canvas2DBridge.blend
    ColorBuffer.normal 1 0 quad = Ok quad.
Proof.
  apply (DrawTileFacts.drawTile_rows_blend_transparent transparent_bytes 0 0 2 1
           ColorBuffer.normal quad); [lia | lia |].
  intros p Hp. assert (p = 0 \/ p = 1) as [-> | ->] by lia; reflexivity.
Defined.

Lemma new_canvas_witness : gt (HDCanvas.canvas_dpi inch_canvas) 0 = true.
Proof.
  exact (proj1 (HDCanvasFacts.new_canvas (inch_options PaperSize.portrait)
                  inch_canvas eq_refl)).
Defined.

Lemma new_rejects_bad_dpi_witness :
  HDCanvas.new (HDCanvas.mkOptions (PaperSize.Key PaperSize.A4) (Some 0%float) None None)
  = Throw (RangeError "DPI must be positive").
Proof.
  apply (proj1 (HDCanvasFacts.new_rejects_bad_dpi
                  (HDCanvas.mkOptions (PaperSize.Key PaperSize.A4) (Some 0%float)
                     None None) 0 eq_refl)).
  reflexivity.
Defined.

Lemma new_landscape_witness :
  exists c',
    HDCanvas.new (inch_options PaperSize.portrait) = Ok c' /\
    HDCanvas.widthPx inch_canvas_landscape = HDCanvas.heightPx c'.
Proof.
  destruct (HDCanvasFacts.new_landscape
              (PaperSize.Custom (PaperSize.mkPaper 25.4 50.8)) (Some 1%float)
              (Some ColorBuffer.D64) inch_canvas_landscape eq_refl)
    as (c' & Hnew & Hw & _).
  exists c'. split; [exact Hnew | exact Hw].
Defined.

Lemma map_output_witness :
  length (ToneMapper.elems
            (ToneMapper.map pow_0_1 (ToneMapper.mk ToneMapper.clamp 1 1 8 255) one_pixel))
  = (4 * Z.to_nat (1 * 1))%nat.
Proof.
  apply (ToneMapperMoreFacts.map_output pow_0_1
           (ToneMapper.mk ToneMapper.clamp 1 1 8 255) one_pixel).
  left. reflexivity.
Defined.

Lemma crc32_table_driven_witness :
  PNGExporter.crc32 [0x49; 0x45; 0x4e; 0x44]
  = PNGExporter.crc32_reference [0x49; 0x45; 0x4e; 0x44].
Proof.
  apply (PNGExportFacts.crc32_table_driven [0x49; 0x45; 0x4e; 0x44]).
  repeat constructor; lia.
Defined.

Lemma export_result_witness :
  PNGExporter.valid_arguments quantized_pixel pixel_export_options.
Proof.
  eapply (PNGExportFacts.export_result raw_encode plain_toString quantized_pixel
            pixel_export_options).
  vm_compute. reflexivity.
Defined.

Lemma exportBuffer_event_order_witness :
  snd (ExportPipeline.exportBuffer pow_0_1 raw_encode plain_toString unit
         throwing_at_100 one_pixel clamp_options)
  = Throw (Error "callback").
Proof.
  apply (proj2 (proj2 (ExportFailureFacts.exportBuffer_event_order pow_0_1 raw_encode
                         plain_toString unit throwing_at_100 one_pixel clamp_options
                         tt eq_refl)) 100%float (Error "callback")).
  - vm_compute. do 4 right. left. reflexivity.
  - reflexivity.
Defined.

End ExtraWitnesses.
